(** * Sales-conversation analysis service: the request handlers of [src/main.py]

    A shallow embedding of the FastAPI handlers of [src/main.py] (admission of
    one or many recordings, the background pipeline [transcribe_and_analyze],
    the progress query and the export of a stored conversation), together with
    the properties of the design document that concern them.

    Python values that travel through JSON columns and JSON responses are
    values of [json]; handlers run in a monad that threads the process state,
    may raise a Python exception, and logs the calls it makes. *)

From Stdlib Require Import ZArith NArith QArith Qround String Ascii List Bool Lia.
From stdpp Require Import base option list gmap strings pretty.

Close Scope Q_scope.
Open Scope Z_scope.
Open Scope string_scope.
Open Scope list_scope.

(** ** JSON values, as Python sees them *)

(** [json.loads] yields [None], [bool], [int]/[float], [str], [list] and
    [dict].  Numbers are exact rationals: every finite [int] and [float] is
    one, and Python compares them exactly.  (NaN and the infinities are not
    JSON and are left out.) *)
#[local] Set Warnings "-register-all".
Inductive json : Type :=
| JNull
| JBool (b : bool)
| JNum (q : Q)
| JStr (s : string)
| JArr (xs : list json)
| JObj (kvs : list (string * json)).

Definition Q_of_bool (b : bool) : Q := if b then 1%Q else 0%Q.

(** [assoc k kvs]: the value stored under key [k] of a dict. *)
Fixpoint assoc (k : string) (kvs : list (string * json)) : option json :=
  match kvs with
  | [] => None
  | (k', v) :: rest => if String.eqb k' k then Some v else assoc k rest
  end.

(** Python's [a == b] on JSON values: [True == 1], [1 == 1.0], lists compare
    element by element, dicts compare key by key whatever their order. *)
Fixpoint py_eq (a b : json) {struct a} : bool :=
  match a, b with
  | JNull, JNull => true
  | JBool x, JBool y => Bool.eqb x y
  | JBool x, JNum q => Qeq_bool (Q_of_bool x) q
  | JNum p, JBool y => Qeq_bool p (Q_of_bool y)
  | JNum p, JNum q => Qeq_bool p q
  | JStr s, JStr t => String.eqb s t
  | JArr xs, JArr ys =>
      (fix all2 (xs ys : list json) {struct xs} : bool :=
         match xs, ys with
         | [], [] => true
         | x :: xs', y :: ys' => py_eq x y && all2 xs' ys'
         | _, _ => false
         end) xs ys
  | JObj kvs, JObj kvs' =>
      Nat.eqb (length kvs) (length kvs') &&
      (fix sub (kvs0 : list (string * json)) {struct kvs0} : bool :=
         match kvs0 with
         | [] => true
         | (k, v) :: rest =>
             match assoc k kvs' with
             | Some v' => py_eq v v'
             | None => false
             end && sub rest
         end) kvs
  | _, _ => false
  end.

(** ** Exceptions *)

(** [HTTPException] is what the handlers raise themselves; every other
    exception is kept by its message [str(e)], the only thing the handlers
    read from it. *)
Inductive exn : Type :=
| Exception (msg : string)
| HTTPException (status_code : Z) (detail : string).

Definition str (e : exn) : string :=
  match e with
  | Exception msg => msg
  | HTTPException _ detail => detail
  end.

Definition KeyError (k : string) : exn := Exception ("'" ++ k ++ "'").
Definition TypeError (msg : string) : exn := Exception msg.

(** What [next] raises on an exhausted iterator.  (Out of a coroutine it
    comes as a [RuntimeError]; it is an exception either way.) *)
Definition StopIteration : exn := Exception EmptyString.

(** [d[k]] *)
Definition getitem (d : json) (k : string) : exn + json :=
  match d with
  | JObj kvs =>
      match assoc k kvs with
      | Some v => inr v
      | None => inl (KeyError k)
      end
  | JArr _ => inl (TypeError "list indices must be integers or slices, not str")
  | JStr _ => inl (TypeError "string indices must be integers")
  | _ => inl (TypeError "object is not subscriptable")
  end.

Fixpoint assoc_set (k : string) (v : json) (kvs : list (string * json))
  : list (string * json) :=
  match kvs with
  | [] => [(k, v)]
  | (k', v') :: rest =>
      if String.eqb k' k then (k', v) :: rest else (k', v') :: assoc_set k v rest
  end.

(** [d[k] = v]; the updated dict is returned. *)
Definition setitem (d : json) (k : string) (v : json) : exn + json :=
  match d with
  | JObj kvs => inr (JObj (assoc_set k v kvs))
  | JArr _ => inl (TypeError "list indices must be integers or slices, not str")
  | _ => inl (TypeError "object does not support item assignment")
  end.

(** [k in d] for a dict [d] *)
Definition contains (k : string) (d : json) : bool :=
  match d with
  | JObj kvs => match assoc k kvs with Some _ => true | None => false end
  | _ => false
  end.

Fixpoint chars (s : string) : list json :=
  match s with
  | EmptyString => []
  | String c s' => JStr (String c EmptyString) :: chars s'
  end.

(** [for x in v]: the elements of a list, the keys of a dict, the characters
    of a string. *)
Definition iter (v : json) : exn + list json :=
  match v with
  | JArr xs => inr xs
  | JObj kvs => inr (map (fun kv => JStr (fst kv)) kvs)
  | JStr s => inr (chars s)
  | _ => inl (TypeError "object is not iterable")
  end.

(** [d.items()] *)
Definition items (v : json) : exn + list (string * json) :=
  match v with
  | JObj kvs => inr kvs
  | _ => inl (Exception "object has no attribute 'items'")
  end.

(** ** JSON texts *)

(** What goes over the wire: [JSONResponse] renders its content with
    [json.dumps], without white space, and the caller parses the text it
    receives.  Strings are strings of bytes.  A number is written as its
    decimal expansion, which is exact for every [int] and every [float] (the
    shortest digits that [repr] picks for a [float] are not modelled), and
    read as a fraction.  The parser reads white space, escapes, fractions
    and exponents; it lets leading zeros through, keeps the members of an
    object as they are written, and does not read escapes of characters
    beyond ASCII. *)

Definition quote : ascii := Ascii.ascii_of_nat 34.
Definition backslash : ascii := Ascii.ascii_of_nat 92.

(** *** Characters *)

Definition is_ws (c : ascii) : bool :=
  let n := N_of_ascii c in
  N.eqb n 32 || N.eqb n 9 || N.eqb n 10 || N.eqb n 13.

Fixpoint skip_ws (s : string) : string :=
  match s with
  | String c r => if is_ws c then skip_ws r else s
  | EmptyString => s
  end.

Definition digit (n : N) : ascii := ascii_of_N (48 + n).

Definition digit_value (c : ascii) : option N :=
  let n := N_of_ascii c in
  if N.leb 48 n && N.leb n 57 then Some (n - 48)%N else None.

Definition hex_digit (n : N) : ascii :=
  if N.ltb n 10 then digit n else ascii_of_N (87 + n).

Definition hex_value (c : ascii) : option N :=
  let n := N_of_ascii c in
  if N.leb 48 n && N.leb n 57 then Some (n - 48)%N
  else if N.leb 97 n && N.leb n 102 then Some (n - 87)%N
  else if N.leb 65 n && N.leb n 70 then Some (n - 55)%N
  else None.

(** *** Strings *)

(** [json.dumps] escapes the quote, the backslash and the control
    characters, and nothing else ([ensure_ascii=False]). *)
Definition escape_char (c : ascii) (k : string) : string :=
  let n := N_of_ascii c in
  if N.eqb n 34 then String backslash (String quote k)
  else if N.eqb n 92 then String backslash (String backslash k)
  else if N.eqb n 10 then String backslash (String "n" k)
  else if N.eqb n 13 then String backslash (String "r" k)
  else if N.eqb n 9 then String backslash (String "t" k)
  else if N.eqb n 8 then String backslash (String "b" k)
  else if N.eqb n 12 then String backslash (String "f" k)
  else if N.ltb n 32 then
    String backslash
      (String "u" (String "0" (String "0"
         (String (hex_digit (n / 16)) (String (hex_digit (n mod 16)) k)))))
  else String c k.

Fixpoint escape (s : string) (k : string) : string :=
  match s with
  | EmptyString => k
  | String c r => escape_char c (escape r k)
  end.

Definition print_string (s : string) (k : string) : string :=
  String quote (escape s (String quote k)).

Definition unescape (e : ascii) : option ascii :=
  let n := N_of_ascii e in
  if N.eqb n 34 then Some quote
  else if N.eqb n 92 then Some backslash
  else if N.eqb n 47 then Some "/"%char
  else if N.eqb n 98 then Some (ascii_of_N 8)
  else if N.eqb n 102 then Some (ascii_of_N 12)
  else if N.eqb n 110 then Some (ascii_of_N 10)
  else if N.eqb n 114 then Some (ascii_of_N 13)
  else if N.eqb n 116 then Some (ascii_of_N 9)
  else None.

Definition hex4 (a b c d : ascii) : option N :=
  match hex_value a, hex_value b, hex_value c, hex_value d with
  | Some x, Some y, Some z, Some t => Some (((x * 16 + y) * 16 + z) * 16 + t)%N
  | _, _, _, _ => None
  end.

Definition cons_char (c : ascii) (r : option (string * string)) : option (string * string) :=
  match r with
  | Some (t, rest) => Some (String c t, rest)
  | None => None
  end.

(** The string that ends at the first unescaped quote of [s], and what
    follows that quote. *)
Fixpoint parse_string (s : string) : option (string * string) :=
  match s with
  | EmptyString => None
  | String c r =>
      if Ascii.eqb c quote then Some (EmptyString, r)
      else if Ascii.eqb c backslash then
        match r with
        | EmptyString => None
        | String e r1 =>
            if Ascii.eqb e "u" then
              match r1 with
              | String h1 (String h2 (String h3 (String h4 r2))) =>
                  match hex4 h1 h2 h3 h4 with
                  | Some n =>
                      if N.ltb n 128 then cons_char (ascii_of_N n) (parse_string r2) else None
                  | None => None
                  end
              | _ => None
              end
            else
              match unescape e with
              | Some c' => cons_char c' (parse_string r1)
              | None => None
              end
        end
      else if N.ltb (N_of_ascii c) 32 then None
      else cons_char c (parse_string r)
  end.

(** *** Numbers *)

(** [width] decimal digits of [n], the most significant first. *)
Fixpoint fixed_digits (width : nat) (n : N) (k : string) : string :=
  match width with
  | O => k
  | S w => fixed_digits w (n / 10) (String (digit (n mod 10)) k)
  end.

(** The number of decimal digits of [n], counting [fuel] digits after the
    first at most. *)
Fixpoint width_from (fuel : nat) (n : N) : nat :=
  match fuel with
  | O => 1
  | S f => if N.ltb n 10 then 1 else S (width_from f (n / 10))
  end.

(** The number of decimal digits of [n]. *)
Definition width (n : N) : nat := width_from (N.to_nat (N.log2 n)) n.

(** The digits of [u / 10^p]: those of the integer part and, unless [p] is
    0, a point and [p] decimals. *)
Definition print_unsigned (u p : N) (k : string) : string :=
  if N.eqb p 0 then fixed_digits (width u) u k
  else fixed_digits (width (u / 10 ^ p)) (u / 10 ^ p)
         (String "." (fixed_digits (N.to_nat p) (u mod 10 ^ p) k)).

(** The least [k'] from [k] on, [fuel] steps at most, with [d | 10^k']. *)
Fixpoint places_from (fuel : nat) (k : N) (d : N) : option N :=
  if N.eqb ((10 ^ k) mod d) 0 then Some k
  else match fuel with
       | O => None
       | S f => places_from f (N.succ k) d
       end.

(** How many decimals the fraction with denominator [d] needs, if finitely
    many will do. *)
Definition places (d : positive) : option N := places_from (Pos.size_nat d) 0 (Npos d).

(** A number prints as its decimal expansion; one that has no finite
    expansion, and so is no [int] and no [float], is cut at 17 decimals. *)
Definition print_number (q : Q) (k : string) : string :=
  let r := Qred q in
  let p := match places (Qden r) with Some p => p | None => 17%N end in
  let u := ((Z.abs_N (Qnum r) * 10 ^ p) / Npos (Qden r))%N in
  let text := print_unsigned u p k in
  if Z.ltb (Qnum r) 0 then String "-" text else text.

(** The digits at the head of [s]: their value after [acc], how many they
    are after [count], and the rest of [s]. *)
Fixpoint parse_digits (acc : N) (count : nat) (s : string) : N * nat * string :=
  match s with
  | EmptyString => (acc, count, s)
  | String c r =>
      match digit_value c with
      | Some d => parse_digits (acc * 10 + d) (S count) r
      | None => (acc, count, s)
      end
  end.

(** [e] or [E], a sign and digits, if the text goes on so. *)
Definition parse_exponent (s : string) : option (Z * string) :=
  match s with
  | String c r =>
      if Ascii.eqb c "e" || Ascii.eqb c "E" then
        let '(negative, r1) :=
          match r with
          | String c1 r1 =>
              if Ascii.eqb c1 "-" then (true, r1)
              else if Ascii.eqb c1 "+" then (false, r1)
              else (false, r)
          | EmptyString => (false, r)
          end in
        match parse_digits 0 0 r1 with
        | (_, O, _) => None
        | (e, _, r2) => Some (if negative then - Z.of_N e else Z.of_N e, r2)
        end
      else Some (0, s)
  | EmptyString => Some (0, s)
  end.

(** [num * 10 ^ exponent] *)
Definition scaled (num : Z) (exponent : Z) : Q :=
  if Z.leb 0 exponent then Qmake (num * 10 ^ exponent) 1
  else Qmake num (Z.to_pos (10 ^ (- exponent))).

(** A sign, digits, a fraction and an exponent if there are; the value, as
    a fraction in lowest terms. *)
Definition parse_number (s : string) : option (Q * string) :=
  let '(negative, s1) :=
    match s with
    | String c r => if Ascii.eqb c "-" then (true, r) else (false, s)
    | EmptyString => (false, s)
    end in
  match parse_digits 0 0 s1 with
  | (_, O, _) => None
  | (i, _, s2) =>
      let mantissa :=
        match s2 with
        | String c r =>
            if Ascii.eqb c "." then
              match parse_digits i 0 r with
              | (_, O, _) => None
              | (u, p, s3) => Some (u, p, s3)
              end
            else Some (i, O, s2)
        | EmptyString => Some (i, O, s2)
        end in
      match mantissa with
      | None => None
      | Some (u, p, s3) =>
          match parse_exponent s3 with
          | None => None
          | Some (e, s4) =>
              let num := if negative then - Z.of_N u else Z.of_N u in
              Some (Qred (scaled num (e - Z.of_nat p)), s4)
          end
      end
  end.

(** *** Values *)

Section Printing.

Variable print : json -> string -> string.

Fixpoint print_elements (xs : list json) (k : string) : string :=
  match xs with
  | [] => String "]" k
  | x :: rest => String "," (print x (print_elements rest k))
  end.

Fixpoint print_members (kvs : list (string * json)) (k : string) : string :=
  match kvs with
  | [] => String "}" k
  | (key, v) :: rest =>
      String "," (print_string key (String ":" (print v (print_members rest k))))
  end.

End Printing.

(** The text of [v], followed by [k]: no white space, [","] and [":"] as
    separators. *)
Fixpoint print (v : json) (k : string) : string :=
  match v with
  | JNull => "null" +:+ k
  | JBool true => "true" +:+ k
  | JBool false => "false" +:+ k
  | JNum q => print_number q k
  | JStr s => print_string s k
  | JArr [] => "[]" +:+ k
  | JArr (x :: rest) => String "[" (print x (print_elements print rest k))
  | JObj [] => "{}" +:+ k
  | JObj ((key, v) :: rest) =>
      String "{" (print_string key (String ":" (print v (print_members print rest k))))
  end.

(** [json.dumps(v, separators=(",", ":"), ensure_ascii=False)] *)
Definition dumps (v : json) : string := print v EmptyString.

(** [s] without [word] at its head. *)
Fixpoint strip (word : string) (s : string) : option string :=
  match word with
  | EmptyString => Some s
  | String c word' =>
      match s with
      | String c' s' => if Ascii.eqb c c' then strip word' s' else None
      | EmptyString => None
      end
  end.

Inductive expecting : Type := Value | Elements | Members.

Inductive parsed : Type :=
| PValue (v : json)
| PElements (xs : list json)
| PMembers (kvs : list (string * json)).

(** A recursive-descent parser; [fuel] bounds the depth of its calls. *)
Fixpoint parse (fuel : nat) (e : expecting) (s : string) : option (parsed * string) :=
  match fuel with
  | O => None
  | S fuel =>
      match e with
      | Value =>
          match skip_ws s with
          | EmptyString => None
          | String c r =>
              if Ascii.eqb c "n" then
                match strip "ull" r with Some r' => Some (PValue JNull, r') | None => None end
              else if Ascii.eqb c "t" then
                match strip "rue" r with
                | Some r' => Some (PValue (JBool true), r')
                | None => None
                end
              else if Ascii.eqb c "f" then
                match strip "alse" r with
                | Some r' => Some (PValue (JBool false), r')
                | None => None
                end
              else if Ascii.eqb c quote then
                match parse_string r with
                | Some (t, r') => Some (PValue (JStr t), r')
                | None => None
                end
              else if Ascii.eqb c "[" then
                match skip_ws r with
                | EmptyString => None
                | String c' r' =>
                    if Ascii.eqb c' "]" then Some (PValue (JArr []), r')
                    else match parse fuel Elements r with
                         | Some (PElements xs, r'') => Some (PValue (JArr xs), r'')
                         | _ => None
                         end
                end
              else if Ascii.eqb c "{" then
                match skip_ws r with
                | EmptyString => None
                | String c' r' =>
                    if Ascii.eqb c' "}" then Some (PValue (JObj []), r')
                    else match parse fuel Members r with
                         | Some (PMembers kvs, r'') => Some (PValue (JObj kvs), r'')
                         | _ => None
                         end
                end
              else
                match parse_number (String c r) with
                | Some (q, r') => Some (PValue (JNum q), r')
                | None => None
                end
          end
      | Elements =>
          match parse fuel Value s with
          | Some (PValue v, r) =>
              match skip_ws r with
              | EmptyString => None
              | String c r' =>
                  if Ascii.eqb c "," then
                    match parse fuel Elements r' with
                    | Some (PElements xs, r'') => Some (PElements (v :: xs), r'')
                    | _ => None
                    end
                  else if Ascii.eqb c "]" then Some (PElements [v], r')
                  else None
              end
          | _ => None
          end
      | Members =>
          match skip_ws s with
          | EmptyString => None
          | String c r =>
              if Ascii.eqb c quote then
                match parse_string r with
                | None => None
                | Some (key, r1) =>
                    match skip_ws r1 with
                    | EmptyString => None
                    | String c1 r2 =>
                        if Ascii.eqb c1 ":" then
                          match parse fuel Value r2 with
                          | Some (PValue v, r3) =>
                              match skip_ws r3 with
                              | EmptyString => None
                              | String c3 r4 =>
                                  if Ascii.eqb c3 "," then
                                    match parse fuel Members r4 with
                                    | Some (PMembers kvs, r5) =>
                                        Some (PMembers ((key, v) :: kvs), r5)
                                    | _ => None
                                    end
                                  else if Ascii.eqb c3 "}" then Some (PMembers [(key, v)], r4)
                                  else None
                              end
                          | _ => None
                          end
                        else None
                    end
                end
              else None
          end
      end
  end.

(** [json.loads(text)]: one value, and nothing but white space after it. *)
Definition loads (text : string) : option json :=
  match parse (String.length text) Value text with
  | Some (PValue v, rest) =>
      match skip_ws rest with
      | EmptyString => Some v
      | String _ _ => None
      end
  | _ => None
  end.

(** [v], with every number as a fraction in lowest terms. *)
Fixpoint reduced (v : json) : json :=
  match v with
  | JNum q => JNum (Qred q)
  | JArr xs => JArr (map reduced xs)
  | JObj kvs => JObj (map (fun '(k, x) => (k, reduced x)) kvs)
  | _ => v
  end.

(** Every number of [v] has a finite decimal expansion. *)
Fixpoint finite_decimals (v : json) : bool :=
  match v with
  | JNum q => match places (Qden (Qred q)) with Some _ => true | None => false end
  | JArr xs => forallb finite_decimals xs
  | JObj kvs => forallb (fun '(k, x) => finite_decimals x) kvs
  | _ => true
  end.

(** A bound on the calls [parse] makes on the text of [v]. *)
Fixpoint nodes (v : json) : nat :=
  match v with
  | JArr xs => S (fold_right (fun x n => S (nodes x + n)) O xs)
  | JObj kvs => S (fold_right (fun '(k, x) n => S (nodes x + n)) O kvs)
  | _ => 1
  end.


(** What may follow a value in a text that [print] writes. *)
Definition delimited (k : string) : Prop :=
  match k with
  | EmptyString => True
  | String c _ => c = ","%char \/ c = "]"%char \/ c = "}"%char
  end.

(** A character a value may start with. *)
Definition starts_value (c : ascii) : Prop :=
  is_ws c = false /\ Ascii.eqb c "]" = false /\ Ascii.eqb c "}" = false.

(** The calls [parse] makes on the texts of the elements of a list, and of
    the members of an object. *)
Definition sum_nodes (xs : list json) : nat :=
  fold_right (fun x n => S (nodes x + n)) O xs.

Definition sum_member_nodes (kvs : list (string * json)) : nat :=
  fold_right (fun '(k, x) n => S (nodes x + n)) O kvs.

(** What the induction on a value gives for its parts. *)
Definition round_trips (v : json) : Prop :=
  forall fuel k,
    (nodes v <= fuel)%nat -> finite_decimals v = true -> delimited k ->
    parse fuel Value (print v k) = Some (PValue (reduced v), k).

(** The text of [v] has at least as many characters as [parse] needs calls. *)
Definition long_enough (v : json) : Prop :=
  forall k, (nodes v + String.length k <= String.length (print v k))%nat.

(** Induction on a value, with the property at hand for the elements of a
    list and for the values of a dict. *)
Section json_induction.

Variable P : json -> Prop.
Hypothesis HNull : P JNull.
Hypothesis HBool : forall b, P (JBool b).
Hypothesis HNum : forall q, P (JNum q).
Hypothesis HStr : forall s, P (JStr s).
Hypothesis HArr : forall xs, Forall P xs -> P (JArr xs).
Hypothesis HObj : forall kvs, Forall (fun kv => P (snd kv)) kvs -> P (JObj kvs).

Fixpoint json_induction (v : json) : P v :=
  match v with
  | JNull => HNull
  | JBool b => HBool b
  | JNum q => HNum q
  | JStr s => HStr s
  | JArr xs =>
      HArr xs ((fix all (xs : list json) : Forall P xs :=
                  match xs with
                  | [] => @List.Forall_nil _ P
                  | x :: rest => @List.Forall_cons _ P x rest (json_induction x) (all rest)
                  end) xs)
  | JObj kvs =>
      HObj kvs ((fix all (kvs : list (string * json)) : Forall (fun kv => P (snd kv)) kvs :=
                   match kvs with
                   | [] => @List.Forall_nil _ (fun kv => P (snd kv))
                   | (k, x) :: rest =>
                       @List.Forall_cons _ (fun kv => P (snd kv)) (k, x) rest (json_induction x) (all rest)
                   end) kvs)
  end.

End json_induction.

(** ** Process state *)

(** *** The progress tracker *)

(** Modelled from the spec: the statuses of a task, kept by the missing
    [services/progress.py]. *)
Inductive Status : Type := pending | running | completed | error.

(** Modelled from the spec: what the missing [services/progress.py] keeps of
    a task: its stage, its status and an optional error detail. *)
Record ProcessingTask : Type := mkTask {
  stage : Z;
  status : Status;
  error_detail : option string
}.

(** *** The table [conversations] and the request's collaborators *)

Record UploadFile : Type := mkUploadFile {
  filename : string;
  content_type : option string;
  file : string
}.

(** [current_user]; [user_ident] is its attribute [id]. *)
Record User : Type := mkUser { user_ident : Z }.

(** [ConversationCreate]: a row before it has an id. *)
Record ConversationCreate : Type := mkConversationCreate {
  new_user_id : Z;
  new_file_path : string;
  new_transcript : json;
  new_analysis : json
}.

(** A committed row of [Conversation]; [conversation_ident] is the column
    [id]. *)
Record Conversation : Type := mkConversation {
  conversation_ident : Z;
  user_id : Z;
  file_path : string;
  transcript : json;
  analysis : json;
  created_at : Z
}.

(** A call queued with [background_tasks.add_task(transcribe_and_analyze, ...)]. *)
Record BackgroundCall : Type := mkBackgroundCall {
  bg_file_path : string;
  bg_user_id : Z;
  bg_task_id : string
}.

Record world : Type := mkWorld {
  progress_tracker : gmap string ProcessingTask;
  conversations : list Conversation;       (* committed rows *)
  session : list ConversationCreate;       (* [db.add]ed, not yet committed *)
  background_tasks : list BackgroundCall;  (* of the request being served *)
  uuid_calls : nat                         (* calls of [uuid.uuid4] so far *)
}.

Definition empty_world : world := mkWorld ∅ [] [] [] 0.

Definition set_progress_tracker (f : gmap string ProcessingTask -> gmap string ProcessingTask)
  (w : world) : world :=
  mkWorld (f (progress_tracker w)) (conversations w) (session w)
          (background_tasks w) (uuid_calls w).

(** What a handler hands back to the framework. *)
Inductive response : Type :=
| JSONResponse (status_code : Z) (content : json)
| Response (content : string) (media_type : string) (headers : list (string * string)).

(** *** What a run leaves behind: the log of its calls *)

Inductive step : Type :=
| ProcessAudioFile | TranscribeAudio | IdentifySpeakers | AnalyzeTurnTaking
| ClassifyDialogue | DbCommit
| Subscript    (* [d[k]], [d[k] = v] *)
| Validation.  (* [ConversationCreate(...)] *)

Inductive event : Type :=
| Created (task_id : string)
| Marked (task_id : string) (stage : Z) (status : Status) (detail : option string)
| Invoked (s : step)
| Returned (s : step)
| Raised (s : step) (msg : string)
| Dispatched (task_id : string)
| Responded (r : exn + response).

(** ** The monad of handlers: state, exceptions, log *)

Definition M (A : Type) : Type := world -> (exn + A) * world * list event.

Definition ret {A} (a : A) : M A := fun w => (inr a, w, []).

Definition raise {A} (e : exn) : M A := fun w => (inl e, w, []).

Definition bind {A B} (m : M A) (k : A -> M B) : M B := fun w =>
  match m w with
  | (inl e, w1, t1) => (inl e, w1, t1)
  | (inr a, w1, t1) =>
      match k a w1 with
      | (r, w2, t2) => (r, w2, t1 ++ t2)
      end
  end.

(** [try: m except Exception as e: h e] *)
Definition try_except {A} (m : M A) (h : exn -> M A) : M A := fun w =>
  match m w with
  | (inl e, w1, t1) =>
      match h e w1 with
      | (r, w2, t2) => (r, w2, t1 ++ t2)
      end
  | (inr a, w1, t1) => (inr a, w1, t1)
  end.

Definition log (ev : event) : M unit := fun w => (inr tt, w, [ev]).

Definition get {A} (f : world -> A) : M A := fun w => (inr (f w), w, []).

Definition modify (f : world -> world) : M unit := fun w => (inr tt, f w, []).

(** A pure computation that may raise. *)
Definition lift {A} (r : exn + A) : M A :=
  match r with
  | inl e => raise e
  | inr a => ret a
  end.

(** A step of the handler's own that may raise; a failure is logged. *)
Definition eval {A} (s : step) (r : exn + A) : M A :=
  match r with
  | inl e => bind (log (Raised s (str e))) (fun _ => raise e)
  | inr a => ret a
  end.

(** A call of a collaborator: it returns a value or raises an exception of
    which only the message is known. *)
Definition call {A} (s : step) (r : string + A) : M A :=
  bind (log (Invoked s)) (fun _ =>
  match r with
  | inl msg => bind (log (Raised s msg)) (fun _ => raise (Exception msg))
  | inr a => bind (log (Returned s)) (fun _ => ret a)
  end).

Declare Scope handler_scope.
Delimit Scope handler_scope with handler.
Notation "x <- m ;; k" := (bind m (fun x => k))
  (at level 100, m at next level, right associativity) : handler_scope.
Notation "m ;; k" := (bind m (fun _ => k))
  (at level 100, right associativity) : handler_scope.
Open Scope handler_scope.

Definition result {A} (r : (exn + A) * world * list event) : exn + A := fst (fst r).
Definition final {A} (r : (exn + A) * world * list event) : world := snd (fst r).
Definition trace {A} (r : (exn + A) * world * list event) : list event := snd r.

(** ** [services/progress.py] *)

(** The module [services/progress.py], whose object [progress_tracker] the
    handlers call, is not among the sources; its operations follow the
    contract of the progress store in the design document. *)

(** Modelled from the spec: the conditions [DuplicateTask] and [UnknownTask]
    with which the operations of the missing [services/progress.py] fail. *)
Definition DuplicateTask (task_id : string) : exn := Exception ("DuplicateTask: " ++ task_id).
Definition UnknownTask (task_id : string) : exn := Exception ("UnknownTask: " ++ task_id).

(** Modelled from the spec: the status that [update_progress(task_id, stage)]
    of the missing [services/progress.py] writes when the caller names none.
    The handlers call it so for a task in flight; of the four statuses
    [pending], [running], [completed], [error] that is [running]. *)
Definition default_status : Status := running.

(** Modelled from the spec: [progress_tracker.create_task] of the missing
    [services/progress.py].  It registers a new task at stage 0 with status
    [pending], and fails with [DuplicateTask] if the id already exists. *)
Definition create_task (task_id : string) : M unit :=
  tasks <- get progress_tracker ;;
  match tasks !! task_id with
  | Some _ => raise (DuplicateTask task_id)
  | None =>
      modify (set_progress_tracker <[task_id := mkTask 0 pending None]>) ;;
      log (Created task_id)
  end.

(** Modelled from the spec: [progress_tracker.update_progress] of the missing
    [services/progress.py].  It overwrites the stored stage, status and error
    detail, and fails with [UnknownTask] if the id was never created. *)
Definition update_progress (task_id : string) (stage : Z) (status : Status)
  (detail : option string) : M unit :=
  tasks <- get progress_tracker ;;
  match tasks !! task_id with
  | None => raise (UnknownTask task_id)
  | Some _ =>
      modify (set_progress_tracker <[task_id := mkTask stage status detail]>) ;;
      log (Marked task_id stage status detail)
  end.

Definition status_name (s : Status) : string :=
  match s with
  | pending => "pending"
  | running => "running"
  | completed => "completed"
  | error => "error"
  end.

(** Modelled from the spec: the answer of the missing [services/progress.py]
    to a progress query, [{stage, status, error_detail?}]. *)
Definition snapshot (t : ProcessingTask) : json :=
  JObj ([("stage", JNum (inject_Z (stage t))); ("status", JStr (status_name (status t)))]
        ++ match error_detail t with
           | Some d => [("error_detail", JStr d)]
           | None => []
           end).

(** Modelled from the spec: [progress_tracker.get_progress] of the missing
    [services/progress.py].  It answers the current snapshot of a task; an
    unknown id is a condition of its own, which reaches [get_task_progress]
    as a dict that has the key ["error"], the only thing that handler
    tests. *)
Definition get_progress (task_id : string) : M json :=
  tasks <- get progress_tracker ;;
  match tasks !! task_id with
  | Some t => ret (snapshot t)
  | None => ret (JObj [("error", JStr "Task not found")])
  end.

(** ** The collaborators *)

(** The services the handlers call, by what they answer: a value, or the
    message of the exception they raise.  [format_2f x] is [format(x, ".2f")],
    [format_str x] is [format(x, "")]. *)
Record Externals : Type := mkExternals {
  uuid_stream : nat -> string;
  process_audio_file : UploadFile -> string + string;
  transcribe_audio : string -> string + json;
  identify_speakers : json -> string + json;
  analyze_turn_taking : json -> json -> string + json;
  classify_dialogue : json -> string + json;
  commit : list Conversation -> list ConversationCreate -> string + unit;
  utcnow : Z -> Z;
  isoformat : Z -> string;
  str_datetime : Z -> string;
  format_2f : json -> exn + string;
  format_str : json -> string
}.

(** The sum monad of pure computations that may raise. *)
Definition ebind {A B} (r : exn + A) (k : A -> exn + B) : exn + B :=
  match r with
  | inl e => inl e
  | inr a => k a
  end.

Notation "x <-? r ;; k" := (ebind r (fun x => k))
  (at level 100, r at next level, right associativity) : handler_scope.

Definition supported_types : list string := ["audio/wav"; "audio/mp3"; "audio/m4a"].
Definition export_formats : list string := ["json"; "csv"; "txt"].

Definition in_list (s : string) (l : list string) : bool := existsb (String.eqb s) l.

(** [file.content_type in supported_types]; the declared type may be [None]. *)
Definition supported (f : UploadFile) : bool :=
  match content_type f with
  | Some t => in_list t supported_types
  | None => false
  end.

Section Handlers.

Variable X : Externals.

(** [str(uuid.uuid4())] *)
Definition uuid4 : M string :=
  n <- get uuid_calls ;;
  modify (fun w => mkWorld (progress_tracker w) (conversations w) (session w)
                           (background_tasks w) (S n)) ;;
  ret (uuid_stream X n).

(** [background_tasks.add_task(transcribe_and_analyze, file_path, db, user_id, task_id)] *)
Definition add_task (c : BackgroundCall) : M unit :=
  modify (fun w => mkWorld (progress_tracker w) (conversations w) (session w)
                           (background_tasks w ++ [c]) (uuid_calls w)) ;;
  log (Dispatched (bg_task_id c)).

(** *** The database session *)

(** [ConversationCreate(...)]: [transcript] and [analysis] are
    [Optional[Dict]]. *)
Definition is_optional_dict (v : json) : bool :=
  match v with
  | JObj _ | JNull => true
  | _ => false
  end.

Definition new_ConversationCreate (user_id : Z) (file_path : string)
  (transcript analysis : json) : exn + ConversationCreate :=
  if is_optional_dict transcript && is_optional_dict analysis
  then inr (mkConversationCreate user_id file_path transcript analysis)
  else inl (Exception "validation error for ConversationCreate").

Definition db_add (c : ConversationCreate) : M unit :=
  modify (fun w => mkWorld (progress_tracker w) (conversations w) (session w ++ [c])
                           (background_tasks w) (uuid_calls w)).

Definition next_ident (rows : list Conversation) : Z :=
  1 + fold_right Z.max 0 (map conversation_ident rows).

(** The rows a commit inserts: ids are assigned in order, [created_at]
    defaults to the time of the insert. *)
Fixpoint insert_rows (rows : list Conversation) (news : list ConversationCreate)
  : list Conversation :=
  match news with
  | [] => rows
  | c :: rest =>
      let i := next_ident rows in
      insert_rows (rows ++ [mkConversation i (new_user_id c) (new_file_path c)
                                           (new_transcript c) (new_analysis c)
                                           (utcnow X i)]) rest
  end.

(** [db.commit()]: all pending rows are written, or none. *)
Definition db_commit : M unit :=
  rows <- get conversations ;;
  news <- get session ;;
  call DbCommit (commit X rows news) ;;
  modify (fun w => mkWorld (progress_tracker w) (insert_rows rows news) []
                           (background_tasks w) (uuid_calls w)).

(** The first row with the id [conversation_id] that [uid] owns. *)
Definition query_first (rows : list Conversation) (conversation_id uid : Z)
  : option Conversation :=
  List.find (fun c => Z.eqb (conversation_ident c) conversation_id && Z.eqb (user_id c) uid) rows.

(** The integers of the database are signed 64-bit ones. *)
Definition in_int64 (n : Z) : bool :=
  Z.leb (-9223372036854775808) n && Z.leb n 9223372036854775807.

(** What the driver raises for a parameter that is no such integer. *)
Definition OverflowError : exn :=
  Exception "Python int too large to convert to SQLite INTEGER".

(** The ids the database can hold.  [insert_rows] numbers the rows without a
    bound, so the id of a row of the table counts as one, whatever its size;
    any other id has to fit in 64 bits. *)
Definition storable (rows : list Conversation) (n : Z) : bool :=
  in_int64 n || existsb (fun c => Z.eqb (conversation_ident c) n) rows.

(** [db.query(Conversation).filter(Conversation.id == ..., Conversation.user_id == ...).first()]:
    the id is bound as a parameter of the statement before any row is looked
    at, and an id the database cannot hold raises there.  (The id of the
    user comes from the database.) *)
Definition db_query_first (conversation_id uid : Z) : M (option Conversation) :=
  rows <- get conversations ;;
  if storable rows conversation_id
  then ret (query_first rows conversation_id uid)
  else raise OverflowError.

(** *** [transcribe_and_analyze] *)

Definition transcribe_and_analyze (file_path : string) (user_id : Z) (task_id : string)
  : M unit :=
  try_except
    ((* Update progress to converting stage *)
     update_progress task_id 1 default_status None ;;
     (* Transcribe audio *)
     update_progress task_id 2 default_status None ;;
     transcript <- call TranscribeAudio (transcribe_audio X file_path) ;;
     (* Identify speakers *)
     segments <- eval Subscript (getitem transcript "segments") ;;
     speakers <- call IdentifySpeakers (identify_speakers X segments) ;;
     transcript <- eval Subscript (setitem transcript "speakers" speakers) ;;
     (* Analyze turn-taking patterns *)
     segments <- eval Subscript (getitem transcript "segments") ;;
     turn_analysis <- call AnalyzeTurnTaking (analyze_turn_taking X speakers segments) ;;
     (* Classify dialogue *)
     update_progress task_id 3 default_status None ;;
     analysis <- call ClassifyDialogue (classify_dialogue X transcript) ;;
     analysis <- eval Subscript (setitem analysis "turn_taking" turn_analysis) ;;
     (* Store results *)
     conversation <- eval Validation
                       (new_ConversationCreate user_id file_path transcript analysis) ;;
     db_add conversation ;;
     db_commit ;;
     (* Mark task as completed *)
     update_progress task_id 4 completed None)
    (fun e =>
       update_progress task_id (-1) error (Some (str e)) ;;
       raise e).

(** *** [upload_single_audio] *)

Definition upload_single_audio (file : UploadFile) (current_user : User) : M response :=
  (* Validate file *)
  if negb (supported file) then raise (HTTPException 400 "Invalid file format")
  else
    (* Generate task ID for progress tracking *)
    task_id <- uuid4 ;;
    create_task task_id ;;
    try_except
      ((* Process file *)
       update_progress task_id 0 default_status None ;;
       file_path <- call ProcessAudioFile (process_audio_file X file) ;;
       (* Add to processing queue *)
       add_task (mkBackgroundCall file_path (user_ident current_user) task_id) ;;
       ret (JSONResponse 202
              (JObj [("message", JStr "File uploaded successfully, processing started");
                     ("task_id", JStr task_id)])))
      (fun e =>
         update_progress task_id 0 error (Some (str e)) ;;
         raise (HTTPException 500 (str e))).

(** *** [upload_batch_audio] *)

(** The first loop: every file is validated before any is admitted. *)
Fixpoint validate_files (files : list UploadFile) : M unit :=
  match files with
  | [] => ret tt
  | file :: rest =>
      if negb (supported file)
      then raise (HTTPException 400 ("Invalid file format for " ++ filename file))
      else validate_files rest
  end.

(** The second loop; [responses] is the list built so far.  (The list
    [task_ids] of the source is appended to and never read.) *)
Fixpoint enqueue_files (files : list UploadFile) (current_user : User)
  (responses : list json) : M (list json) :=
  match files with
  | [] => ret responses
  | file :: rest =>
      task_id <- uuid4 ;;
      create_task task_id ;;
      responses <-
        try_except
          (file_path <- call ProcessAudioFile (process_audio_file X file) ;;
           add_task (mkBackgroundCall file_path (user_ident current_user) task_id) ;;
           ret (responses ++
                  [JObj [("message", JStr ("File " ++ filename file ++ " uploaded successfully"));
                         ("task_id", JStr task_id)]]))
          (fun e =>
             update_progress task_id 0 error (Some (str e)) ;;
             ret (responses ++
                    [JObj [("message",
                            JStr ("Error processing " ++ filename file ++ ": " ++ str e));
                           ("task_id", JStr task_id);
                           ("error", JStr (str e))]])) ;;
      enqueue_files rest current_user responses
  end.

Definition upload_batch_audio (files : list UploadFile) (current_user : User) : M response :=
  if Nat.ltb 10 (length files)  (* Limit batch size *)
  then raise (HTTPException 400 "Maximum 10 files per batch")
  else
    validate_files files ;;
    responses <- enqueue_files files current_user [] ;;
    ret (JSONResponse 202 (JArr responses)).

(** *** [get_task_progress] *)

Definition get_task_progress (task_id : string) : M json :=
  progress <- get_progress task_id ;;
  if contains "error" progress
  then raise (HTTPException 404 "Task not found")
  else ret progress.

(** *** [export_conversation] *)

Definition nl : string := String (Ascii.ascii_of_nat 10) EmptyString.
Definition dquote : string := String (Ascii.ascii_of_nat 34) EmptyString.

(** [next(s["classification"] for s in segments if s["start"] == segment["start"])] *)
Fixpoint next_classification (segments : list json) (segment : json) : exn + json :=
  match segments with
  | [] => inl StopIteration
  | s :: rest =>
      s_start <-? getitem s "start" ;;
      start <-? getitem segment "start" ;;
      if py_eq s_start start
      then getitem s "classification"
      else next_classification rest segment
  end.

(** One turn of the csv loop: the text [csv_content] grows by one row. *)
Definition csv_row (conversation : Conversation) (segment : json) (csv_content : string)
  : exn + string :=
  start <-? getitem segment "start" ;;
  start <-? format_2f X start ;;
  speaker <-? getitem segment "speaker" ;;
  text <-? getitem segment "text" ;;
  let csv_content :=
    csv_content +:+ start +:+ "," +:+ format_str X speaker +:+ ","
                +:+ dquote +:+ format_str X text +:+ dquote +:+ "," in
  analysis_segments <-? getitem (analysis conversation) "segments" ;;
  analysis_segments <-? iter analysis_segments ;;
  classification <-? next_classification analysis_segments segment ;;
  phase <-? getitem classification "phase" ;;
  sentiment <-? getitem classification "sentiment" ;;
  inr (csv_content +:+ format_str X phase +:+ "," +:+ format_str X sentiment +:+ nl).

Fixpoint csv_rows (conversation : Conversation) (segments : list json) (csv_content : string)
  : exn + string :=
  match segments with
  | [] => inr csv_content
  | segment :: rest =>
      csv_content <-? csv_row conversation segment csv_content ;;
      csv_rows conversation rest csv_content
  end.

Definition export_csv (conversation : Conversation) : exn + string :=
  segments <-? getitem (transcript conversation) "segments" ;;
  segments <-? iter segments ;;
  csv_rows conversation segments ("timestamp,speaker,text,phase,sentiment" +:+ nl).

Fixpoint txt_transcript (segments : list json) (txt_content : string) : exn + string :=
  match segments with
  | [] => inr txt_content
  | segment :: rest =>
      start <-? getitem segment "start" ;;
      start <-? format_2f X start ;;
      speaker <-? getitem segment "speaker" ;;
      text <-? getitem segment "text" ;;
      txt_transcript rest
        (txt_content +:+ "[" +:+ start +:+ "s] " +:+ format_str X speaker +:+ ": "
                     +:+ format_str X text +:+ nl)
  end.

Fixpoint txt_phases (phases : list (string * json)) (txt_content : string) : exn + string :=
  match phases with
  | [] => inr txt_content
  | (phase, duration) :: rest =>
      duration <-? format_2f X duration ;;
      txt_phases rest (txt_content +:+ "- " +:+ phase +:+ ": " +:+ duration +:+ "s" +:+ nl)
  end.

Fixpoint txt_sentiments (sentiments : list (string * json)) (txt_content : string) : string :=
  match sentiments with
  | [] => txt_content
  | (sentiment, count) :: rest =>
      txt_sentiments rest (txt_content +:+ "- " +:+ sentiment +:+ ": " +:+ format_str X count +:+ nl)
  end.

Definition export_txt (conversation_id : Z) (conversation : Conversation) : exn + string :=
  let txt_content := "Sales Conversation Analysis - ID: " +:+ pretty conversation_id +:+ nl in
  let txt_content :=
    txt_content +:+ "Date: " +:+ str_datetime X (created_at conversation) +:+ nl +:+ nl in
  let txt_content := txt_content +:+ "Transcript:" +:+ nl in
  segments <-? getitem (transcript conversation) "segments" ;;
  segments <-? iter segments ;;
  txt_content <-? txt_transcript segments txt_content ;;
  let txt_content := txt_content +:+ nl +:+ "Analysis:" +:+ nl in
  summary <-? getitem (analysis conversation) "summary" ;;
  duration <-? getitem summary "duration" ;;
  duration <-? format_2f X duration ;;
  let txt_content := txt_content +:+ "Duration: " +:+ duration +:+ "s" +:+ nl in
  let txt_content := txt_content +:+ nl +:+ "Phase Distribution:" +:+ nl in
  summary <-? getitem (analysis conversation) "summary" ;;
  phases <-? getitem summary "phase_distribution" ;;
  phases <-? items phases ;;
  txt_content <-? txt_phases phases txt_content ;;
  let txt_content := txt_content +:+ nl +:+ "Sentiment Distribution:" +:+ nl in
  summary <-? getitem (analysis conversation) "summary" ;;
  sentiments <-? getitem summary "sentiment_summary" ;;
  sentiments <-? items sentiments ;;
  let txt_content := txt_sentiments sentiments txt_content in
  let txt_content := txt_content +:+ nl +:+ "Turn Taking Analysis:" +:+ nl in
  turn_analysis <-? getitem (analysis conversation) "turn_taking" ;;
  total <-? getitem turn_analysis "total_turns" ;;
  let txt_content := txt_content +:+ "Total Turns: " +:+ format_str X total +:+ nl in
  stats <-? getitem turn_analysis "salesperson_stats" ;;
  turns <-? getitem stats "total_turns" ;;
  let txt_content := txt_content +:+ "Salesperson Turns: " +:+ format_str X turns +:+ nl in
  stats <-? getitem turn_analysis "customer_stats" ;;
  turns <-? getitem stats "total_turns" ;;
  inr (txt_content +:+ "Customer Turns: " +:+ format_str X turns +:+ nl).

Definition attachment (conversation_id : Z) (ext : string) : list (string * string) :=
  [("Content-Disposition",
    "attachment; filename=conversation_" +:+ pretty conversation_id +:+ "." +:+ ext)].

Definition export_conversation (conversation_id : Z) (format : string) (current_user : User)
  : M response :=
  (* Verify conversation belongs to user *)
  conversation <- db_query_first conversation_id (user_ident current_user) ;;
  match conversation with
  | None => raise (HTTPException 404 "Conversation not found")
  | Some conversation =>
      if negb (in_list format export_formats)
      then raise (HTTPException 400 "Unsupported format")
      else if String.eqb format "json" then
        ret (JSONResponse 200
               (JObj [("transcript", transcript conversation);
                      ("analysis", analysis conversation);
                      ("metadata",
                       JObj [("created_at", JStr (isoformat X (created_at conversation)));
                             ("file_path", JStr (file_path conversation))])]))
      else if String.eqb format "csv" then
        csv_content <- lift (export_csv conversation) ;;
        ret (Response csv_content "text/csv" (attachment conversation_id "csv"))
      else
        txt_content <- lift (export_txt conversation_id conversation) ;;
        ret (Response txt_content "text/plain" (attachment conversation_id "txt"))
  end.

(** *** One request, as the framework serves it *)

(** The queued calls run one after the other once the response is out; a
    call that raises ends the run of the queue. *)
Fixpoint run_background_tasks (calls : list BackgroundCall) : M unit :=
  match calls with
  | [] => ret tt
  | c :: rest =>
      transcribe_and_analyze (bg_file_path c) (bg_user_id c) (bg_task_id c) ;;
      run_background_tasks rest
  end.

(** [attempt m] runs [m] and hands back its outcome instead of raising. *)
Definition attempt {A} (m : M A) : M (exn + A) := fun w =>
  match m w with
  | (r, w1, t1) => (inr r, w1, t1)
  end.

(** A request gets a fresh [BackgroundTasks] and, from [get_db], a database
    session of its own, with nothing pending; the handler runs; the caller
    gets the response (or the error); only a response carries the queue on. *)
Definition serve (handler : M response) : M (exn + response) :=
  modify (fun w => mkWorld (progress_tracker w) (conversations w) []
                           [] (uuid_calls w)) ;;
  r <- attempt handler ;;
  log (Responded r) ;;
  match r with
  | inl _ => ret r
  | inr _ =>
      calls <- get background_tasks ;;
      attempt (run_background_tasks calls) ;;
      ret r
  end.

End Handlers.

(** ** The vocabulary of the properties *)

(** *** Admission *)

Inductive admission : Type :=
| Single (file : UploadFile)
| Batch (files : list UploadFile).

Definition submit (X : Externals) (a : admission) (current_user : User) : M response :=
  match a with
  | Single file => upload_single_audio X file current_user
  | Batch files => upload_batch_audio X files current_user
  end.

(** An admission error: a declared media type outside the supported set, a
    batch of more than 10 files, or a batch with an invalid member. *)
Definition admission_error (a : admission) : bool :=
  match a with
  | Single file => negb (supported file)
  | Batch files => Nat.ltb 10 (length files) || existsb (fun f => negb (supported f)) files
  end.

(** The id the [n]-th coming call of [uuid4] yields in [w]. *)
Definition coming_id (X : Externals) (w : world) (n : nat) : string :=
  uuid_stream X (n + uuid_calls w).

(** The answer to an accepted single upload. *)
Definition accepted (task_id : string) : response :=
  JSONResponse 202
    (JObj [("message", JStr "File uploaded successfully, processing started");
           ("task_id", JStr task_id)]).

(** The coming [n] ids are new to the tracker and differ from each other. *)
Definition fresh_ids (X : Externals) (w : world) (n : nat) : Prop :=
  forall i, (i < n)%nat ->
    progress_tracker w !! coming_id X w i = None /\
    forall j, (j < n)%nat -> coming_id X w i = coming_id X w j -> i = j.

(** *** A batch, file by file *)

(** What the batch handler answers for [file], admitted under [task_id]. *)
Definition batch_entry (X : Externals) (file : UploadFile) (task_id : string) : json :=
  match process_audio_file X file with
  | inr _ =>
      JObj [("message", JStr ("File " ++ filename file ++ " uploaded successfully"));
            ("task_id", JStr task_id)]
  | inl msg =>
      JObj [("message", JStr ("Error processing " ++ filename file ++ ": " ++ msg));
            ("task_id", JStr task_id);
            ("error", JStr msg)]
  end.

(** The state in which the batch handler leaves the task of [file]. *)
Definition batch_task (X : Externals) (file : UploadFile) : ProcessingTask :=
  match process_audio_file X file with
  | inr _ => mkTask 0 pending None
  | inl msg => mkTask 0 error (Some msg)
  end.

(** The answers, the tracker, the queue and the log of the second loop of
    the batch handler, when the [n]-th id of the stream is the next one. *)
Fixpoint batch_entries (X : Externals) (n : nat) (files : list UploadFile) : list json :=
  match files with
  | [] => []
  | file :: rest => batch_entry X file (uuid_stream X n) :: batch_entries X (S n) rest
  end.

Fixpoint batch_tracker (X : Externals) (n : nat) (files : list UploadFile)
  (tasks : gmap string ProcessingTask) : gmap string ProcessingTask :=
  match files with
  | [] => tasks
  | file :: rest =>
      batch_tracker X (S n) rest (<[uuid_stream X n := batch_task X file]> tasks)
  end.

Fixpoint batch_calls (X : Externals) (uid : Z) (n : nat) (files : list UploadFile)
  : list BackgroundCall :=
  match files with
  | [] => []
  | file :: rest =>
      match process_audio_file X file with
      | inr path => [mkBackgroundCall path uid (uuid_stream X n)]
      | inl _ => []
      end ++ batch_calls X uid (S n) rest
  end.

Fixpoint batch_trace (X : Externals) (n : nat) (files : list UploadFile) : list event :=
  match files with
  | [] => []
  | file :: rest =>
      Created (uuid_stream X n) :: Invoked ProcessAudioFile
        :: match process_audio_file X file with
           | inr _ => [Returned ProcessAudioFile; Dispatched (uuid_stream X n)]
           | inl msg => [Raised ProcessAudioFile msg;
                         Marked (uuid_stream X n) 0 error (Some msg)]
           end
        ++ batch_trace X (S n) rest
  end.

(** *** Orders of events in a log *)

(** [only_after P Q tr]: an event [Q] occurs in [tr] only when an event [P]
    has occurred before it. *)
Fixpoint only_after (P Q : event -> Prop) (tr : list event) : Prop :=
  match tr with
  | [] => True
  | ev :: rest => ~ Q ev /\ (P ev \/ only_after P Q rest)
  end.

(** [always_followed P Q tr]: the event that comes right after an event [P]
    of [tr] is an event [Q]. *)
Fixpoint always_followed (P Q : event -> Prop) (tr : list event) : Prop :=
  match tr with
  | [] => True
  | ev :: rest =>
      (P ev -> match rest with
               | next :: _ => Q next
               | [] => False
               end) /\ always_followed P Q rest
  end.

(** [update_progress(tid, n, ...)] *)
Definition marks (tid : string) (n : Z) (ev : event) : Prop :=
  match ev with
  | Marked t s _ _ => t = tid /\ s = n
  | _ => False
  end.

Definition is_mark (ev : event) : Prop :=
  match ev with
  | Marked _ _ _ _ => True
  | _ => False
  end.

Definition marks_completed (ev : event) : Prop :=
  match ev with
  | Marked _ _ completed _ => True
  | _ => False
  end.

Definition is_invocation (ev : event) : Prop :=
  match ev with
  | Invoked _ => True
  | _ => False
  end.

Definition is_response (ev : event) : Prop :=
  match ev with
  | Responded _ => True
  | _ => False
  end.

(** The work of the background pipeline: every call but the one of
    [process_audio_file]. *)
Definition is_pipeline_invocation (ev : event) : Prop :=
  match ev with
  | Invoked ProcessAudioFile => False
  | Invoked _ => True
  | _ => False
  end.

(** The stages written by the updates of a log that are not the transition
    to [error], in order. *)
Fixpoint forward_stages (tr : list event) : list Z :=
  match tr with
  | [] => []
  | Marked _ s st _ :: rest =>
      match st with
      | error => forward_stages rest
      | _ => s :: forward_stages rest
      end
  | _ :: rest => forward_stages rest
  end.

Fixpoint strictly_increasing (l : list Z) : Prop :=
  match l with
  | a :: (b :: _) as rest => a < b /\ strictly_increasing rest
  | _ => True
  end.

(** [error_keeps_stage cur tr]: an update to status [error] writes the stage
    the task already had ([cur] is the stage written last). *)
Fixpoint error_keeps_stage (cur : option Z) (tr : list event) : Prop :=
  match tr with
  | [] => True
  | Marked _ s st _ :: rest =>
      (st = error -> cur = Some s) /\ error_keeps_stage (Some s) rest
  | _ :: rest => error_keeps_stage cur rest
  end.

(** The events of [tr] that follow the first failure. *)
Fixpoint after_failure (tr : list event) : list event :=
  match tr with
  | [] => []
  | Raised _ _ :: rest => rest
  | _ :: rest => after_failure rest
  end.

Definition is_acceptance (ev : event) : Prop :=
  match ev with
  | Responded (inr _) => True
  | _ => False
  end.


(** The caller has its answer before anything is invoked. *)
Definition responds_before_work (tr : list event) : Prop :=
  only_after is_response is_invocation tr.

(** Stages go strictly forward, and the transition to [error] leaves the
    stage as it is. *)
Definition stage_discipline (tr : list event) : Prop :=
  strictly_increasing (forward_stages tr) /\ error_keeps_stage None tr.

(** [error_stage_written cur tr]: an update to status [error] writes stage 0
    when the task is at stage 0, and -1 when it is further; no update follows
    it.  ([cur] is the stage written last.) *)
Fixpoint error_stage_written (cur : option Z) (tr : list event) : Prop :=
  match tr with
  | [] => True
  | Marked _ s st _ :: rest =>
      (st = error ->
       ((cur = Some 0 /\ s = 0) \/ (exists c, cur = Some c /\ 1 <= c /\ s = -1)) /\
       Forall (fun ev => ~ is_mark ev) rest) /\
      error_stage_written (Some s) rest
  | _ :: rest => error_stage_written cur rest
  end.

(** The updates of a log, whatever their task, in order. *)
Fixpoint all_updates (tr : list event) : list event :=
  match tr with
  | [] => []
  | Marked t s st d :: rest => Marked t s st d :: all_updates rest
  | _ :: rest => all_updates rest
  end.

(** The updates of the task [tid] in a log, in order. *)
Fixpoint updates (tid : string) (tr : list event) : list event :=
  match tr with
  | [] => []
  | Marked t s st d :: rest =>
      if String.eqb t tid then Marked t s st d :: updates tid rest else updates tid rest
  | _ :: rest => updates tid rest
  end.

(** The log of a run of [transcribe_and_analyze] in which nothing raises. *)
Definition pipeline_trace (tid : string) : list event :=
  [Marked tid 1 running None; Marked tid 2 running None;
   Invoked TranscribeAudio; Returned TranscribeAudio;
   Invoked IdentifySpeakers; Returned IdentifySpeakers;
   Invoked AnalyzeTurnTaking; Returned AnalyzeTurnTaking;
   Marked tid 3 running None;
   Invoked ClassifyDialogue; Returned ClassifyDialogue;
   Invoked DbCommit; Returned DbCommit;
   Marked tid 4 completed None].

(** How many events of [pipeline_trace] a failing run can log before the
    failure: a collaborator raises right after it is invoked; a subscript or
    the validation raises right after a collaborator has returned. *)
Definition failure_points : list nat := [3; 4; 5; 6; 7; 10; 11; 12]%nat.

(** The log of the queue of a request: the runs of [transcribe_and_analyze]
    on the tasks [ids], one after the other; a run that fails is the last,
    and the tasks queued after it do not run. *)
Fixpoint queue_log (ids : list string) (tr : list event) : Prop :=
  match ids with
  | [] => tr = []
  | tid :: rest =>
      (exists tr', tr = pipeline_trace tid ++ tr' /\ queue_log rest tr') \/
      (exists k s msg,
         In k failure_points /\
         tr = firstn k (pipeline_trace tid)
                ++ [Raised s msg; Marked tid (-1) error (Some msg)])
  end.

(** The log of an admission by [upload_single_audio], up to the outcome of
    [process_audio_file]. *)
Definition admission_trace (tid : string) : list event :=
  [Created tid; Marked tid 0 running None; Invoked ProcessAudioFile].

(** *** Export *)

(** The record with id [conversation_id] that [uid] owns, if there is one. *)
Definition owned (rows : list Conversation) (conversation_id uid : Z) (c : Conversation)
  : Prop :=
  In c rows /\ conversation_ident c = conversation_id /\ user_id c = uid.

(** [len(t["segments"])] *)
Definition segment_count (t : json) : exn + nat :=
  segments <-? getitem t "segments" ;;
  segments <-? iter segments ;;
  inr (length segments).

(** [a["summary"][field]] *)
Definition summary_field (a : json) (field : string) : exn + json :=
  summary <-? getitem a "summary" ;;
  getitem summary field.

(** [s] is an analysis segment whose start equals the start of [segment]. *)
Definition matches (segment s : json) : Prop :=
  exists v v', getitem s "start" = inr v /\ getitem segment "start" = inr v' /\
               py_eq v v' = true.

(** The analysis segments of a record, when they can be iterated. *)
Definition analysis_segments (c : Conversation) : exn + list json :=
  segments <-? getitem (analysis c) "segments" ;;
  iter segments.

Definition transcript_segments (c : Conversation) : exn + list json :=
  segments <-? getitem (transcript c) "segments" ;;
  iter segments.

(** No analysis segment of [c] has the start of [segment]. *)
Definition unmatched (c : Conversation) (segment : json) : Prop :=
  forall segments s, analysis_segments c = inr segments -> In s segments ->
                     ~ matches segment s.

(** The analysis segment [s] has the start [start]. *)
Definition same_start (start s : json) : bool :=
  match getitem s "start" with
  | inr v => py_eq v start
  | inl _ => false
  end.

(** The row of a transcript segment as the design document words it: the
    start to two decimals, the speaker, the text, and the phase and the
    sentiment looked up in the analysis segment with the same start -- the
    first one, if there are several; without one there is no row, but an
    error. *)
Definition correlated_row (X : Externals) (analysis_segments : list json) (segment : json)
  : exn + string :=
  start <-? getitem segment "start" ;;
  timestamp <-? format_2f X start ;;
  speaker <-? getitem segment "speaker" ;;
  text <-? getitem segment "text" ;;
  match List.find (same_start start) analysis_segments with
  | None => inl StopIteration
  | Some s =>
      classification <-? getitem s "classification" ;;
      phase <-? getitem classification "phase" ;;
      sentiment <-? getitem classification "sentiment" ;;
      inr (timestamp +:+ "," +:+ format_str X speaker +:+ ","
                     +:+ dquote +:+ format_str X text +:+ dquote +:+ ","
                     +:+ format_str X phase +:+ "," +:+ format_str X sentiment +:+ nl)
  end.

(** The rows of a table, one per transcript segment, in order. *)
Fixpoint correlated_rows (X : Externals) (analysis_segments segments : list json)
  : exn + string :=
  match segments with
  | [] => inr EmptyString
  | segment :: rest =>
      row <-? correlated_row X analysis_segments segment ;;
      rows <-? correlated_rows X analysis_segments rest ;;
      inr (row +:+ rows)
  end.

(** What the caller of a JSON export receives: the text [JSONResponse]
    renders its content to. *)
Definition body (r : response) : option string :=
  match r with
  | JSONResponse _ content => Some (dumps content)
  | Response _ _ _ => None
  end.

(** *** Further vocabulary *)

(** The steps that call a collaborator, as opposed to the handler's own
    subscripts and validation. *)
Definition is_collaborator (s : step) : Prop :=
  match s with
  | Subscript | Validation => False
  | _ => True
  end.

(** The collaborators invoked in a log, in order. *)
Fixpoint invocations (tr : list event) : list step :=
  match tr with
  | [] => []
  | Invoked s :: rest => s :: invocations rest
  | _ :: rest => invocations rest
  end.

(** The order in which [transcribe_and_analyze] calls its collaborators. *)
Definition pipeline_steps : list step :=
  [TranscribeAudio; IdentifySpeakers; AnalyzeTurnTaking; ClassifyDialogue; DbCommit].

(** How many ids an admission draws. *)
Definition admission_size (a : admission) : nat :=
  match a with
  | Single _ => 1%nat
  | Batch files => length files
  end.

(** The background call of a file admitted under an id, if its processing
    succeeds. *)
Definition processed_call (X : Externals) (uid : Z) (ft : UploadFile * string)
  : option BackgroundCall :=
  match process_audio_file X (fst ft) with
  | inr path => Some (mkBackgroundCall path uid (snd ft))
  | inl _ => None
  end.

(** The answer of a dict-shaped transcriber: a dict with the key
    ["segments"]. *)
Definition has_segments (t : json) : Prop :=
  exists kvs segments, t = JObj kvs /\ assoc "segments" kvs = Some segments.

Definition is_dict (a : json) : Prop := exists kvs, a = JObj kvs.

(** The first line of a csv export. *)
Definition csv_header : string := "timestamp,speaker,text,phase,sentiment" +:+ nl.

(** ** Sample collaborators and requests *)

Module Sample.

Definition seg (start : Q) (speaker text : string) : json :=
  JObj [("start", JNum start); ("speaker", JStr speaker); ("text", JStr text)].

Definition aseg (start : Q) (phase sentiment : string) : json :=
  JObj [("start", JNum start);
        ("classification", JObj [("phase", JStr phase); ("sentiment", JStr sentiment)])].

Definition upload (name type : string) : UploadFile := mkUploadFile name (Some type) "RIFF".

Definition alice : User := mkUser 7.
Definition bob : User := mkUser 8.

Definition two_digits (n : Z) : string :=
  (if Z.ltb n 10 then "0" else EmptyString) +:+ pretty n.

(** Non-negative numbers to two decimals, rounding half up. *)
Definition fixed2 (v : json) : exn + string :=
  match v with
  | JNum q =>
      let c := Qfloor (Qplus (Qmult q (inject_Z 100)) (1 # 2)) in
      inr (pretty (c / 100) +:+ "." +:+ two_digits (c mod 100))
  | _ => inl (Exception "unsupported format string")
  end.

Definition show (v : json) : string :=
  match v with
  | JStr s => s
  | JNum q => pretty (Qfloor q)
  | _ => "?"
  end.

Definition spoken : json :=
  JObj [("segments", JArr [seg 0 "A" "hi"; seg (5 # 2) "B" "hello"])].

Definition classified : json :=
  JObj [("segments", JArr [aseg 0 "opening" "neutral"; aseg (5 # 2) "opening" "positive"]);
        ("summary", JObj [("duration", JNum 4);
                          ("phase_distribution", JObj [("opening", JNum 4)]);
                          ("sentiment_summary",
                           JObj [("neutral", JNum 1); ("positive", JNum 1)])])].

(** Collaborators that answer; [process_audio_file] rejects the files named
    ["broken.wav"], and [transcribe_audio] answers as told. *)
Definition externals (transcription : string + json) : Externals := {|
  uuid_stream n := "task-" +:+ pretty n;
  process_audio_file f :=
    if String.eqb (filename f) "broken.wav" then inl "cannot decode broken.wav"
    else inr ("/tmp/" +:+ filename f);
  transcribe_audio p := transcription;
  identify_speakers s := inr (JArr [JStr "A"; JStr "B"]);
  analyze_turn_taking sp s := inr (JObj [("total_turns", JNum 2)]);
  classify_dialogue t := inr classified;
  commit rows news := inr tt;
  utcnow i := 1700000000;
  isoformat t := "2023-11-14T22:13:20";
  str_datetime t := "2023-11-14 22:13:20";
  format_2f := fixed2;
  format_str := show
|}.

Definition happy : Externals := externals (inr spoken).
Definition deaf : Externals := externals (inl "model not loaded").

(** A stored record whose second transcript segment starts at 2.5 while the
    analysis has no segment with that start. *)
Definition uncorrelated : Conversation :=
  mkConversation 1 7 "/tmp/a.wav" spoken
    (JObj [("segments", JArr [aseg 0 "opening" "neutral"; aseg 3 "closing" "positive"])])
    1700000000.

Definition stored (c : Conversation) : world := mkWorld ∅ [c] [] [] 0.

Definition turns : json :=
  JObj [("total_turns", JNum 2);
        ("salesperson_stats", JObj [("total_turns", JNum 1)]);
        ("customer_stats", JObj [("total_turns", JNum 1)])].

(** A stored record with everything the exports read. *)
Definition complete : Conversation :=
  mkConversation 1 7 "/tmp/a.wav" spoken
    (JObj [("segments", JArr [aseg 0 "opening" "neutral"; aseg (5 # 2) "opening" "positive"]);
           ("summary", JObj [("duration", JNum 4);
                             ("phase_distribution", JObj [("opening", JNum 4)]);
                             ("sentiment_summary",
                              JObj [("neutral", JNum 1); ("positive", JNum 1)])]);
           ("turn_taking", turns)])
    1700000000.

(** The same record with one more analysis segment, which starts where no
    transcript segment does. *)
Definition overanalysed : Conversation :=
  mkConversation 1 7 "/tmp/a.wav" spoken
    (JObj [("segments", JArr [aseg 0 "opening" "neutral"; aseg (5 # 2) "opening" "positive";
                              aseg 9 "closing" "negative"]);
           ("summary", JObj [("duration", JNum 4)])])
    1700000000.

(** Collaborators that answer, with a database that refuses the commit. *)
Definition offline : Externals := {|
  uuid_stream := uuid_stream happy;
  process_audio_file := process_audio_file happy;
  transcribe_audio := transcribe_audio happy;
  identify_speakers := identify_speakers happy;
  analyze_turn_taking := analyze_turn_taking happy;
  classify_dialogue := classify_dialogue happy;
  commit rows news := inl "database is locked";
  utcnow := utcnow happy;
  isoformat := isoformat happy;
  str_datetime := str_datetime happy;
  format_2f := fixed2;
  format_str := show
|}.

(** Collaborators that answer, but for the classifier. *)
Definition undecided : Externals := {|
  uuid_stream := uuid_stream happy;
  process_audio_file := process_audio_file happy;
  transcribe_audio := transcribe_audio happy;
  identify_speakers := identify_speakers happy;
  analyze_turn_taking := analyze_turn_taking happy;
  classify_dialogue t := inl "classifier unavailable";
  commit := commit happy;
  utcnow := utcnow happy;
  isoformat := isoformat happy;
  str_datetime := str_datetime happy;
  format_2f := fixed2;
  format_str := show
|}.

(** A stored record whose analysis lists its segments last first. *)
Definition shuffled : Conversation :=
  mkConversation 1 7 "/tmp/a.wav" spoken
    (JObj [("segments", JArr [aseg (5 # 2) "closing" "positive"; aseg 0 "opening" "neutral"])])
    1700000000.

(** A batch whose second file has a type that is not supported. *)
Definition mixed : list UploadFile :=
  [upload "a.wav" "audio/wav"; upload "notes.txt" "text/plain"; upload "c.m4a" "audio/m4a"].

(** A record whose transcript has no segment and whose analysis is null. *)
Definition silent : Conversation :=
  mkConversation 2 7 "/tmp/s.wav" (JObj [("segments", JArr [])]) JNull 1700000000.

(** A process in which the task ["t"] was created and nothing else happened. *)
Definition registered : world := mkWorld {[ "t" := mkTask 0 pending None ]} [] [] [] 0.

(** A batch of three files, the second of which cannot be decoded. *)
Definition three : list UploadFile :=
  [upload "a.wav" "audio/wav"; upload "broken.wav" "audio/wav"; upload "c.m4a" "audio/m4a"].

Definition eleven : list UploadFile :=
  map (fun n : nat => upload ("call" +:+ pretty n +:+ ".wav") "audio/wav") (seq 0 11).

End Sample.

(** * Properties *)

(** ** The model at work *)

Example py_eq_int_float : py_eq (JNum 1) (JNum (2 # 2)) = true.
Proof. reflexivity. Qed.

Example py_eq_true_one : py_eq (JBool true) (JNum 1) = true.
Proof. reflexivity. Qed.

Example py_eq_dict_order :
  py_eq (JObj [("a", JNum 1); ("b", JNull)]) (JObj [("b", JNull); ("a", JNum 1)]) = true.
Proof. reflexivity. Qed.

Example py_eq_str_num : py_eq (JStr "1") (JNum 1) = false.
Proof. reflexivity. Qed.

Example getitem_missing : getitem Sample.spoken "speakers" = inl (KeyError "speakers").
Proof. reflexivity. Qed.

Example dumps_nested :
  dumps (JObj [("start", JNum (5 # 2)); ("tags", JArr [JNull; JBool true; JNum (-7 # 4)])])
  = "{" +:+ dquote +:+ "start" +:+ dquote +:+ ":2.5,"
        +:+ dquote +:+ "tags" +:+ dquote +:+ ":[null,true,-1.75]}".
Proof. vm_compute. reflexivity. Qed.

Example dumps_escapes :
  dumps (JStr ("a" +:+ dquote +:+ "b" +:+ nl))
  = dquote +:+ "a" +:+ String backslash dquote +:+ "b" +:+ String backslash "n" +:+ dquote.
Proof. vm_compute. reflexivity. Qed.

Example loads_lenient :
  loads " [1, 2.50 , -3e2, 15E-1, {} , [ ] ] "
  = Some (JArr [JNum 1; JNum (5 # 2); JNum (-300); JNum (3 # 2); JObj []; JArr []]).
Proof. vm_compute. reflexivity. Qed.

Example loads_rejects : loads "[1,]" = None /\ loads "[1 2]" = None /\ loads "nul" = None.
Proof. vm_compute. auto. Qed.

(** A third has no finite expansion: its text is cut, and parses to another
    number. *)
Example dumps_third :
  dumps (JNum (1 # 3)) = "0.33333333333333333" /\
  loads (dumps (JNum (1 # 3))) = Some (JNum (33333333333333333 # 100000000000000000)).
Proof. vm_compute. auto. Qed.

(** An upload goes through; the stored record exports to csv. *)
Example happy_csv :
  result (export_conversation Sample.happy 1 "csv" Sample.alice
            (final (serve Sample.happy
                      (upload_single_audio Sample.happy (Sample.upload "a.wav" "audio/wav")
                         Sample.alice)
                      empty_world)))
  = inr (Response
           ("timestamp,speaker,text,phase,sentiment" +:+ nl
            +:+ "0.00,A," +:+ dquote +:+ "hi" +:+ dquote +:+ ",opening,neutral" +:+ nl
            +:+ "2.50,B," +:+ dquote +:+ "hello" +:+ dquote +:+ ",opening,positive" +:+ nl)
           "text/csv"
           [("Content-Disposition", "attachment; filename=conversation_1.csv")]).
Proof. vm_compute. reflexivity. Qed.

(** A poll after a failed transcription. *)
Example deaf_progress :
  result (get_task_progress "task-0"
            (final (serve Sample.deaf
                      (upload_single_audio Sample.deaf (Sample.upload "a.wav" "audio/wav")
                         Sample.alice)
                      empty_world)))
  = inr (JObj [("stage", JNum (-1)); ("status", JStr "error");
               ("error_detail", JStr "model not loaded")]).
Proof. vm_compute. reflexivity. Qed.

Example three_trace :
  trace (upload_batch_audio Sample.happy Sample.three Sample.alice empty_world)
  = [Created "task-0"; Invoked ProcessAudioFile; Returned ProcessAudioFile;
     Dispatched "task-0";
     Created "task-1"; Invoked ProcessAudioFile;
     Raised ProcessAudioFile "cannot decode broken.wav";
     Marked "task-1" 0 error (Some "cannot decode broken.wav");
     Created "task-2"; Invoked ProcessAudioFile; Returned ProcessAudioFile;
     Dispatched "task-2"].
Proof. vm_compute. reflexivity. Qed.

(** ** The tracker's operations *)

Lemma update_progress_registered tid st s d w :
  is_Some (progress_tracker w !! tid) ->
  update_progress tid st s d w
  = (inr tt, set_progress_tracker <[tid := mkTask st s d]> w, [Marked tid st s d]).
Proof.
  intros [t Ht]. unfold update_progress, bind, get, modify, log.
  cbn. rewrite Ht. reflexivity.
Qed.

Lemma update_progress_unknown tid st s d w :
  progress_tracker w !! tid = None ->
  update_progress tid st s d w = (inl (UnknownTask tid), w, []).
Proof.
  intros Ht. unfold update_progress, bind, get, raise. cbn. rewrite Ht. reflexivity.
Qed.

Lemma create_task_fresh tid w :
  progress_tracker w !! tid = None ->
  create_task tid w
  = (inr tt, set_progress_tracker <[tid := mkTask 0 pending None]> w, [Created tid]).
Proof.
  intros Ht. unfold create_task, bind, get, modify, log. cbn. rewrite Ht. reflexivity.
Qed.

Lemma create_task_duplicate tid w :
  is_Some (progress_tracker w !! tid) ->
  create_task tid w = (inl (DuplicateTask tid), w, []).
Proof.
  intros [t Ht]. unfold create_task, bind, get, raise. cbn. rewrite Ht. reflexivity.
Qed.

Lemma snapshot_has_no_error_key t : contains "error" (snapshot t) = false.
Proof. destruct t as [n st [d|]]; reflexivity. Qed.

(** ** Admission errors *)

Lemma validate_files_invalid files w :
  existsb (fun f => negb (supported f)) files = true ->
  exists detail, validate_files files w = (inl (HTTPException 400 detail), w, []).
Proof.
  induction files as [|f files IH]; cbn; [discriminate|].
  destruct (supported f); cbn.
  - exact IH.
  - intros _. eexists. reflexivity.
Qed.

Lemma validate_files_valid files w :
  forallb supported files = true -> validate_files files w = (inr tt, w, []).
Proof.
  induction files as [|f files IH]; cbn; [reflexivity|].
  destruct (supported f); cbn; [exact IH | discriminate].
Qed.

(** C4.  An admission error -- a file whose declared media type is not
    supported, a batch of more than 10 files, a batch with an invalid member
    -- is answered with a 400 by the handler itself: the state of the process
    is the one before the request (no id drawn, no task registered, nothing
    queued) and nothing was called. *)
Theorem admission_error_rejected X (a : admission) (current_user : User) (w : world) :
  admission_error a = true ->
  exists detail, submit X a current_user w = (inl (HTTPException 400 detail), w, []).
Proof.
  destruct a as [file|files]; cbn [admission_error submit].
  - intros H. unfold upload_single_audio. rewrite H. eexists. reflexivity.
  - intros H. unfold upload_batch_audio.
    destruct (Nat.ltb 10 (length files)); [eexists; reflexivity|].
    cbn in H. destruct (validate_files_invalid files w H) as [detail Hv].
    exists detail. unfold bind at 1. rewrite Hv. reflexivity.
Qed.

(** A batch of 11 valid files is turned down as a whole. *)
Lemma admission_error_rejected_witness :
  admission_error (Batch Sample.eleven) = true /\
  exists detail,
    submit Sample.happy (Batch Sample.eleven) Sample.alice empty_world
    = (inl (HTTPException 400 detail), empty_world, []).
Proof.
  split; [reflexivity|].
  apply (admission_error_rejected Sample.happy (Batch Sample.eleven)). reflexivity.
Defined.

(** ** The progress query *)

(** C6.  A progress query on a task that was created answers the snapshot of
    the task, from which its stage, its status and its error detail (if any)
    read back -- whatever the status, [error] included; a query on an id that
    was never created raises a 404, which no created task gets. *)
Theorem get_task_progress_spec (task_id : string) (w : world) :
  match progress_tracker w !! task_id with
  | Some t =>
      get_task_progress task_id w = (inr (snapshot t), w, []) /\
      getitem (snapshot t) "stage" = inr (JNum (inject_Z (stage t))) /\
      getitem (snapshot t) "status" = inr (JStr (status_name (status t))) /\
      match error_detail t with
      | Some d => getitem (snapshot t) "error_detail" = inr (JStr d)
      | None => contains "error_detail" (snapshot t) = false
      end
  | None =>
      get_task_progress task_id w = (inl (HTTPException 404 "Task not found"), w, [])
  end.
Proof.
  unfold get_task_progress, get_progress, bind, get.
  destruct (progress_tracker w !! task_id) as [t|]; [|reflexivity].
  unfold ret at 1. rewrite snapshot_has_no_error_key.
  destruct t as [n st [d|]]; repeat split; reflexivity.
Qed.

(** ** Export *)

Lemma query_first_owned rows conversation_id uid c :
  query_first rows conversation_id uid = Some c -> owned rows conversation_id uid c.
Proof.
  unfold query_first, owned. intros H.
  destruct (find_some _ _ H) as [Hin Hc].
  apply andb_true_iff in Hc as [H1 H2].
  apply Z.eqb_eq in H1, H2. auto.
Qed.

Lemma query_first_none rows conversation_id uid :
  (forall c, ~ owned rows conversation_id uid c) ->
  query_first rows conversation_id uid = None.
Proof.
  intros H. destruct (query_first rows conversation_id uid) as [c|] eqn:E; [|reflexivity].
  exfalso. exact (H c (query_first_owned _ _ _ _ E)).
Qed.

Lemma query_first_some rows conversation_id uid c :
  owned rows conversation_id uid c ->
  exists c', query_first rows conversation_id uid = Some c'.
Proof.
  intros (Hin & H1 & H2).
  destruct (query_first rows conversation_id uid) as [c'|] eqn:E; [eauto|].
  exfalso. unfold query_first in E.
  pose proof (find_none _ _ E c Hin) as Hc. cbn in Hc.
  rewrite H1, H2, !Z.eqb_refl in Hc. discriminate.
Qed.

Lemma query_first_storable rows conversation_id uid c :
  query_first rows conversation_id uid = Some c -> storable rows conversation_id = true.
Proof.
  intros H. destruct (query_first_owned _ _ _ _ H) as (Hin & Hid & _).
  unfold storable. apply orb_true_iff. right. apply existsb_exists.
  exists c. split; [exact Hin | now apply Z.eqb_eq].
Qed.

Lemma unstorable_not_owned rows conversation_id uid :
  storable rows conversation_id = false -> forall c, ~ owned rows conversation_id uid c.
Proof.
  intros H c Hc. destruct (query_first_some _ _ _ _ Hc) as [c' Hq].
  rewrite (query_first_storable _ _ _ _ Hq) in H. discriminate.
Qed.

Lemma export_not_found X conversation_id format current_user w :
  storable (conversations w) conversation_id = true ->
  query_first (conversations w) conversation_id (user_ident current_user) = None ->
  export_conversation X conversation_id format current_user w
  = (inl (HTTPException 404 "Conversation not found"), w, []).
Proof.
  intros Hs H. cbv [export_conversation db_query_first bind get].
  rewrite Hs. cbv [ret]. rewrite H. reflexivity.
Qed.

Lemma export_unstorable X conversation_id format current_user w :
  storable (conversations w) conversation_id = false ->
  export_conversation X conversation_id format current_user w = (inl OverflowError, w, []).
Proof.
  intros Hs. cbv [export_conversation db_query_first bind get].
  rewrite Hs. reflexivity.
Qed.

Lemma export_found X conversation_id format current_user w c :
  query_first (conversations w) conversation_id (user_ident current_user) = Some c ->
  export_conversation X conversation_id format current_user w
  = match
      (if negb (in_list format export_formats)
       then raise (HTTPException 400 "Unsupported format")
       else if String.eqb format "json" then
         ret (JSONResponse 200
                (JObj [("transcript", transcript c);
                       ("analysis", analysis c);
                       ("metadata",
                        JObj [("created_at", JStr (isoformat X (created_at c)));
                              ("file_path", JStr (file_path c))])]))
       else if String.eqb format "csv" then
         csv_content <- lift (export_csv X c) ;;
         ret (Response csv_content "text/csv" (attachment conversation_id "csv"))
       else
         txt_content <- lift (export_txt X conversation_id c) ;;
         ret (Response txt_content "text/plain" (attachment conversation_id "txt"))) w
    with
    | (r, w2, t2) => (r, w2, [] ++ t2)
    end.
Proof.
  intros H. unfold export_conversation. unfold bind at 1.
  cbv [db_query_first bind get]. rewrite (query_first_storable _ _ _ _ H).
  cbv [ret]. rewrite H. reflexivity.
Qed.

(** C8.  The request for a record under an id that is not a signed 64-bit
    integer (and so the id of no record): whatever the format asked for, the
    lookup raises the driver's [OverflowError], which is not the not-found
    rejection, nor any rejection the handler declares; the caller gets an
    internal error where the claim promises not-found. *)
Theorem export_unstorable_id X (conversation_id : Z) (format : string) (current_user : User)
  (w : world) :
  storable (conversations w) conversation_id = false ->
  (forall c, ~ owned (conversations w) conversation_id (user_ident current_user) c) /\
  export_conversation X conversation_id format current_user w = (inl OverflowError, w, []) /\
  forall code detail, OverflowError <> HTTPException code detail.
Proof.
  intros Hs. split; [|split].
  - now apply unstorable_not_owned.
  - now apply export_unstorable.
  - discriminate.
Qed.

(** Alice asks for the record 9223372036854775808 (2^63), as json and in a
    format that does not exist. *)
Lemma export_unstorable_id_witness :
  export_conversation Sample.happy 9223372036854775808 "json" Sample.alice
    (Sample.stored Sample.uncorrelated)
  = (inl (Exception "Python int too large to convert to SQLite INTEGER"),
     Sample.stored Sample.uncorrelated, [])
  /\
  export_conversation Sample.happy 9223372036854775808 "xml" Sample.alice
    (Sample.stored Sample.uncorrelated)
  = (inl (Exception "Python int too large to convert to SQLite INTEGER"),
     Sample.stored Sample.uncorrelated, []).
Proof.
  split.
  - apply (export_unstorable_id Sample.happy 9223372036854775808 "json" Sample.alice
             (Sample.stored Sample.uncorrelated)). reflexivity.
  - apply (export_unstorable_id Sample.happy 9223372036854775808 "xml" Sample.alice
             (Sample.stored Sample.uncorrelated)). reflexivity.
Defined.

(** X16.  For an id the database can hold: an export of a record that does
    not exist or that another user owns is refused with a 404, whatever the
    format asked for; an export, in a format other than json, csv and txt,
    of a record the caller owns is refused with a 400; a request with an
    unsupported format is refused in either way; and the two refusals
    differ.  Neither changes the state. *)
Theorem export_rejections X (conversation_id : Z) (format : string) (current_user : User)
  (w : world) :
  storable (conversations w) conversation_id = true ->
  ((forall c, ~ owned (conversations w) conversation_id (user_ident current_user) c) ->
   export_conversation X conversation_id format current_user w
   = (inl (HTTPException 404 "Conversation not found"), w, [])) /\
  ((exists c, owned (conversations w) conversation_id (user_ident current_user) c) ->
   in_list format export_formats = false ->
   export_conversation X conversation_id format current_user w
   = (inl (HTTPException 400 "Unsupported format"), w, [])) /\
  (in_list format export_formats = false ->
   exists code detail,
     export_conversation X conversation_id format current_user w
     = (inl (HTTPException code detail), w, []) /\ (code = 404 \/ code = 400)) /\
  HTTPException 404 "Conversation not found" <> HTTPException 400 "Unsupported format".
Proof.
  intros Hs.
  assert (Hbad : forall c,
             query_first (conversations w) conversation_id (user_ident current_user) = Some c ->
             in_list format export_formats = false ->
             export_conversation X conversation_id format current_user w
             = (inl (HTTPException 400 "Unsupported format"), w, [])).
  { intros c Hq Hf. rewrite (export_found _ _ _ _ _ _ Hq), Hf. reflexivity. }
  split; [|split; [|split]].
  - intros H. apply export_not_found; [exact Hs | apply query_first_none, H].
  - intros [c Hc] Hf. destruct (query_first_some _ _ _ _ Hc) as [c' Hq]. eauto.
  - intros Hf.
    destruct (query_first (conversations w) conversation_id (user_ident current_user))
      as [c|] eqn:Hq.
    + exists 400, "Unsupported format". split; [eauto | auto].
    + exists 404, "Conversation not found". split; [now apply export_not_found | auto].
  - discriminate.
Qed.

(** Bob asks for Alice's record; Alice asks for her record as xml. *)
Lemma export_rejections_witness :
  export_conversation Sample.happy 1 "json" Sample.bob (Sample.stored Sample.uncorrelated)
  = (inl (HTTPException 404 "Conversation not found"), Sample.stored Sample.uncorrelated, [])
  /\
  export_conversation Sample.happy 1 "xml" Sample.alice (Sample.stored Sample.uncorrelated)
  = (inl (HTTPException 400 "Unsupported format"), Sample.stored Sample.uncorrelated, []).
Proof.
  split.
  - apply (export_rejections Sample.happy 1 "json" Sample.bob
             (Sample.stored Sample.uncorrelated) eq_refl).
    intros c (Hin & _ & Hu). cbn in Hin. destruct Hin as [<-|[]]. discriminate Hu.
  - apply (export_rejections Sample.happy 1 "xml" Sample.alice
             (Sample.stored Sample.uncorrelated) eq_refl).
    + exists Sample.uncorrelated. unfold owned. cbn. auto.
    + reflexivity.
Defined.

(** *** The csv export correlates by start *)

Lemma next_classification_first segments segment cl :
  next_classification segments segment = inr cl ->
  exists pre s post,
    segments = pre ++ s :: post /\ matches segment s /\
    getitem s "classification" = inr cl /\
    forall s', In s' pre -> ~ matches segment s'.
Proof.
  induction segments as [|a segments IH]; cbn; [discriminate|].
  unfold ebind.
  destruct (getitem a "start") as [|v] eqn:Ha; [discriminate|].
  destruct (getitem segment "start") as [|v'] eqn:Hs; [discriminate|].
  destruct (py_eq v v') eqn:Heq; intros H.
  - exists [], a, segments. repeat split; [|exact H|intros s' []].
    exists v, v'. auto.
  - destruct (IH H) as (pre & s & post & -> & Hm & Hcl & Hpre).
    exists (a :: pre), s, post. repeat split; [exact Hm|exact Hcl|].
    intros s' [<-|Hin]; [|exact (Hpre s' Hin)].
    intros (u & u' & Hu & Hu' & Huu). congruence.
Qed.

Lemma next_classification_unmatched segments segment :
  (forall s, In s segments -> ~ matches segment s) ->
  exists e, next_classification segments segment = inl e.
Proof.
  induction segments as [|a segments IH]; cbn; intros H; [eauto|].
  unfold ebind.
  destruct (getitem a "start") as [|v] eqn:Ha; [eauto|].
  destruct (getitem segment "start") as [|v'] eqn:Hs; [eauto|].
  destruct (py_eq v v') eqn:Heq.
  - exfalso. apply (H a); [auto|]. exists v, v'. auto.
  - apply IH. intros s Hin. apply H. auto.
Qed.

Lemma csv_row_unmatched X c segment csv_content :
  unmatched c segment -> exists e, csv_row X c segment csv_content = inl e.
Proof.
  intros H. unfold csv_row, ebind.
  destruct (getitem segment "start") as [|j]; [eauto|].
  destruct (format_2f X j) as [|start]; [eauto|].
  destruct (getitem segment "speaker") as [|speaker]; [eauto|].
  destruct (getitem segment "text") as [|text]; [eauto|].
  destruct (getitem (analysis c) "segments") as [|a] eqn:Ha; [eauto|].
  destruct (iter a) as [|segments] eqn:Hi; [eauto|].
  destruct (next_classification_unmatched segments segment) as [e He].
  - intros s Hin. apply (H segments); [|exact Hin].
    unfold analysis_segments, ebind. rewrite Ha. exact Hi.
  - rewrite He. eauto.
Qed.

Lemma csv_rows_unmatched X c segments segment :
  In segment segments -> unmatched c segment ->
  forall csv_content, exists e, csv_rows X c segments csv_content = inl e.
Proof.
  intros Hin Hu. induction segments as [|a segments IH]; [destruct Hin|].
  intros csv_content. cbn. unfold ebind.
  destruct (csv_row X c a csv_content) as [|csv'] eqn:Hrow; [eauto|].
  destruct Hin as [->|Hin].
  - destruct (csv_row_unmatched X c segment csv_content Hu) as [e He]. congruence.
  - apply IH, Hin.
Qed.

Lemma csv_row_correlated X c segment csv_content csv_content' :
  csv_row X c segment csv_content = inr csv_content' ->
  exists segments pre s post classification phase sentiment row,
    analysis_segments c = inr segments /\
    segments = pre ++ s :: post /\
    matches segment s /\
    (forall s', In s' pre -> ~ matches segment s') /\
    getitem s "classification" = inr classification /\
    getitem classification "phase" = inr phase /\
    getitem classification "sentiment" = inr sentiment /\
    csv_content' = (csv_content +:+ row)
                     +:+ format_str X phase +:+ "," +:+ format_str X sentiment +:+ nl.
Proof.
  unfold csv_row, ebind.
  destruct (getitem segment "start") as [|j]; [discriminate|].
  destruct (format_2f X j) as [|start]; [discriminate|].
  destruct (getitem segment "speaker") as [|speaker]; [discriminate|].
  destruct (getitem segment "text") as [|text]; [discriminate|].
  destruct (getitem (analysis c) "segments") as [|a] eqn:Ha; [discriminate|].
  destruct (iter a) as [|segments] eqn:Hi; [discriminate|].
  destruct (next_classification segments segment) as [|cl] eqn:Hn; [discriminate|].
  destruct (getitem cl "phase") as [|phase] eqn:Hp; [discriminate|].
  destruct (getitem cl "sentiment") as [|sentiment] eqn:Hs; [discriminate|].
  intros [= <-].
  destruct (next_classification_first _ _ _ Hn) as (pre & s & post & Hsplit & Hm & Hcl & Hpre).
  exists segments, pre, s, post, cl, phase, sentiment.
  eexists. repeat split; try eassumption.
  unfold analysis_segments, ebind. rewrite Ha. exact Hi.
Qed.

Lemma append_assoc (s1 s2 s3 : string) : (s1 +:+ s2) +:+ s3 = s1 +:+ (s2 +:+ s3).
Proof.
  induction s1 as [|a s1 IH]; [reflexivity|].
  change (String a ((s1 +:+ s2) +:+ s3) = String a (s1 +:+ (s2 +:+ s3))).
  now rewrite IH.
Qed.

Lemma append_nil_r (s : string) : s +:+ EmptyString = s.
Proof.
  induction s as [|a s IH]; [reflexivity|].
  change (String a (s +:+ EmptyString) = String a s). now rewrite IH.
Qed.

(** When every analysis segment has a start, [next] finds what [find] finds. *)
Lemma next_classification_find segments segment start :
  Forall (fun s => exists v, getitem s "start" = inr v) segments ->
  getitem segment "start" = inr start ->
  next_classification segments segment
  = match List.find (same_start start) segments with
    | Some s => getitem s "classification"
    | None => inl StopIteration
    end.
Proof.
  intros Hall Hs. induction Hall as [|a segments [v Ha] _ IH]; [reflexivity|].
  cbn [next_classification List.find]. unfold same_start, ebind.
  rewrite Ha, Hs. destruct (py_eq v start); [reflexivity | exact IH].
Qed.

Lemma csv_row_spec X c analysed segment csv_content :
  analysis_segments c = inr analysed ->
  Forall (fun s => exists v, getitem s "start" = inr v) analysed ->
  csv_row X c segment csv_content
  = (row <-? correlated_row X analysed segment ;; inr (csv_content +:+ row)).
Proof.
  intros Ha Hall. unfold csv_row, correlated_row.
  unfold analysis_segments in Ha. unfold ebind in *.
  destruct (getitem segment "start") as [|start] eqn:Hs; [reflexivity|].
  destruct (format_2f X start) as [|timestamp]; [reflexivity|].
  destruct (getitem segment "speaker") as [|speaker]; [reflexivity|].
  destruct (getitem segment "text") as [|text]; [reflexivity|].
  destruct (getitem (analysis c) "segments") as [|a]; [discriminate|].
  rewrite Ha, (next_classification_find analysed segment start Hall Hs).
  destruct (List.find (same_start start) analysed) as [s|]; [|reflexivity].
  destruct (getitem s "classification") as [|classification]; [reflexivity|].
  destruct (getitem classification "phase") as [|phase]; [reflexivity|].
  destruct (getitem classification "sentiment") as [|sentiment]; [reflexivity|].
  now rewrite !append_assoc.
Qed.

Lemma csv_rows_spec X c analysed segments : forall csv_content,
  analysis_segments c = inr analysed ->
  Forall (fun s => exists v, getitem s "start" = inr v) analysed ->
  csv_rows X c segments csv_content
  = (rows <-? correlated_rows X analysed segments ;; inr (csv_content +:+ rows)).
Proof.
  induction segments as [|segment rest IH]; intros csv_content Ha Hall.
  - cbn. now rewrite append_nil_r.
  - cbn [csv_rows correlated_rows]. rewrite (csv_row_spec X c analysed segment _ Ha Hall).
    destruct (correlated_row X analysed segment) as [|row]; [reflexivity|].
    cbn [ebind]. rewrite (IH _ Ha Hall). unfold ebind.
    destruct (correlated_rows X analysed rest) as [|rows]; [reflexivity|].
    now rewrite append_assoc.
Qed.

(** C7.  In the csv export of a stored record, the phase and the sentiment
    of a row are those of the first analysis segment whose start equals the
    start of the row's transcript segment; when a transcript segment has no
    analysis segment with an equal start, the export raises: there is no csv
    at all, and no row with empty fields; and when the analysis segments all
    have a start, the export is what the lookup by equal start gives, row by
    row: the header and the rows of [correlated_rows], or its error. *)
Theorem csv_export_correlation X (conversation_id : Z) (current_user : User) (w : world)
  (c : Conversation) :
  query_first (conversations w) conversation_id (user_ident current_user) = Some c ->
  (forall segment csv_content csv_content',
     csv_row X c segment csv_content = inr csv_content' ->
     exists segments pre s post classification phase sentiment row,
       analysis_segments c = inr segments /\
       segments = pre ++ s :: post /\
       matches segment s /\
       (forall s', In s' pre -> ~ matches segment s') /\
       getitem s "classification" = inr classification /\
       getitem classification "phase" = inr phase /\
       getitem classification "sentiment" = inr sentiment /\
       csv_content' = (csv_content +:+ row)
                        +:+ format_str X phase +:+ "," +:+ format_str X sentiment +:+ nl) /\
  (forall segments segment,
     transcript_segments c = inr segments -> In segment segments ->
     unmatched c segment ->
     exists e, export_conversation X conversation_id "csv" current_user w = (inl e, w, [])) /\
  (forall segments analysed,
     transcript_segments c = inr segments ->
     analysis_segments c = inr analysed ->
     Forall (fun s => exists v, getitem s "start" = inr v) analysed ->
     export_conversation X conversation_id "csv" current_user w
     = match correlated_rows X analysed segments with
       | inr rows =>
           (inr (Response (csv_header +:+ rows) "text/csv" (attachment conversation_id "csv")),
            w, [])
       | inl e => (inl e, w, [])
       end).
Proof.
  intros Hq. split; [apply csv_row_correlated|].
  assert (Hcsv : forall segments,
             transcript_segments c = inr segments ->
             export_conversation X conversation_id "csv" current_user w
             = match csv_rows X c segments csv_header with
               | inr csv_content =>
                   (inr (Response csv_content "text/csv" (attachment conversation_id "csv")),
                    w, [])
               | inl e => (inl e, w, [])
               end).
  { intros segments Hsegs.
    rewrite (export_found _ _ _ _ _ _ Hq). cbn [in_list export_formats existsb negb].
    change (String.eqb "csv" "json") with false.
    change (String.eqb "csv" "csv") with true. cbn [orb negb].
    unfold bind, lift, export_csv.
    unfold transcript_segments in Hsegs. unfold ebind in *.
    destruct (getitem (transcript c) "segments") as [|t]; [discriminate|].
    rewrite Hsegs. fold csv_header.
    destruct (csv_rows X c segments csv_header); reflexivity. }
  split.
  - intros segments segment Hsegs Hin Hu. rewrite (Hcsv segments Hsegs).
    destruct (csv_rows_unmatched X c segments segment Hin Hu csv_header) as [e He].
    rewrite He. exists e. reflexivity.
  - intros segments analysed Hsegs Ha Hall. rewrite (Hcsv segments Hsegs).
    rewrite (csv_rows_spec X c analysed segments csv_header Ha Hall). unfold ebind.
    destruct (correlated_rows X analysed segments); reflexivity.
Qed.

(** The stored transcript has a segment starting at 2.5, the analysis has
    segments starting at 0 and 3: the csv export raises.  The analysis of
    another record lists the segment starting at 2.5 first: each row of its
    csv export has the phase and the sentiment of the segment with its own
    start, not of the segment at its own place. *)
Lemma csv_export_correlation_witness :
  (exists e,
     export_conversation Sample.happy 1 "csv" Sample.alice (Sample.stored Sample.uncorrelated)
     = (inl e, Sample.stored Sample.uncorrelated, [])) /\
  export_conversation Sample.happy 1 "csv" Sample.alice (Sample.stored Sample.shuffled)
  = (inr (Response
            ("timestamp,speaker,text,phase,sentiment" +:+ nl
             +:+ "0.00,A," +:+ dquote +:+ "hi" +:+ dquote +:+ ",opening,neutral" +:+ nl
             +:+ "2.50,B," +:+ dquote +:+ "hello" +:+ dquote +:+ ",closing,positive" +:+ nl)
            "text/csv"
            [("Content-Disposition", "attachment; filename=conversation_1.csv")]),
     Sample.stored Sample.shuffled, []).
Proof.
  split.
  - apply (proj1 (proj2 (csv_export_correlation Sample.happy 1 Sample.alice
                           (Sample.stored Sample.uncorrelated) Sample.uncorrelated eq_refl))
             [Sample.seg 0 "A" "hi"; Sample.seg (5 # 2) "B" "hello"]
             (Sample.seg (5 # 2) "B" "hello")).
    + reflexivity.
    + cbn. auto.
    + intros segments s [= <-] Hin (v & v' & Hv & Hv' & Heq).
      cbn in Hv'. injection Hv' as <-.
      destruct Hin as [<-|[<-|[]]]; cbn in Hv; injection Hv as <-; discriminate Heq.
  - rewrite (proj2 (proj2 (csv_export_correlation Sample.happy 1 Sample.alice
                             (Sample.stored Sample.shuffled) Sample.shuffled eq_refl))
               [Sample.seg 0 "A" "hi"; Sample.seg (5 # 2) "B" "hello"]
               [Sample.aseg (5 # 2) "closing" "positive"; Sample.aseg 0 "opening" "neutral"]
               eq_refl eq_refl).
    + vm_compute. reflexivity.
    + repeat constructor; eexists; reflexivity.
Defined.

(** ** JSON texts *)

(** *** Numbers and strings *)

Lemma digit_value_digit n : (n < 10)%N -> digit_value (digit n) = Some n.
Proof.
  intros H. unfold digit_value, digit.
  rewrite N_ascii_embedding by lia.
  replace (N.leb 48 (48 + n) && N.leb (48 + n) 57) with true.
  - f_equal. lia.
  - symmetry. apply andb_true_iff. split; apply N.leb_le; lia.
Qed.

Lemma parse_digits_delimited acc count k :
  delimited k -> parse_digits acc count k = (acc, count, k).
Proof.
  destruct k as [|c r]; [reflexivity|]. intros [-> | [-> | ->]]; reflexivity.
Qed.

Lemma parse_digits_fixed w : forall n acc count k,
  (n < 10 ^ N.of_nat w)%N ->
  parse_digits acc count (fixed_digits w n k)
  = parse_digits (acc * 10 ^ N.of_nat w + n) (count + w) k.
Proof.
  induction w as [|w IH]; intros n acc count k Hn.
  - cbn [fixed_digits]. change (N.of_nat 0) with 0%N in *. rewrite N.pow_0_r in *.
    replace n with 0%N by lia. f_equal; [lia | lia].
  - cbn [fixed_digits]. rewrite Nat2N.inj_succ, N.pow_succ_r' in *.
    rewrite IH by (apply N.Div0.div_lt_upper_bound; lia).
    cbn [parse_digits]. rewrite digit_value_digit by (apply N.mod_lt; lia).
    f_equal; [|lia].
    pose proof (N.div_mod n 10). lia.
Qed.

Lemma fixed_digits_head w n k :
  exists d r, (d < 10)%N /\ fixed_digits (S w) n k = String (digit d) r.
Proof.
  revert n k. induction w as [|w IH]; intros n k.
  - exists (n mod 10)%N, k. split; [apply N.mod_lt; lia | reflexivity].
  - change (fixed_digits (S (S w)) n k)
      with (fixed_digits (S w) (n / 10) (String (digit (n mod 10)) k)).
    apply IH.
Qed.

Lemma width_from_spec fuel : forall n,
  (n < 2 ^ N.of_nat (S fuel))%N -> (n < 10 ^ N.of_nat (width_from fuel n))%N.
Proof.
  induction fuel as [|fuel IH]; intros n Hn.
  - cbn in *. lia.
  - cbn [width_from]. destruct (N.ltb_spec n 10) as [Hlt|Hge]; [cbn; lia|].
    rewrite Nat2N.inj_succ, N.pow_succ_r'.
    assert (Hq : (n / 10 < 2 ^ N.of_nat (S fuel))%N).
    { rewrite (Nat2N.inj_succ (S fuel)), N.pow_succ_r' in Hn.
      apply N.Div0.div_lt_upper_bound. lia. }
    specialize (IH _ Hq). pose proof (N.div_mod n 10).
    pose proof (N.mod_lt n 10). lia.
Qed.

Lemma width_spec n : (n < 10 ^ N.of_nat (width n))%N.
Proof.
  unfold width. apply width_from_spec.
  rewrite Nat2N.inj_succ, N2Nat.id.
  destruct n as [|p]; [cbn; lia|]. apply N.log2_spec. lia.
Qed.

Lemma width_positive n : exists w, width n = S w.
Proof.
  unfold width. destruct (N.to_nat (N.log2 n)) as [|f]; cbn [width_from]; [eauto|].
  destruct (N.ltb n 10); eauto.
Qed.

Lemma places_from_spec fuel : forall k d p,
  places_from fuel k d = Some p -> ((10 ^ p) mod d = 0)%N.
Proof.
  induction fuel as [|fuel IH]; intros k d p; cbn [places_from];
    destruct (N.eqb_spec ((10 ^ k) mod d) 0) as [H0|_]; intros H;
    try (injection H as <-; exact H0); try discriminate H.
  exact (IH _ _ _ H).
Qed.

Lemma not_minus_digit d r :
  (d < 10)%N ->
  match String (digit d) r with
  | String c r' => if Ascii.eqb c "-" then (true, r') else (false, String (digit d) r)
  | EmptyString => (false, String (digit d) r)
  end = (false, String (digit d) r).
Proof.
  intros Hd. cbv beta iota.
  destruct (Ascii.eqb_spec (digit d) "-") as [E|_]; [|reflexivity].
  apply (f_equal N_of_ascii) in E. unfold digit in E.
  rewrite N_ascii_embedding in E by lia. cbn in E. lia.
Qed.

Lemma mantissa_delimited (i : N) k :
  delimited k ->
  match k with
  | String c r =>
      if Ascii.eqb c "." then
        match parse_digits i 0 r with
        | (_, O, _) => None
        | (u, p, s3) => Some (u, p, s3)
        end
      else Some (i, O, k)
  | EmptyString => Some (i, O, k)
  end = Some (i, O, k).
Proof.
  destruct k as [|c r]; [reflexivity|]. intros [-> | [-> | ->]]; reflexivity.
Qed.

Lemma parse_exponent_delimited k : delimited k -> parse_exponent k = Some (0, k).
Proof.
  destruct k as [|c r]; [reflexivity|]. intros [-> | [-> | ->]]; reflexivity.
Qed.

Lemma print_unsigned_head u p k :
  exists d r, (d < 10)%N /\ print_unsigned u p k = String (digit d) r.
Proof.
  unfold print_unsigned. destruct (N.eqb p 0).
  - destruct (width_positive u) as [w ->]. apply fixed_digits_head.
  - destruct (width_positive (u / 10 ^ p)) as [w ->]. apply fixed_digits_head.
Qed.

Lemma parse_unsigned u p k :
  delimited k ->
  parse_digits 0 0 (print_unsigned u p k)
  = (if N.eqb p 0 then u else (u / 10 ^ p)%N,
     width (if N.eqb p 0 then u else (u / 10 ^ p)%N),
     if N.eqb p 0 then k
     else String "." (fixed_digits (N.to_nat p) (u mod 10 ^ p) k)).
Proof.
  intros Hk. unfold print_unsigned. destruct (N.eqb p 0).
  - rewrite parse_digits_fixed by apply width_spec.
    rewrite parse_digits_delimited by exact Hk.
    rewrite N.mul_0_l, N.add_0_l. reflexivity.
  - rewrite parse_digits_fixed by apply width_spec.
    cbn [parse_digits]. change (digit_value ".") with (@None N). cbv iota.
    rewrite N.mul_0_l, N.add_0_l. reflexivity.
Qed.

Lemma parse_number_unsigned (negative : bool) u p k :
  delimited k ->
  parse_number (if negative then String "-" (print_unsigned u p k) else print_unsigned u p k)
  = Some (Qred (scaled (if negative then - Z.of_N u else Z.of_N u) (- Z.of_N p)), k).
Proof.
  intros Hk. unfold parse_number.
  assert (Hsign :
    (let s := if negative then String "-" (print_unsigned u p k) else print_unsigned u p k in
     match s with
     | String c r => if Ascii.eqb c "-" then (true, r) else (false, s)
     | EmptyString => (false, s)
     end) = (negative, print_unsigned u p k)).
  { destruct negative; [reflexivity|]. cbv zeta.
    destruct (print_unsigned_head u p k) as (d & r & Hd & ->).
    now apply not_minus_digit. }
  cbv zeta in Hsign. rewrite Hsign. clear Hsign.
  rewrite (parse_unsigned u p k Hk).
  destruct (width_positive (if N.eqb p 0 then u else (u / 10 ^ p)%N)) as [w ->].
  destruct (N.eqb_spec p 0) as [->|Hp].
  - rewrite (mantissa_delimited u k Hk), (parse_exponent_delimited k Hk).
    reflexivity.
  - change (Ascii.eqb "." ".") with true. cbv iota.
    rewrite parse_digits_fixed by (rewrite N2Nat.id; apply N.mod_lt, N.pow_nonzero; lia).
    rewrite parse_digits_delimited by exact Hk.
    rewrite N2Nat.id.
    replace (u / 10 ^ p * 10 ^ p + u mod 10 ^ p)%N with u
      by (pose proof (N.div_mod u (10 ^ p) ltac:(apply N.pow_nonzero; lia)); lia).
    replace (0 + N.to_nat p)%nat with (S (Nat.pred (N.to_nat p))) by lia.
    rewrite (parse_exponent_delimited k Hk).
    replace (0 - Z.of_nat (S (Nat.pred (N.to_nat p)))) with (- Z.of_N p) by lia.
    reflexivity.
Qed.

Lemma scaled_exact (n : Z) (d : positive) (p : N) :
  ((10 ^ p) mod Npos d = 0)%N ->
  let u := ((Z.abs_N n * 10 ^ p) / Npos d)%N in
  Qeq (scaled (if Z.ltb n 0 then - Z.of_N u else Z.of_N u) (- Z.of_N p)) (Qmake n d).
Proof.
  intros Hdiv u.
  apply N.Lcm0.mod_divide in Hdiv as [m Hm].
  assert (Hu : u = (Z.abs_N n * m)%N).
  { unfold u. rewrite Hm, N.mul_assoc. apply N.div_mul. lia. }
  assert (Hpow : 10 ^ Z.of_N p = Z.of_N m * Z.pos d).
  { change (Z.pos d) with (Z.of_N (N.pos d)). rewrite <- N2Z.inj_mul, <- Hm.
    rewrite N2Z.inj_pow. reflexivity. }
  assert (Hnum : (if Z.ltb n 0 then - Z.of_N u else Z.of_N u) = n * Z.of_N m).
  { rewrite Hu, N2Z.inj_mul, N2Z.inj_abs_N.
    destruct (Z.ltb_spec n 0); [rewrite Z.abs_neq by lia | rewrite Z.abs_eq by lia]; ring. }
  rewrite Hnum. unfold scaled, Qeq. cbn [Qnum Qden].
  destruct (Z.leb_spec 0 (- Z.of_N p)) as [H0|H0].
  - assert (Hp0 : Z.of_N p = 0) by lia. rewrite Hp0 in Hpow.
    change (10 ^ 0) with 1 in Hpow.
    replace (- Z.of_N p) with 0 by lia. change (10 ^ 0) with 1.
    cbn [Qnum Qden]. rewrite Z.mul_1_r, <- Z.mul_assoc, <- Hpow. ring.
  - cbn [Qnum Qden].
    rewrite Z.opp_involutive, Z2Pos.id by (apply Z.pow_pos_nonneg; lia).
    rewrite Hpow. ring.
Qed.

Lemma parse_number_print q k :
  is_Some (places (Qden (Qred q))) -> delimited k ->
  parse_number (print_number q k) = Some (Qred q, k).
Proof.
  intros [p Hp] Hk. unfold print_number. rewrite Hp.
  rewrite (parse_number_unsigned (Z.ltb (Qnum (Qred q)) 0) _ p k Hk).
  f_equal. f_equal. apply Qred_complete.
  rewrite (scaled_exact (Qnum (Qred q)) (Qden (Qred q)) p (places_from_spec _ _ _ _ Hp)).
  destruct (Qred q) as [n d] eqn:E. cbn [Qnum Qden]. rewrite <- E. apply Qred_correct.
Qed.

Lemma parse_string_escape_char c k :
  parse_string (escape_char c k) = cons_char c (parse_string k).
Proof.
  destruct c as [[] [] [] [] [] [] [] []]; reflexivity.
Qed.

Lemma parse_string_escape s k : parse_string (escape s (String quote k)) = Some (s, k).
Proof.
  induction s as [|c s IH]; [reflexivity|].
  cbn [escape]. rewrite parse_string_escape_char, IH. reflexivity.
Qed.

(** *** Values *)

Lemma digit_cases d : (d < 10)%N ->
  d = 0%N \/ d = 1%N \/ d = 2%N \/ d = 3%N \/ d = 4%N \/ d = 5%N \/ d = 6%N \/ d = 7%N \/
  d = 8%N \/ d = 9%N.
Proof. lia. Qed.

Lemma print_number_start q k :
  exists c r, print_number q k = String c r /\
              (c = "-"%char \/ exists d, (d < 10)%N /\ c = digit d).
Proof.
  unfold print_number.
  destruct (print_unsigned_head
              ((Z.abs_N (Qnum (Qred q))
                * 10 ^ match places (Qden (Qred q)) with Some p => p | None => 17%N end)
               / Npos (Qden (Qred q)))
              (match places (Qden (Qred q)) with Some p => p | None => 17%N end) k)
    as (d & r & Hd & ->).
  destruct (Z.ltb (Qnum (Qred q)) 0); eexists _, _; (split; [reflexivity|]); eauto.
Qed.

Lemma parse_value_number fuel c r :
  c = "-"%char \/ (exists d, (d < 10)%N /\ c = digit d) ->
  parse (S fuel) Value (String c r)
  = match parse_number (String c r) with
    | Some (q, r') => Some (PValue (JNum q), r')
    | None => None
    end.
Proof.
  intros [->|(d & Hd & ->)]; [reflexivity|].
  destruct (digit_cases d Hd) as [->|[->|[->|[->|[->|[->|[->|[->|[->| ->]]]]]]]]];
    reflexivity.
Qed.

Lemma number_starts_value c :
  c = "-"%char \/ (exists d, (d < 10)%N /\ c = digit d) -> starts_value c.
Proof.
  intros [->|(d & Hd & ->)]; [repeat split|].
  destruct (digit_cases d Hd) as [->|[->|[->|[->|[->|[->|[->|[->|[->| ->]]]]]]]]];
    repeat split.
Qed.

Lemma print_head v k : exists c r, print v k = String c r /\ starts_value c.
Proof.
  destruct v as [|[]|q|s|[|x xs]|[|[key x] kvs]];
    try (eexists _, _; split; [reflexivity | repeat split]).
  destruct (print_number_start q k) as (c & r & E & Hc).
  exists c, r. split; [exact E | now apply number_starts_value].
Qed.

Lemma skip_ws_head c r : is_ws c = false -> skip_ws (String c r) = String c r.
Proof. intros H. cbn [skip_ws]. now rewrite H. Qed.

Lemma print_elements_delimited xs k : delimited (print_elements print xs k).
Proof. destruct xs; cbn; auto. Qed.

Lemma print_members_delimited kvs k : delimited (print_members print kvs k).
Proof. destruct kvs as [|[key x] kvs]; cbn; auto. Qed.

Lemma parse_elements xs :
  Forall round_trips xs ->
  forall x fuel k,
    round_trips x ->
    (S (nodes x + sum_nodes xs) <= fuel)%nat ->
    finite_decimals x = true -> forallb finite_decimals xs = true ->
    parse fuel Elements (print x (print_elements print xs k))
    = Some (PElements (reduced x :: map reduced xs), k).
Proof.
  induction 1 as [|y ys Hy _ IH]; intros x fuel k Hx Hfuel Hfx Hfxs;
    (destruct fuel as [|fuel]; [lia|]); cbn [parse].
  - rewrite Hx; [|cbn in Hfuel; lia|exact Hfx|apply print_elements_delimited].
    reflexivity.
  - cbn [forallb] in Hfxs. apply andb_true_iff in Hfxs as [Hfy Hfys].
    cbn [sum_nodes fold_right] in Hfuel. fold (sum_nodes ys) in Hfuel.
    rewrite Hx; [|lia|exact Hfx|apply print_elements_delimited].
    cbn [print_elements skip_ws]. change (is_ws ",") with false. cbv iota.
    change (Ascii.eqb "," ",") with true. cbv iota.
    rewrite (IH y fuel k Hy); [reflexivity|lia|exact Hfy|exact Hfys].
Qed.

Lemma parse_members kvs :
  Forall (fun kv => round_trips (snd kv)) kvs ->
  forall key x fuel k,
    round_trips x ->
    (S (nodes x + sum_member_nodes kvs) <= fuel)%nat ->
    finite_decimals x = true ->
    forallb (fun '(k, x) => finite_decimals x) kvs = true ->
    parse fuel Members (print_string key (String ":" (print x (print_members print kvs k))))
    = Some (PMembers ((key, reduced x) :: map (fun '(k, x) => (k, reduced x)) kvs), k).
Proof.
  induction 1 as [|[key' y] ys Hy _ IH]; intros key x fuel k Hx Hfuel Hfx Hfxs;
    (destruct fuel as [|fuel]; [lia|]); cbn [parse].
  - unfold print_string at 1. cbn [skip_ws]. change (is_ws quote) with false. cbv iota.
    change (Ascii.eqb quote quote) with true. cbv iota.
    rewrite parse_string_escape.
    cbn [skip_ws]. change (is_ws ":") with false. cbv iota.
    change (Ascii.eqb ":" ":") with true. cbv iota.
    rewrite Hx; [|cbn in Hfuel; lia|exact Hfx|apply print_members_delimited].
    reflexivity.
  - cbn [forallb] in Hfxs. apply andb_true_iff in Hfxs as [Hfy Hfys].
    cbn [sum_member_nodes fold_right] in Hfuel. fold (sum_member_nodes ys) in Hfuel.
    unfold print_string at 1. cbn [skip_ws]. change (is_ws quote) with false. cbv iota.
    change (Ascii.eqb quote quote) with true. cbv iota.
    rewrite parse_string_escape.
    cbn [skip_ws]. change (is_ws ":") with false. cbv iota.
    change (Ascii.eqb ":" ":") with true. cbv iota.
    rewrite Hx; [|lia|exact Hfx|apply print_members_delimited].
    cbn [print_members skip_ws]. change (is_ws ",") with false. cbv iota.
    change (Ascii.eqb "," ",") with true. cbv iota.
    cbn [snd] in Hy.
    rewrite (IH key' y fuel k Hy); [reflexivity|lia|exact Hfy|exact Hfys].
Qed.

Lemma parse_print v : round_trips v.
Proof.
  induction v as [|b|q|s|xs IH|kvs IH] using json_induction;
    intros fuel k Hfuel Hfin Hk; (destruct fuel as [|fuel]; [cbn in Hfuel; lia|]).
  - reflexivity.
  - destruct b; reflexivity.
  - cbn [print reduced finite_decimals] in *.
    destruct (print_number_start q k) as (c & r & E & Hc).
    rewrite E, (parse_value_number fuel c r Hc), <- E.
    rewrite parse_number_print; [reflexivity| |exact Hk].
    destruct (places (Qden (Qred q))); [eauto | discriminate].
  - cbn [print parse]. unfold print_string. cbn [skip_ws].
    change (is_ws quote) with false. cbv iota.
    change (Ascii.eqb quote "n") with false. change (Ascii.eqb quote "t") with false.
    change (Ascii.eqb quote "f") with false. change (Ascii.eqb quote quote) with true.
    cbv iota. rewrite parse_string_escape. reflexivity.
  - destruct xs as [|x xs]; [reflexivity|].
    apply List.Forall_cons_iff in IH as [Hx Hxs].
    cbn [finite_decimals forallb] in Hfin. apply andb_true_iff in Hfin as [Hfx Hfxs].
    cbn [nodes fold_right] in Hfuel. fold (sum_nodes xs) in Hfuel.
    cbn [print parse skip_ws]. change (is_ws "[") with false. cbv iota.
    change (Ascii.eqb "[" "n") with false. change (Ascii.eqb "[" "t") with false.
    change (Ascii.eqb "[" "f") with false. change (Ascii.eqb "[" quote) with false.
    change (Ascii.eqb "[" "[") with true. cbv iota.
    destruct (print_head x (print_elements print xs k)) as (c & r & E & Hws & Hc & _).
    rewrite E at 1. rewrite (skip_ws_head c r Hws), Hc.
    rewrite (parse_elements xs Hxs x fuel k Hx); [reflexivity|lia|exact Hfx|exact Hfxs].
  - destruct kvs as [|[key x] kvs]; [reflexivity|].
    apply List.Forall_cons_iff in IH as [Hx Hxs]. cbn [snd] in Hx.
    cbn [finite_decimals forallb] in Hfin. apply andb_true_iff in Hfin as [Hfx Hfxs].
    cbn [nodes fold_right] in Hfuel. fold (sum_member_nodes kvs) in Hfuel.
    cbn [print parse skip_ws]. change (is_ws "{") with false. cbv iota.
    change (Ascii.eqb "{" "n") with false. change (Ascii.eqb "{" "t") with false.
    change (Ascii.eqb "{" "f") with false. change (Ascii.eqb "{" quote) with false.
    change (Ascii.eqb "{" "[") with false. change (Ascii.eqb "{" "{") with true. cbv iota.
    unfold print_string at 1. cbn [skip_ws]. change (is_ws quote) with false. cbv iota.
    change (Ascii.eqb quote "}") with false. cbv iota.
    fold (print_string key (String ":" (print x (print_members print kvs k)))).
    rewrite (parse_members kvs Hxs key x fuel k Hx); [reflexivity|lia|exact Hfx|exact Hfxs].
Qed.

(** *** A text is long enough to be parsed *)

Lemma fixed_digits_length w : forall n k,
  String.length (fixed_digits w n k) = (w + String.length k)%nat.
Proof.
  induction w as [|w IH]; intros n k; [reflexivity|].
  cbn [fixed_digits]. rewrite IH. cbn [String.length]. lia.
Qed.

Lemma print_number_length q k :
  (1 + String.length k <= String.length (print_number q k))%nat.
Proof.
  unfold print_number, print_unsigned.
  set (p := match places (Qden (Qred q)) with Some p => p | None => 17%N end).
  set (u := ((Z.abs_N (Qnum (Qred q)) * 10 ^ p) / Npos (Qden (Qred q)))%N).
  assert (H : (1 + String.length k
               <= String.length
                    (if N.eqb p 0 then fixed_digits (width u) u k
                     else fixed_digits (width (u / 10 ^ p)) (u / 10 ^ p)
                            (String "." (fixed_digits (N.to_nat p) (u mod 10 ^ p) k))))%nat).
  { destruct (N.eqb p 0).
    - destruct (width_positive u) as [w ->]. rewrite fixed_digits_length. lia.
    - destruct (width_positive (u / 10 ^ p)) as [w ->].
      rewrite fixed_digits_length. cbn [String.length]. rewrite fixed_digits_length. lia. }
  destruct (Z.ltb (Qnum (Qred q)) 0); cbn [String.length]; lia.
Qed.

Lemma escape_char_length c k : (String.length k <= String.length (escape_char c k))%nat.
Proof.
  unfold escape_char.
  repeat match goal with
         | |- context [if ?b then _ else _] => destruct b
         end; cbn [String.length]; lia.
Qed.

Lemma escape_length s k : (String.length k <= String.length (escape s k))%nat.
Proof.
  induction s as [|c s IH]; cbn [escape]; [lia|].
  pose proof (escape_char_length c (escape s k)). lia.
Qed.

Lemma print_string_length s k :
  (2 + String.length k <= String.length (print_string s k))%nat.
Proof.
  unfold print_string. cbn [String.length].
  pose proof (escape_length s (String quote k)). cbn [String.length] in *. lia.
Qed.

Lemma print_elements_length xs :
  Forall long_enough xs ->
  forall k, (S (sum_nodes xs + String.length k)
             <= String.length (print_elements print xs k))%nat.
Proof.
  induction 1 as [|x xs Hx _ IH]; intros k; cbn [print_elements String.length];
    [cbn; lia|].
  cbn [sum_nodes fold_right]. fold (sum_nodes xs).
  specialize (Hx (print_elements print xs k)). specialize (IH k). lia.
Qed.

Lemma print_members_length kvs :
  Forall (fun kv => long_enough (snd kv)) kvs ->
  forall k, (S (sum_member_nodes kvs + String.length k)
             <= String.length (print_members print kvs k))%nat.
Proof.
  induction 1 as [|[key x] kvs Hx _ IH]; intros k; cbn [print_members String.length];
    [cbn; lia|].
  cbn [sum_member_nodes fold_right]. fold (sum_member_nodes kvs).
  cbn [snd] in Hx. specialize (Hx (print_members print kvs k)). specialize (IH k).
  pose proof (print_string_length key (String ":" (print x (print_members print kvs k)))).
  cbn [String.length] in *. lia.
Qed.

Lemma append_length (s k : string) :
  String.length (s +:+ k) = (String.length s + String.length k)%nat.
Proof.
  induction s as [|c s IH]; [reflexivity|].
  change (String.length (String c (s +:+ k))
          = (String.length (String c s) + String.length k)%nat).
  cbn [String.length]. now rewrite IH.
Qed.

Lemma print_length v : long_enough v.
Proof.
  induction v as [|b|q|s|xs IH|kvs IH] using json_induction; intros k.
  - cbn [print nodes]. rewrite append_length. cbn. lia.
  - destruct b; cbn [print nodes]; rewrite append_length; cbn; lia.
  - cbn [print nodes]. pose proof (print_number_length q k). lia.
  - cbn [print nodes]. pose proof (print_string_length s k). lia.
  - destruct xs as [|x xs]; [cbn [print nodes fold_right]; rewrite append_length; cbn; lia|].
    apply List.Forall_cons_iff in IH as [Hx Hxs].
    cbn [print nodes fold_right String.length]. fold (sum_nodes xs).
    specialize (Hx (print_elements print xs k)).
    pose proof (print_elements_length xs Hxs k). lia.
  - destruct kvs as [|[key x] kvs];
      [cbn [print nodes fold_right]; rewrite append_length; cbn; lia|].
    apply List.Forall_cons_iff in IH as [Hx Hxs]. cbn [snd] in Hx.
    cbn [print nodes fold_right String.length]. fold (sum_member_nodes kvs).
    specialize (Hx (print_members print kvs k)).
    pose proof (print_members_length kvs Hxs k).
    pose proof (print_string_length key (String ":" (print x (print_members print kvs k)))).
    cbn [String.length] in *. lia.
Qed.

(** Parsing the text of a value gives the value back, its numbers in
    lowest terms. *)
Lemma loads_dumps v : finite_decimals v = true -> loads (dumps v) = Some (reduced v).
Proof.
  intros Hfin. unfold loads, dumps.
  rewrite (parse_print v); [reflexivity| |exact Hfin|exact I].
  pose proof (print_length v EmptyString). cbn [String.length] in *. lia.
Qed.

(** *** The json export *)

Lemma assoc_reduced k kvs :
  assoc k (map (fun '(k, x) => (k, reduced x)) kvs)
  = match assoc k kvs with Some v => Some (reduced v) | None => None end.
Proof.
  induction kvs as [|[k' v] kvs IH]; [reflexivity|].
  cbn [map assoc]. destruct (String.eqb k' k); [reflexivity | exact IH].
Qed.

Lemma getitem_reduced d k :
  getitem (reduced d) k = (v <-? getitem d k ;; inr (reduced v)).
Proof.
  destruct d as [|b|q|s|xs|kvs]; try reflexivity.
  cbn [reduced getitem]. rewrite assoc_reduced. unfold ebind.
  destruct (assoc k kvs); reflexivity.
Qed.

Lemma segment_count_reduced t : segment_count (reduced t) = segment_count t.
Proof.
  unfold segment_count. rewrite getitem_reduced. unfold ebind.
  destruct (getitem t "segments") as [|[|b|q|s|xs|kvs]]; try reflexivity.
  - cbn [reduced iter]. now rewrite length_map.
  - cbn [reduced iter]. now rewrite !length_map.
Qed.

Lemma summary_field_reduced a field :
  summary_field (reduced a) field = (v <-? summary_field a field ;; inr (reduced v)).
Proof.
  unfold summary_field. rewrite getitem_reduced. unfold ebind.
  destruct (getitem a "summary") as [|summary]; [reflexivity|].
  rewrite getitem_reduced. reflexivity.
Qed.

(** C9.  The json export of a stored record whose numbers have a finite
    decimal expansion (every [int] and every [float] has one) answers with a
    text that parses, and the document parsed from it has a transcript with
    the segment count of the stored transcript and an analysis whose summary
    fields (duration, phase_distribution, sentiment_summary) are the stored
    ones, numbers being read as fractions in lowest terms; where the stored
    record lacks a field, so does the document. *)
Theorem json_export_round_trip X (conversation_id : Z) (current_user : User) (w : world)
  (c : Conversation) :
  query_first (conversations w) conversation_id (user_ident current_user) = Some c ->
  finite_decimals (transcript c) = true ->
  finite_decimals (analysis c) = true ->
  exists resp text doc,
    export_conversation X conversation_id "json" current_user w = (inr resp, w, []) /\
    body resp = Some text /\
    loads text = Some doc /\
    (t <-? getitem doc "transcript" ;; segment_count t) = segment_count (transcript c) /\
    forall field, In field ["duration"; "phase_distribution"; "sentiment_summary"] ->
      (a <-? getitem doc "analysis" ;; summary_field a field)
      = (v <-? summary_field (analysis c) field ;; inr (reduced v)).
Proof.
  intros Hq Ht Ha. rewrite (export_found _ _ _ _ _ _ Hq).
  eexists _, _, _. split; [reflexivity|].
  split; [reflexivity|]. split.
  - apply loads_dumps. cbn [finite_decimals forallb]. now rewrite Ht, Ha.
  - split.
    + cbn [reduced map getitem assoc]. cbn. apply segment_count_reduced.
    + intros field _. cbn [reduced map getitem assoc]. cbn.
      apply summary_field_reduced.
Qed.

(** The export of the sample record that has a summary, and what the
    document parsed from its text holds. *)
Lemma json_export_round_trip_witness :
  exists resp text doc,
    export_conversation Sample.happy 1 "json" Sample.alice (Sample.stored Sample.complete)
    = (inr resp, Sample.stored Sample.complete, []) /\
    body resp = Some text /\
    loads text = Some doc /\
    (t <-? getitem doc "transcript" ;; segment_count t) = inr 2%nat /\
    (a <-? getitem doc "analysis" ;; summary_field a "duration") = inr (JNum 4) /\
    (a <-? getitem doc "analysis" ;; summary_field a "phase_distribution")
    = inr (JObj [("opening", JNum 4)]) /\
    (a <-? getitem doc "analysis" ;; summary_field a "sentiment_summary")
    = inr (JObj [("neutral", JNum 1); ("positive", JNum 1)]).
Proof.
  destruct (json_export_round_trip Sample.happy 1 Sample.alice
              (Sample.stored Sample.complete) Sample.complete eq_refl eq_refl eq_refl)
    as (resp & text & doc & Hexport & Hbody & Hloads & Hcount & Hfields).
  exists resp, text, doc.
  split; [exact Hexport|]. split; [exact Hbody|]. split; [exact Hloads|].
  split; [exact Hcount|]. split; [|split].
  - apply (Hfields "duration"). cbn. auto.
  - apply (Hfields "phase_distribution"). cbn. auto.
  - apply (Hfields "sentiment_summary"). cbn. auto.
Defined.

(** ** Runs of the pipeline *)

Ltac run_step E :=
  first
    [ rewrite lookup_insert_eq in E
    | match type of E with
      | context [match ?x with inl _ => _ | inr _ => _ end] => destruct x eqn:?
      end ];
  cbv beta iota in E.

Ltac failed_at k :=
  exists k; eexists _, _; split; [cbn; tauto|];
  split; [reflexivity|]; split; [reflexivity|]; split; reflexivity.

(** A run of [transcribe_and_analyze] on a registered task either goes
    through, or stops at the first step that raises and marks the error. *)
Lemma transcribe_and_analyze_run X path uid tid w :
  is_Some (progress_tracker w !! tid) ->
  let r := transcribe_and_analyze X path uid tid w in
  (result r = inr tt /\ trace r = pipeline_trace tid /\
   progress_tracker (final r) = <[tid := mkTask 4 completed None]> (progress_tracker w) /\
   exists c, conversations (final r) = insert_rows X (conversations w) (session w ++ [c]) /\
             new_user_id c = uid /\ new_file_path c = path)
  \/ (exists k s e, In k failure_points /\ result r = inl e /\
        trace r = firstn k (pipeline_trace tid)
                    ++ [Raised s (str e); Marked tid (-1) error (Some (str e))] /\
        progress_tracker (final r)
          = <[tid := mkTask (-1) error (Some (str e))]> (progress_tracker w) /\
        conversations (final r) = conversations w).
Proof.
  intros [t0 Hreg] r.
  destruct r as [[res w'] tr] eqn:E. subst r.
  destruct w as [pt cs ss bg uc]. cbn [progress_tracker conversations session] in *.
  cbv [transcribe_and_analyze try_except bind update_progress get modify log ret raise
       call eval db_add db_commit set_progress_tracker progress_tracker conversations
       session background_tasks uuid_calls default_status] in E.
  rewrite Hreg in E. cbv beta iota in E.
  repeat run_step E.
  all: cbn [app] in E; injection E as <- <- <-.
  all: cbn [result final trace fst snd progress_tracker conversations].
  all: rewrite ?insert_insert_eq.
  all: try (right;
            first [ failed_at 3%nat | failed_at 4%nat | failed_at 5%nat | failed_at 6%nat
                  | failed_at 7%nat | failed_at 8%nat | failed_at 10%nat
                  | failed_at 11%nat | failed_at 12%nat ]).
  left. repeat split.
  match goal with
  | H : new_ConversationCreate _ _ _ _ = inr ?c |- _ =>
      exists c; split; [reflexivity|];
      unfold new_ConversationCreate in H;
      destruct (_ && _) in H; [injection H as <-; split; reflexivity | discriminate]
  end.
Qed.

Lemma upload_single_audio_run X file current_user w :
  supported file = true ->
  progress_tracker w !! coming_id X w 0 = None ->
  let tid := coming_id X w 0 in
  upload_single_audio X file current_user w
  = match process_audio_file X file with
    | inr path =>
        (inr (accepted tid),
         mkWorld (<[tid := mkTask 0 running None]> (progress_tracker w)) (conversations w)
                 (session w)
                 (background_tasks w ++ [mkBackgroundCall path (user_ident current_user) tid])
                 (S (uuid_calls w)),
         admission_trace tid ++ [Returned ProcessAudioFile; Dispatched tid])
    | inl msg =>
        (inl (HTTPException 500 msg),
         mkWorld (<[tid := mkTask 0 error (Some msg)]> (progress_tracker w)) (conversations w)
                 (session w) (background_tasks w) (S (uuid_calls w)),
         admission_trace tid ++ [Raised ProcessAudioFile msg; Marked tid 0 error (Some msg)])
    end.
Proof.
  intros Hs Hf tid. subst tid. unfold coming_id in *. cbn [Nat.add] in *.
  destruct w as [pt cs ss bg uc]. cbn [progress_tracker uuid_calls] in *.
  unfold upload_single_audio. rewrite Hs. cbn [negb].
  cbv [try_except bind uuid4 create_task update_progress add_task get modify log ret raise
       call set_progress_tracker progress_tracker conversations session background_tasks
       uuid_calls default_status bg_task_id accepted admission_trace].
  rewrite Hf. cbv beta iota. rewrite lookup_insert_eq. cbv beta iota.
  destruct (process_audio_file X file) as [msg|path]; cbv beta iota.
  - rewrite lookup_insert_eq. cbn [app str]. rewrite !insert_insert_eq. reflexivity.
  - cbn [app]. rewrite !insert_insert_eq. reflexivity.
Qed.

(** A single upload of a supported file, served from admission to the end
    of its background task: the conversion fails, or the pipeline fails, or
    the task completes. *)
Lemma serve_upload_single_run X file current_user w :
  supported file = true ->
  progress_tracker w !! coming_id X w 0 = None ->
  let tid := coming_id X w 0 in
  let r := serve X (upload_single_audio X file current_user) w in
  (exists msg,
     process_audio_file X file = inl msg /\
     result r = inr (inl (HTTPException 500 msg)) /\
     trace r = admission_trace tid
                 ++ [Raised ProcessAudioFile msg; Marked tid 0 error (Some msg);
                     Responded (inl (HTTPException 500 msg))] /\
     progress_tracker (final r)
       = <[tid := mkTask 0 error (Some msg)]> (progress_tracker w) /\
     conversations (final r) = conversations w)
  \/ (exists path k s e,
        process_audio_file X file = inr path /\ In k failure_points /\
        result r = inr (inr (accepted tid)) /\
        trace r = admission_trace tid
                    ++ [Returned ProcessAudioFile; Dispatched tid;
                        Responded (inr (accepted tid))]
                    ++ firstn k (pipeline_trace tid)
                    ++ [Raised s (str e); Marked tid (-1) error (Some (str e))] /\
        progress_tracker (final r)
          = <[tid := mkTask (-1) error (Some (str e))]> (progress_tracker w) /\
        conversations (final r) = conversations w)
  \/ (exists path c,
        process_audio_file X file = inr path /\
        result r = inr (inr (accepted tid)) /\
        trace r = admission_trace tid
                    ++ [Returned ProcessAudioFile; Dispatched tid;
                        Responded (inr (accepted tid))]
                    ++ pipeline_trace tid /\
        progress_tracker (final r)
          = <[tid := mkTask 4 completed None]> (progress_tracker w) /\
        conversations (final r) = insert_rows X (conversations w) [c] /\
        new_user_id c = user_ident current_user /\ new_file_path c = path).
Proof.
  intros Hs Hf tid r. subst r.
  pose (w0 := mkWorld (progress_tracker w) (conversations w) [] [] (uuid_calls w)).
  pose proof (upload_single_audio_run X file current_user w0 Hs Hf) as Hup.
  change (coming_id X w0 0) with tid in Hup.
  destruct (serve X (upload_single_audio X file current_user) w) as [[res w'] tr] eqn:E.
  cbn [result final trace fst snd].
  unfold serve in E. unfold bind at 1, modify in E. cbv beta iota in E. fold w0 in E.
  unfold bind at 1, attempt in E. rewrite Hup in E. clear Hup.
  destruct (process_audio_file X file) as [msg|path] eqn:Hp; cbv beta iota in E.
  - left. exists msg. cbv [bind log ret] in E. cbn [app] in E.
    injection E as <- <- <-. cbn. auto.
  - right.
    subst w0.
    cbn [progress_tracker conversations session background_tasks uuid_calls app] in E.
    cbv [bind log get ret attempt background_tasks] in E.
    cbn [run_background_tasks bg_file_path bg_user_id bg_task_id] in E.
    cbv [bind ret] in E.
    match type of E with
    | context [transcribe_and_analyze X path ?uid tid ?w1] =>
        destruct (transcribe_and_analyze_run X path uid tid w1) as [Hok|Hko];
        [ cbn [progress_tracker]; rewrite lookup_insert_eq; eauto | | ];
        destruct (transcribe_and_analyze X path uid tid w1) as [[res1 w1'] tr1]
    end.
    + right. destruct Hok as (Hr & Ht & Hpt & c & Hc & Hu & Hfp).
      cbn [result final trace fst snd progress_tracker conversations session] in *.
      subst res1 tr1. exists path, c.
      injection E as <- <- <-.
      rewrite Hpt, Hc, insert_insert_eq. rewrite ?app_nil_r. auto 10.
    + left. destruct Hko as (k & s & e & Hk & Hr & Ht & Hpt & Hc).
      cbn [result final trace fst snd progress_tracker conversations session] in *.
      subst res1 tr1. exists path, k, s, e.
      injection E as <- <- <-.
      rewrite Hpt, Hc, insert_insert_eq. rewrite ?app_nil_r. auto 10.
Qed.

(** ** Orders of marks and calls *)

Ltac solve_only_after :=
  lazymatch goal with
  | |- only_after _ _ [] => exact I
  | |- only_after _ _ (_ :: _) =>
      split;
      [ cbn; intuition (try discriminate; try congruence)
      | first [ left; cbn; solve [repeat split; reflexivity]
              | right; solve_only_after ] ]
  end.

Ltac solve_always_followed :=
  lazymatch goal with
  | |- always_followed _ _ [] => exact I
  | |- always_followed _ _ (_ :: _) =>
      split;
      [ cbn; intuition (try discriminate; try congruence)
      | solve_always_followed ]
  end.

Ltac solve_orders :=
  repeat match goal with
         | |- _ /\ _ => split
         | |- only_after _ _ _ => solve_only_after
         | |- always_followed _ _ _ => solve_always_followed
         end.

(** The cases of [serve_upload_single_run], with the log as a list of
    events; [tac] is run in each. *)
Ltac serve_cases H tac :=
  let k := fresh "k" in
  let Hk := fresh "Hk" in
  let Htr := fresh "Htr" in
  destruct H as [(? & ? & ? & Htr & ? & ?)
                |[(? & k & ? & ? & ? & Hk & ? & Htr & ? & ?)
                 |(? & ? & ? & ? & Htr & ? & ? & ? & ?)]];
  [ rewrite ?Htr; unfold admission_trace; cbn [app]; tac
  | rewrite ?Htr; cbn [failure_points In] in Hk;
    repeat (destruct Hk as [<-|Hk];
            [unfold admission_trace, pipeline_trace; cbn [app firstn]; tac|]);
    destruct Hk
  | rewrite ?Htr; unfold admission_trace, pipeline_trace; cbn [app]; tac ].

(** The cases of [transcribe_and_analyze_run], likewise. *)
Ltac pipeline_cases H tac :=
  let k := fresh "k" in
  let Hk := fresh "Hk" in
  let Htr := fresh "Htr" in
  destruct H as [(? & Htr & ? & ? & ? & ? & ?)
                |(k & ? & ? & Hk & ? & Htr & ? & ?)];
  [ rewrite ?Htr; unfold pipeline_trace; tac
  | rewrite ?Htr; cbn [failure_points In] in Hk;
    repeat (destruct Hk as [<-|Hk];
            [unfold pipeline_trace; cbn [app firstn]; tac|]);
    destruct Hk ].

Lemma deaf_pipeline_trace :
  trace (transcribe_and_analyze Sample.deaf "/tmp/a.wav" 7 "t" Sample.registered)
  = [Marked "t" 1 running None; Marked "t" 2 running None;
     Invoked TranscribeAudio; Raised TranscribeAudio "model not loaded";
     Marked "t" (-1) error (Some "model not loaded")].
Proof. vm_compute. reflexivity. Qed.

Lemma deaf_trace :
  trace (serve Sample.deaf
           (upload_single_audio Sample.deaf (Sample.upload "a.wav" "audio/wav") Sample.alice)
           empty_world)
  = [Created "task-0"; Marked "task-0" 0 running None;
     Invoked ProcessAudioFile; Returned ProcessAudioFile; Dispatched "task-0";
     Responded (inr (accepted "task-0"));
     Marked "task-0" 1 running None; Marked "task-0" 2 running None;
     Invoked TranscribeAudio; Raised TranscribeAudio "model not loaded";
     Marked "task-0" (-1) error (Some "model not loaded")].
Proof. vm_compute. reflexivity. Qed.

Lemma happy_trace :
  trace (serve Sample.happy
           (upload_single_audio Sample.happy (Sample.upload "a.wav" "audio/wav") Sample.alice)
           empty_world)
  = [Created "task-0"; Marked "task-0" 0 running None;
     Invoked ProcessAudioFile; Returned ProcessAudioFile; Dispatched "task-0";
     Responded (inr (accepted "task-0"))] ++ pipeline_trace "task-0".
Proof. vm_compute. reflexivity. Qed.




(** ** A failing task *)

Ltac use_tracker :=
  match goal with
  | Hpt : progress_tracker (final _) = _ |- _ => rewrite Hpt, lookup_insert_eq
  end.

Ltac solve_forall :=
  repeat first
    [ apply List.Forall_nil
    | apply List.Forall_cons;
      [ cbn;
        first [ tauto
              | let Heq := fresh "Heq" in
                intros ? ? ? ? Heq; inversion Heq; split; reflexivity ]
      | ] ].

Ltac failed_task :=
  let Hin := fresh "Hin" in
  intros ? ? Hin; cbn [In] in Hin;
  repeat (destruct Hin as [Hin|Hin]; [try discriminate Hin|]);
  try contradiction;
  (injection Hin as <- <-;
   split; [use_tracker; eauto|];
   split; [cbn [after_failure]; solve_forall|];
   split; [assumption | solve_forall]).

Ltac failed_pipeline :=
  let Hin := fresh "Hin" in
  split;
  [ let He := fresh "He" in
    match goal with
    | Hres : result _ = _ |- _ => rewrite Hres
    end;
    intros ? He;
    first [ discriminate He
          | injection He as <-; eexists; cbn [In];
            repeat first [left; reflexivity | right] ]
  | intros ? ? Hin; cbn [In] in Hin;
    repeat (destruct Hin as [Hin|Hin]; [try discriminate Hin|]);
    try contradiction;
    (injection Hin as <- <-;
     split; [eauto|];
     split; [use_tracker; reflexivity|];
     split; [reflexivity|];
     split; [assumption | solve_forall]) ].

(** C2.  In every run of [transcribe_and_analyze] on a registered task: a
    run that ends with an exception has logged the step that raised it; and
    when a step raises -- a collaborator, a subscript, the validation or the
    commit -- with message [msg], the run ends with that exception, the
    task's status in the tracker is [error] with detail [msg], the only
    event after the failure is that update (no stage is marked any more),
    the table of conversations is what it was before the run, and no update
    of the run has status [completed]. *)
Theorem failed_task_is_error X (file_path : string) (user_id : Z) (task_id : string)
  (w : world) :
  is_Some (progress_tracker w !! task_id) ->
  let r := transcribe_and_analyze X file_path user_id task_id w in
  (forall e, result r = inl e -> exists s, In (Raised s (str e)) (trace r)) /\
  (forall s msg, In (Raised s msg) (trace r) ->
     (exists e, result r = inl e /\ str e = msg) /\
     progress_tracker (final r) !! task_id = Some (mkTask (-1) error (Some msg)) /\
     after_failure (trace r) = [Marked task_id (-1) error (Some msg)] /\
     conversations (final r) = conversations w /\
     Forall (fun ev => ~ marks_completed ev) (trace r)).
Proof.
  intros Hreg r. subst r.
  pose proof (transcribe_and_analyze_run X file_path user_id task_id w Hreg) as H.
  cbv zeta in H.
  pipeline_cases H failed_pipeline.
Qed.

Lemma failed_task_is_error_witness :
  let r := transcribe_and_analyze Sample.deaf "/tmp/a.wav" 7 "t" Sample.registered in
  (exists e, result r = inl e /\ str e = "model not loaded") /\
  progress_tracker (final r) !! "t" = Some (mkTask (-1) error (Some "model not loaded")) /\
  after_failure (trace r) = [Marked "t" (-1) error (Some "model not loaded")] /\
  conversations (final r) = [] /\
  Forall (fun ev => ~ marks_completed ev) (trace r).
Proof.
  apply (proj2 (failed_task_is_error Sample.deaf "/tmp/a.wav" 7 "t" Sample.registered
                  (ex_intro _ (mkTask 0 pending None) eq_refl))
           TranscribeAudio "model not loaded").
  rewrite deaf_pipeline_trace. cbn. tauto.
Defined.

(** The same in the life of a task admitted by a single upload, where
    [process_audio_file] is one of the steps that may raise. *)
Lemma failed_upload_is_error X (file : UploadFile) (current_user : User) (w : world) :
  supported file = true ->
  progress_tracker w !! coming_id X w 0 = None ->
  let tid := coming_id X w 0 in
  let r := serve X (upload_single_audio X file current_user) w in
  forall s msg, In (Raised s msg) (trace r) ->
    (exists n, progress_tracker (final r) !! tid = Some (mkTask n error (Some msg))) /\
    Forall (fun ev => forall t n st d, ev = Marked t n st d -> st = error /\ d = Some msg)
           (after_failure (trace r)) /\
    conversations (final r) = conversations w /\
    Forall (fun ev => ~ marks_completed ev) (trace r).
Proof.
  intros Hs Hf tid r. subst r.
  pose proof (serve_upload_single_run X file current_user w Hs Hf) as H.
  cbv zeta in H. fold tid in H.
  serve_cases H failed_task.
Qed.

(** ** The stages written *)

(** C3, as claimed, fails: when the transcription raises, the transition to
    [error] overwrites stage 2 with -1. *)
Lemma stage_discipline_fails :
  ~ stage_discipline
      (trace (serve Sample.deaf
                (upload_single_audio Sample.deaf (Sample.upload "a.wav" "audio/wav")
                   Sample.alice)
                empty_world)).
Proof.
  rewrite deaf_trace. intros [_ H]. cbn in H.
  destruct H as (_ & _ & _ & H & _). discriminate (H eq_refl).
Qed.

Ltac solve_stages :=
  split;
  [ cbn [forward_stages];
    first [ exists 1%nat; reflexivity | exists 2%nat; reflexivity
          | exists 3%nat; reflexivity | exists 4%nat; reflexivity
          | exists 5%nat; reflexivity ]
  | split;
    [ cbn; lia
    | split;
      [ cbn [error_stage_written];
        repeat split; try discriminate;
        try solve [ left; split; reflexivity
                  | right; eexists; repeat split; first [reflexivity | lia]
                  | solve_forall ]
      | cbn [updates all_updates]; rewrite ?String.eqb_refl; reflexivity ] ] ].

(** ** An accepted upload *)

(** C5, as claimed, fails: the handler calls [process_audio_file] before it
    answers. *)
Lemma responds_before_work_fails :
  ~ responds_before_work
      (trace (serve Sample.happy
                (upload_single_audio Sample.happy (Sample.upload "a.wav" "audio/wav")
                   Sample.alice)
                empty_world)).
Proof.
  rewrite happy_trace. intros H. cbn in H.
  do 2 (destruct H as [_ [H|H]]; [destruct H|]).
  destruct H as [Hn _]. apply Hn. exact I.
Qed.

(** C5, amended.  When a single upload of a supported file is accepted, the
    answer carries the id just drawn, and when the handler returns that id is
    registered, at stage 0 (the handler created the task and marked stage 0
    before it invoked anything).  The answer is given after
    [process_audio_file] has returned, and before anything of the background
    pipeline is invoked; the id stays registered to the end. *)
Theorem accepted_single_upload X (file : UploadFile) (current_user : User) (w : world) :
  supported file = true ->
  progress_tracker w !! coming_id X w 0 = None ->
  let tid := coming_id X w 0 in
  let tr := trace (serve X (upload_single_audio X file current_user) w) in
  (forall resp w1 tr1,
     upload_single_audio X file current_user w = (inr resp, w1, tr1) ->
     resp = accepted tid /\
     progress_tracker w1 !! tid = Some (mkTask 0 running None) /\
     tr1 = [Created tid; Marked tid 0 running None;
            Invoked ProcessAudioFile; Returned ProcessAudioFile; Dispatched tid]) /\
  only_after (marks tid 0) is_invocation tr /\
  only_after (eq (Returned ProcessAudioFile)) is_acceptance tr /\
  only_after is_acceptance is_pipeline_invocation tr /\
  is_Some (progress_tracker (final (serve X (upload_single_audio X file current_user) w))
             !! tid).
Proof.
  intros Hs Hf tid tr. subst tr. split.
  - intros resp w1 tr1. rewrite (upload_single_audio_run X file current_user w Hs Hf).
    fold tid. destruct (process_audio_file X file); intros [= <- <- <-].
    cbn [progress_tracker]. rewrite lookup_insert_eq. auto.
  - pose proof (serve_upload_single_run X file current_user w Hs Hf) as H.
    cbv zeta in H. fold tid in H.
    serve_cases H ltac:(solve_orders; use_tracker; eauto).
Qed.

Lemma accepted_single_upload_witness :
  let r := serve Sample.happy
             (upload_single_audio Sample.happy (Sample.upload "a.wav" "audio/wav")
                Sample.alice)
             empty_world in
  (forall resp w1 tr1,
     upload_single_audio Sample.happy (Sample.upload "a.wav" "audio/wav") Sample.alice
       empty_world = (inr resp, w1, tr1) ->
     resp = accepted "task-0" /\
     progress_tracker w1 !! "task-0" = Some (mkTask 0 running None) /\
     tr1 = [Created "task-0"; Marked "task-0" 0 running None;
            Invoked ProcessAudioFile; Returned ProcessAudioFile; Dispatched "task-0"]) /\
  only_after (marks "task-0" 0) is_invocation (trace r) /\
  only_after (eq (Returned ProcessAudioFile)) is_acceptance (trace r) /\
  only_after is_acceptance is_pipeline_invocation (trace r) /\
  is_Some (progress_tracker (final r) !! "task-0").
Proof.
  apply (accepted_single_upload Sample.happy (Sample.upload "a.wav" "audio/wav")
           Sample.alice empty_world); reflexivity.
Defined.

(** ** A batch *)

Lemma enqueue_files_run X current_user files : forall w responses,
  fresh_ids X w (length files) ->
  enqueue_files X files current_user responses w
  = (inr (responses ++ batch_entries X (uuid_calls w) files),
     mkWorld (batch_tracker X (uuid_calls w) files (progress_tracker w))
             (conversations w) (session w)
             (background_tasks w
                ++ batch_calls X (user_ident current_user) (uuid_calls w) files)
             (length files + uuid_calls w),
     batch_trace X (uuid_calls w) files).
Proof.
  induction files as [|file rest IH]; intros w responses Hfresh.
  - destruct w. cbn. rewrite !app_nil_r. reflexivity.
  - destruct w as [pt cs ss bg uc].
    destruct (Hfresh 0%nat) as [H0 Hd0]; [cbn; lia|].
    unfold coming_id in H0, Hd0. cbn in H0, Hd0.
    cbn [enqueue_files]. unfold bind at 1.
    unfold uuid4, bind, get, modify, ret. cbn [uuid_calls progress_tracker conversations
                                                 session background_tasks app].
    rewrite create_task_fresh by exact H0.
    unfold set_progress_tracker.
    cbn [progress_tracker conversations session background_tasks uuid_calls app].
    unfold try_except, call, add_task, bind, log, modify, ret, raise.
    assert (Hrest : forall t bg',
               fresh_ids X (mkWorld (<[uuid_stream X uc := t]> pt) cs ss bg' (S uc))
                 (length rest)).
    { intros t bg' i Hi. destruct (Hfresh (S i)) as [Hi0 Hid]; [cbn; lia|].
      unfold coming_id in *. cbn [uuid_calls progress_tracker] in *.
      replace (i + S uc)%nat with (S i + uc)%nat by lia. split.
      - rewrite lookup_insert_ne; [exact Hi0|].
        intros Heq. specialize (Hd0 (S i)). cbn in Hd0.
        assert (0 = S i)%nat; [apply Hd0; [lia | exact Heq] | discriminate].
      - intros j Hj Heq. replace (j + S uc)%nat with (S j + uc)%nat in Heq by lia.
        specialize (Hid (S j)). cbn [length] in Hid.
        assert (S i = S j); [apply Hid; [lia | exact Heq] | lia]. }
    destruct (process_audio_file X file) as [msg|path] eqn:Hp; cbv beta iota;
      cbn [progress_tracker conversations session background_tasks uuid_calls
           bg_task_id app str].
    + rewrite update_progress_registered
        by (cbn [progress_tracker]; rewrite lookup_insert_eq; eauto).
      unfold set_progress_tracker.
      cbn [progress_tracker conversations session background_tasks uuid_calls app].
      rewrite insert_insert_eq.
      rewrite (IH _ _ (Hrest _ _)).
      cbn [uuid_calls progress_tracker conversations session background_tasks
           batch_entries batch_tracker batch_calls batch_trace length app].
      unfold batch_entry, batch_task. rewrite Hp. cbn [app].
      rewrite <- !app_assoc. cbn [app].
      replace (length rest + S uc)%nat with (S (length rest + uc)) by lia. reflexivity.
    + rewrite (IH _ _ (Hrest _ _)).
      cbn [uuid_calls progress_tracker conversations session background_tasks
           batch_entries batch_tracker batch_calls batch_trace length app].
      unfold batch_entry, batch_task. rewrite Hp. cbn [app].
      rewrite <- !app_assoc. cbn [app].
      replace (length rest + S uc)%nat with (S (length rest + uc)) by lia. reflexivity.
Qed.

Lemma batch_entries_length X files : forall n, length (batch_entries X n files) = length files.
Proof. induction files as [|f rest IH]; intros n; cbn; [reflexivity | now rewrite IH]. Qed.

Lemma batch_entries_lookup X files : forall n i f,
  files !! i = Some f ->
  batch_entries X n files !! i = Some (batch_entry X f (uuid_stream X (i + n))).
Proof.
  induction files as [|f0 rest IH]; intros n i f Hi; [discriminate|].
  destruct i as [|i]; cbn in Hi.
  - injection Hi as <-. reflexivity.
  - replace (S i + n)%nat with (i + S n)%nat by lia. apply (IH (S n) i f Hi).
Qed.

Lemma batch_tracker_other X files : forall n (tasks : gmap string ProcessingTask) t,
  (forall j, (j < length files)%nat -> uuid_stream X (j + n) <> t) ->
  batch_tracker X n files tasks !! t = tasks !! t.
Proof.
  induction files as [|f rest IH]; intros n tasks t Hne; [reflexivity|].
  cbn [batch_tracker]. rewrite IH.
  - apply lookup_insert_ne. apply (Hne 0%nat). cbn. lia.
  - intros j Hj. rewrite Nat.add_succ_r. apply (Hne (S j)). cbn. lia.
Qed.

Lemma batch_tracker_lookup X files : forall n (tasks : gmap string ProcessingTask) i f,
  (forall i j, (i < length files)%nat -> (j < length files)%nat ->
               uuid_stream X (i + n) = uuid_stream X (j + n) -> i = j) ->
  files !! i = Some f ->
  batch_tracker X n files tasks !! uuid_stream X (i + n) = Some (batch_task X f).
Proof.
  induction files as [|f0 rest IH]; intros n tasks i f Hd Hi; [discriminate|].
  destruct i as [|i]; cbn in Hi; cbn [batch_tracker].
  - injection Hi as <-. rewrite batch_tracker_other.
    + apply lookup_insert_eq.
    + intros j Hj Heq. rewrite Nat.add_succ_r in Heq.
      assert (S j = 0)%nat; [apply Hd; cbn; [lia | lia | exact Heq] | discriminate].
  - replace (S i + n)%nat with (i + S n)%nat by lia. apply IH; [|exact Hi].
    intros a b Ha Hb Heq. rewrite !Nat.add_succ_r in Heq.
    assert (S a = S b); [apply Hd; cbn; [lia | lia | exact Heq] | lia].
Qed.

Lemma batch_calls_in X uid files : forall n i f path,
  files !! i = Some f -> process_audio_file X f = inr path ->
  In (mkBackgroundCall path uid (uuid_stream X (i + n))) (batch_calls X uid n files).
Proof.
  induction files as [|f0 rest IH]; intros n i f path Hi Hp; [discriminate|].
  destruct i as [|i]; cbn in Hi; cbn [batch_calls]; apply in_or_app.
  - injection Hi as <-. rewrite Hp. left. cbn. auto.
  - right. replace (S i + n)%nat with (i + S n)%nat by lia. eapply IH; eauto.
Qed.

Lemma batch_trace_dispatched_in X files : forall n i f path,
  files !! i = Some f -> process_audio_file X f = inr path ->
  In (Dispatched (uuid_stream X (i + n))) (batch_trace X n files).
Proof.
  induction files as [|f0 rest IH]; intros n i f path Hi Hp; [discriminate|].
  destruct i as [|i]; cbn in Hi; cbn [batch_trace].
  - injection Hi as <-. rewrite Hp. cbn. auto.
  - right. right. apply in_or_app. right.
    replace (S i + n)%nat with (i + S n)%nat by lia. eapply IH; eauto.
Qed.

Lemma batch_trace_dispatched X files : forall n t,
  In (Dispatched t) (batch_trace X n files) ->
  exists j f path, files !! j = Some f /\ t = uuid_stream X (j + n) /\
                   process_audio_file X f = inr path.
Proof.
  induction files as [|f0 rest IH]; intros n t Hin; [destruct Hin|].
  cbn [batch_trace] in Hin.
  destruct Hin as [Hin|[Hin|Hin]]; [discriminate Hin | discriminate Hin |].
  apply in_app_or in Hin as [Hin|Hin].
  - destruct (process_audio_file X f0) as [msg|path] eqn:Hp; cbn in Hin.
    + destruct Hin as [Hin|[Hin|[]]]; discriminate Hin.
    + destruct Hin as [Hin|[Hin|[]]]; [discriminate Hin|].
      injection Hin as <-. exists 0%nat, f0, path. auto.
  - destruct (IH (S n) t Hin) as (j & f & path & Hj & -> & Hp).
    exists (S j), f, path. rewrite Nat.add_succ_r. auto.
Qed.

(** C10.  A batch of at most 10 files, all of a supported type, whose ids
    are new: the handler answers 202 with one entry per file, in the order of
    the files.  A file that [process_audio_file] rejects has its own task
    marked [error] with the message, its entry carries the message and the
    task id, and nothing is dispatched for it; every file that is processed
    has its task registered at stage 0, an entry with its task id, and its
    background call queued and dispatched -- whatever happened to the other
    files.  The tasks that were in the tracker before are untouched. *)
Theorem batch_failures_are_local X (files : list UploadFile) (current_user : User)
  (w : world) :
  (length files <= 10)%nat ->
  forallb supported files = true ->
  fresh_ids X w (length files) ->
  exists responses w' tr,
    upload_batch_audio X files current_user w
    = (inr (JSONResponse 202 (JArr responses)), w', tr) /\
    length responses = length files /\
    (forall t, (forall i, (i < length files)%nat -> coming_id X w i <> t) ->
               progress_tracker w' !! t = progress_tracker w !! t) /\
    forall i file, files !! i = Some file ->
      let tid := coming_id X w i in
      match process_audio_file X file with
      | inr path =>
          responses !! i
          = Some (JObj [("message",
                         JStr ("File " ++ filename file ++ " uploaded successfully"));
                        ("task_id", JStr tid)]) /\
          progress_tracker w' !! tid = Some (mkTask 0 pending None) /\
          In (mkBackgroundCall path (user_ident current_user) tid) (background_tasks w') /\
          In (Dispatched tid) tr
      | inl msg =>
          responses !! i
          = Some (JObj [("message",
                         JStr ("Error processing " ++ filename file ++ ": " ++ msg));
                        ("task_id", JStr tid);
                        ("error", JStr msg)]) /\
          progress_tracker w' !! tid = Some (mkTask 0 error (Some msg)) /\
          ~ In (Dispatched tid) tr
      end.
Proof.
  intros Hlen Hvalid Hfresh.
  assert (Hd : forall i j, (i < length files)%nat -> (j < length files)%nat ->
               uuid_stream X (i + uuid_calls w) = uuid_stream X (j + uuid_calls w) -> i = j).
  { intros i j Hi Hj Heq. destruct (Hfresh i Hi) as [_ H]. exact (H j Hj Heq). }
  exists (batch_entries X (uuid_calls w) files).
  exists (mkWorld (batch_tracker X (uuid_calls w) files (progress_tracker w))
            (conversations w) (session w)
            (background_tasks w
               ++ batch_calls X (user_ident current_user) (uuid_calls w) files)
            (length files + uuid_calls w)).
  exists (batch_trace X (uuid_calls w) files).
  split; [|split; [|split]].
  - unfold upload_batch_audio.
    destruct (Nat.ltb_spec 10 (length files)) as [Hgt|_]; [lia|].
    unfold bind at 1. rewrite (validate_files_valid files w Hvalid).
    unfold bind at 1. rewrite (enqueue_files_run X current_user files w [] Hfresh).
    cbn [app]. unfold ret. rewrite app_nil_r. reflexivity.
  - apply batch_entries_length.
  - intros t Ht. cbn [progress_tracker]. apply batch_tracker_other. exact Ht.
  - intros i file Hi tid. subst tid. unfold coming_id.
    cbn [progress_tracker background_tasks].
    pose proof (batch_entries_lookup X files (uuid_calls w) i file Hi) as He.
    pose proof (batch_tracker_lookup X files (uuid_calls w) (progress_tracker w) i file Hd Hi)
      as Ht.
    unfold batch_entry in He. unfold batch_task in Ht.
    destruct (process_audio_file X file) as [msg|path] eqn:Hp.
    + split; [exact He|]. split; [exact Ht|].
      intros Hin. apply batch_trace_dispatched in Hin as (j & f & path & Hj & Heq & Hpj).
      assert (i = j) as <-.
      { apply Hd; [apply lookup_lt_Some in Hi | apply lookup_lt_Some in Hj |]; auto. }
      congruence.
    + split; [exact He|]. split; [exact Ht|]. split.
      * apply in_or_app. right. eapply batch_calls_in; eauto.
      * eapply batch_trace_dispatched_in; eauto.
Qed.

Lemma three_fresh : fresh_ids Sample.happy empty_world (length Sample.three).
Proof.
  intros i Hi. split; [apply lookup_empty|].
  intros j Hj Heq. cbn in Hi, Hj.
  destruct i as [|[|[|i]]]; destruct j as [|[|[|j]]];
    try lia; try reflexivity; vm_compute in Heq; discriminate Heq.
Defined.

(** Three files, the second of which cannot be decoded. *)
Lemma batch_failures_are_local_witness :
  exists responses w' tr,
    upload_batch_audio Sample.happy Sample.three Sample.alice empty_world
    = (inr (JSONResponse 202 (JArr responses)), w', tr) /\
    length responses = length Sample.three /\
    (forall t, (forall i, (i < length Sample.three)%nat ->
                          coming_id Sample.happy empty_world i <> t) ->
               progress_tracker w' !! t = progress_tracker empty_world !! t) /\
    forall i file, Sample.three !! i = Some file ->
      let tid := coming_id Sample.happy empty_world i in
      match process_audio_file Sample.happy file with
      | inr path =>
          responses !! i
          = Some (JObj [("message",
                         JStr ("File " ++ filename file ++ " uploaded successfully"));
                        ("task_id", JStr tid)]) /\
          progress_tracker w' !! tid = Some (mkTask 0 pending None) /\
          In (mkBackgroundCall path (user_ident Sample.alice) tid) (background_tasks w') /\
          In (Dispatched tid) tr
      | inl msg =>
          responses !! i
          = Some (JObj [("message",
                         JStr ("Error processing " ++ filename file ++ ": " ++ msg));
                        ("task_id", JStr tid);
                        ("error", JStr msg)]) /\
          progress_tracker w' !! tid = Some (mkTask 0 error (Some msg)) /\
          ~ In (Dispatched tid) tr
      end.
Proof.
  apply (batch_failures_are_local Sample.happy Sample.three Sample.alice empty_world).
  - cbn. lia.
  - reflexivity.
  - exact three_fresh.
Defined.

(** * Further properties of the handlers *)

(** ** Dicts *)

Lemma assoc_assoc_set_eq k v kvs : assoc k (assoc_set k v kvs) = Some v.
Proof.
  induction kvs as [|[k' v'] kvs IH]; cbn.
  - now rewrite String.eqb_refl.
  - destruct (String.eqb k' k) eqn:E; cbn; rewrite E; [reflexivity | exact IH].
Qed.

Lemma assoc_assoc_set_ne k k' v kvs :
  k' <> k -> assoc k' (assoc_set k v kvs) = assoc k' kvs.
Proof.
  intros Hne. induction kvs as [|[k0 v0] kvs IH]; cbn.
  - destruct (String.eqb k k') eqn:E; [|reflexivity].
    apply String.eqb_eq in E. congruence.
  - destruct (String.eqb k0 k) eqn:E; cbn.
    + apply String.eqb_eq in E. subst k0.
      destruct (String.eqb k k') eqn:E'; [|reflexivity].
      apply String.eqb_eq in E'. congruence.
    + now rewrite IH.
Qed.

Lemma getitem_setitem_eq d k v d' : setitem d k v = inr d' -> getitem d' k = inr v.
Proof.
  destruct d; try discriminate. intros [= <-]. cbn. now rewrite assoc_assoc_set_eq.
Qed.

Lemma getitem_setitem_ne d k v d' k' :
  setitem d k v = inr d' -> k' <> k -> getitem d' k' = getitem d k'.
Proof.
  destruct d; try discriminate. intros [= <-] Hne. cbn.
  now rewrite assoc_assoc_set_ne.
Qed.

Lemma setitem_is_dict d k v d' : setitem d k v = inr d' -> is_optional_dict d' = true.
Proof. destruct d; try discriminate. intros [= <-]. reflexivity. Qed.

Lemma getitem_dict_setitem d k v k' v' :
  getitem d k = inr v -> exists d', setitem d k' v' = inr d'.
Proof.
  destruct d; cbn; intros H; try discriminate H; eauto.
Qed.

(** ** The pipeline, leaf by leaf *)

(** The outcomes of a run of [transcribe_and_analyze] from a world in which
    the task is registered, one goal per way it can end; [E] is the equation
    of the run. *)
Ltac pipeline_leaves Hreg E :=
  cbv [transcribe_and_analyze try_except bind update_progress get modify log ret raise
       call eval db_add db_commit set_progress_tracker progress_tracker conversations
       session background_tasks uuid_calls default_status] in E;
  rewrite Hreg in E; cbv beta iota in E;
  repeat run_step E;
  cbn [app] in E; injection E as <- <- <-.

Ltac no_validation_failure :=
  match goal with
  | Ht : setitem _ "speakers" _ = inr ?t, Ha : setitem _ "turn_taking" _ = inr ?a,
    Hv : new_ConversationCreate _ _ ?t ?a = inl _ |- _ =>
      unfold new_ConversationCreate in Hv;
      rewrite (setitem_is_dict _ _ _ _ Ht), (setitem_is_dict _ _ _ _ Ha) in Hv;
      discriminate Hv
  end.

(** X1.  When a run of [transcribe_and_analyze] on a registered task
    returns, the record it has added to the session and committed is made of
    the caller's user id and file path, of the transcriber's answer with the
    key ["speakers"] set to the identified speakers (every other key as the
    transcriber gave it), and of the classifier's answer -- to that very
    transcript -- with the key ["turn_taking"] set to the turn analysis of
    the transcript's segments (every other key as the classifier gave it);
    and the task reads stage 4, [completed]. *)
Theorem completed_record_content X (file_path : string) (user_id : Z) (task_id : string)
  (w : world) :
  is_Some (progress_tracker w !! task_id) ->
  let r := transcribe_and_analyze X file_path user_id task_id w in
  result r = inr tt ->
  exists transcript segments speakers turn_analysis analysis stored_t stored_a,
    transcribe_audio X file_path = inr transcript /\
    getitem transcript "segments" = inr segments /\
    identify_speakers X segments = inr speakers /\
    analyze_turn_taking X speakers segments = inr turn_analysis /\
    classify_dialogue X stored_t = inr analysis /\
    getitem stored_t "speakers" = inr speakers /\
    (forall k, k <> "speakers" -> getitem stored_t k = getitem transcript k) /\
    getitem stored_a "turn_taking" = inr turn_analysis /\
    (forall k, k <> "turn_taking" -> getitem stored_a k = getitem analysis k) /\
    conversations (final r)
    = insert_rows X (conversations w)
        (session w ++ [mkConversationCreate user_id file_path stored_t stored_a]) /\
    progress_tracker (final r) !! task_id = Some (mkTask 4 completed None).
Proof.
  intros [t0 Hreg] r Hres. subst r.
  destruct (transcribe_and_analyze X file_path user_id task_id w) as [[res w'] tr] eqn:E.
  cbn [result fst] in Hres.
  destruct w as [pt cs ss bg uc]. cbn [progress_tracker conversations session] in *.
  pipeline_leaves Hreg E; try discriminate Hres.
  match goal with
  | H1 : transcribe_audio X _ = inr ?t,
    H2 : getitem ?t "segments" = inr ?segs,
    H3 : identify_speakers X ?segs = inr ?sp,
    H4 : setitem ?t "speakers" ?sp = inr ?t',
    H5 : getitem ?t' "segments" = inr ?segs',
    H6 : analyze_turn_taking X ?sp ?segs' = inr ?ta,
    H7 : classify_dialogue X ?t' = inr ?a,
    H8 : setitem ?a "turn_taking" ?ta = inr ?a',
    H9 : new_ConversationCreate _ _ ?t' ?a' = inr ?c |- _ =>
      rewrite (getitem_setitem_ne _ _ _ _ "segments" H4) in H5 by discriminate;
      rewrite H2 in H5; injection H5 as <-;
      unfold new_ConversationCreate in H9;
      rewrite (setitem_is_dict _ _ _ _ H4), (setitem_is_dict _ _ _ _ H8) in H9;
      injection H9 as <-;
      exists t, segs, sp, ta, a, t', a';
      repeat split; try assumption;
      [ exact (getitem_setitem_eq _ _ _ _ H4)
      | intros k Hk; exact (getitem_setitem_ne _ _ _ _ k H4 Hk)
      | exact (getitem_setitem_eq _ _ _ _ H8)
      | intros k Hk; exact (getitem_setitem_ne _ _ _ _ k H8 Hk)
      | cbn [final fst snd progress_tracker]; apply lookup_insert_eq ]
  end.
Qed.

Lemma completed_record_content_witness :
  let r := transcribe_and_analyze Sample.happy "/tmp/a.wav" 7 "t" Sample.registered in
  exists transcript segments speakers turn_analysis analysis stored_t stored_a,
    transcribe_audio Sample.happy "/tmp/a.wav" = inr transcript /\
    getitem transcript "segments" = inr segments /\
    identify_speakers Sample.happy segments = inr speakers /\
    analyze_turn_taking Sample.happy speakers segments = inr turn_analysis /\
    classify_dialogue Sample.happy stored_t = inr analysis /\
    getitem stored_t "speakers" = inr speakers /\
    (forall k, k <> "speakers" -> getitem stored_t k = getitem transcript k) /\
    getitem stored_a "turn_taking" = inr turn_analysis /\
    (forall k, k <> "turn_taking" -> getitem stored_a k = getitem analysis k) /\
    conversations (final r)
    = insert_rows Sample.happy []
        ([] ++ [mkConversationCreate 7 "/tmp/a.wav" stored_t stored_a]) /\
    progress_tracker (final r) !! "t" = Some (mkTask 4 completed None).
Proof.
  apply (completed_record_content Sample.happy "/tmp/a.wav" 7 "t" Sample.registered
           (ex_intro _ (mkTask 0 pending None) eq_refl)).
  vm_compute. reflexivity.
Defined.

Ltac raised_in_leaf Hin :=
  cbn [In] in Hin;
  repeat (destruct Hin as [Hin|Hin]; [try discriminate Hin|]);
  try contradiction.

(** X2.  No run of [transcribe_and_analyze] on a registered task fails at
    the validation of [ConversationCreate]: when the run gets there, the
    transcript and the analysis are dicts, for a key of each has just been
    assigned. *)
Theorem validation_never_fails X (file_path : string) (user_id : Z) (task_id : string)
  (w : world) :
  is_Some (progress_tracker w !! task_id) ->
  forall msg,
    ~ In (Raised Validation msg)
         (trace (transcribe_and_analyze X file_path user_id task_id w)).
Proof.
  intros [t0 Hreg] msg Hin.
  destruct (transcribe_and_analyze X file_path user_id task_id w) as [[res w'] tr] eqn:E.
  cbn [trace snd] in Hin.
  destruct w as [pt cs ss bg uc]. cbn [progress_tracker conversations session] in *.
  pipeline_leaves Hreg E; raised_in_leaf Hin; try discriminate Hin.
  no_validation_failure.
Qed.

(** A run that gets to the validation, passes it and goes on to commit. *)
Lemma validation_never_fails_witness :
  In (Invoked DbCommit)
     (trace (transcribe_and_analyze Sample.happy "/tmp/a.wav" 7 "t" Sample.registered)) /\
  ~ In (Raised Validation "validation error for ConversationCreate")
       (trace (transcribe_and_analyze Sample.happy "/tmp/a.wav" 7 "t" Sample.registered)).
Proof.
  split.
  - vm_compute. tauto.
  - apply (validation_never_fails Sample.happy "/tmp/a.wav" 7 "t" Sample.registered).
    exists (mkTask 0 pending None). reflexivity.
Defined.

Ltac shape_contradiction Ht Hc :=
  match goal with
  | H1 : transcribe_audio _ _ = inr ?t, H2 : getitem ?t "segments" = inl _ |- _ =>
      destruct (Ht _ _ H1) as (? & ? & -> & Hs); cbn in H2; rewrite Hs in H2;
      discriminate H2
  | H1 : transcribe_audio _ _ = inr ?t, H2 : setitem ?t "speakers" _ = inl _ |- _ =>
      destruct (Ht _ _ H1) as (? & ? & -> & Hs); discriminate H2
  | H1 : getitem ?t "segments" = inr _, H4 : setitem ?t "speakers" _ = inr ?t',
    H5 : getitem ?t' "segments" = inl _ |- _ =>
      rewrite (getitem_setitem_ne _ _ _ _ "segments" H4) in H5 by discriminate;
      congruence
  | H1 : classify_dialogue _ _ = inr ?a, H2 : setitem ?a "turn_taking" _ = inl _ |- _ =>
      destruct (Hc _ _ H1) as (? & ->); discriminate H2
  end.

(** X3.  When the transcriber answers dicts that have the key ["segments"]
    and the classifier answers dicts, a run of [transcribe_and_analyze] on a
    registered task can only fail in a collaborator: every failure logged is
    the failure of a call, none of a subscript or of the validation. *)
Theorem only_collaborators_fail X (file_path : string) (user_id : Z) (task_id : string)
  (w : world) :
  (forall p t, transcribe_audio X p = inr t -> has_segments t) ->
  (forall t a, classify_dialogue X t = inr a -> is_dict a) ->
  is_Some (progress_tracker w !! task_id) ->
  forall s msg,
    In (Raised s msg) (trace (transcribe_and_analyze X file_path user_id task_id w)) ->
    is_collaborator s.
Proof.
  intros Ht Hc [t0 Hreg] s msg Hin.
  destruct (transcribe_and_analyze X file_path user_id task_id w) as [[res w'] tr] eqn:E.
  cbn [trace snd] in Hin.
  destruct w as [pt cs ss bg uc]. cbn [progress_tracker conversations session] in *.
  pipeline_leaves Hreg E; raised_in_leaf Hin;
    try (injection Hin as <- <-);
    first [ exact I | no_validation_failure | shape_contradiction Ht Hc ].
Qed.

Lemma only_collaborators_fail_witness :
  is_collaborator DbCommit.
Proof.
  apply (only_collaborators_fail Sample.offline "/tmp/a.wav" 7 "t" Sample.registered)
    with (msg := "database is locked").
  - intros p t [= <-]. eexists _, _. split; reflexivity.
  - intros t a [= <-]. eexists. reflexivity.
  - exists (mkTask 0 pending None). reflexivity.
  - vm_compute. tauto.
Defined.

(** X4.  A run of [transcribe_and_analyze] on a registered task calls its
    collaborators in one order -- transcription, speaker identification,
    turn-taking analysis, classification, commit -- each at most once, and
    stops calling at the first failure: nothing is retried and nothing is
    skipped.  The calls made are a beginning of that order, all five when
    the run returns; each collaborator is called only after the one before
    it has returned; nothing is called after the first failure logged; and
    a run that has logged a failure does not return. *)
Theorem collaborators_called_in_order X (file_path : string) (user_id : Z)
  (task_id : string) (w : world) :
  is_Some (progress_tracker w !! task_id) ->
  let r := transcribe_and_analyze X file_path user_id task_id w in
  (exists n, invocations (trace r) = firstn n pipeline_steps /\
             (result r = inr tt -> n = 5%nat)) /\
  (only_after (eq (Returned TranscribeAudio)) (eq (Invoked IdentifySpeakers)) (trace r) /\
   only_after (eq (Returned IdentifySpeakers)) (eq (Invoked AnalyzeTurnTaking)) (trace r) /\
   only_after (eq (Returned AnalyzeTurnTaking)) (eq (Invoked ClassifyDialogue)) (trace r) /\
   only_after (eq (Returned ClassifyDialogue)) (eq (Invoked DbCommit)) (trace r)) /\
  invocations (after_failure (trace r)) = [] /\
  (forall s msg, In (Raised s msg) (trace r) -> result r <> inr tt).
Proof.
  intros Hreg r. subst r.
  pose proof (transcribe_and_analyze_run X file_path user_id task_id w Hreg) as H.
  cbv zeta in H.
  destruct H as [(Hres & Htr & _)|(k & s & e & Hk & Hres & Htr & _)]; rewrite Htr, Hres.
  - unfold pipeline_trace. split; [|split; [|split]].
    + exists 5%nat. split; reflexivity.
    + solve_orders.
    + reflexivity.
    + intros s msg Hin. raised_in_leaf Hin.
  - cbn [failure_points In] in Hk.
    repeat (destruct Hk as [<-|Hk];
            [unfold pipeline_trace; cbn [app firstn];
             split; [|split; [|split]];
             [ cbn [invocations];
               first [ exists 1%nat; split; [reflexivity | discriminate]
                     | exists 2%nat; split; [reflexivity | discriminate]
                     | exists 3%nat; split; [reflexivity | discriminate]
                     | exists 4%nat; split; [reflexivity | discriminate]
                     | exists 5%nat; split; [reflexivity | discriminate] ]
             | solve_orders
             | reflexivity
             | discriminate ]|]).
    destruct Hk.
Qed.

(** The classifier fails: four collaborators are called, the commit is not. *)
Lemma collaborators_called_in_order_witness :
  let r := transcribe_and_analyze Sample.undecided "/tmp/a.wav" 7 "t" Sample.registered in
  invocations (trace r)
  = [TranscribeAudio; IdentifySpeakers; AnalyzeTurnTaking; ClassifyDialogue] /\
  (exists n, invocations (trace r) = firstn n pipeline_steps /\
             (result r = inr tt -> n = 5%nat)) /\
  (only_after (eq (Returned TranscribeAudio)) (eq (Invoked IdentifySpeakers)) (trace r) /\
   only_after (eq (Returned IdentifySpeakers)) (eq (Invoked AnalyzeTurnTaking)) (trace r) /\
   only_after (eq (Returned AnalyzeTurnTaking)) (eq (Invoked ClassifyDialogue)) (trace r) /\
   only_after (eq (Returned ClassifyDialogue)) (eq (Invoked DbCommit)) (trace r)) /\
  invocations (after_failure (trace r)) = [] /\
  (forall s msg, In (Raised s msg) (trace r) -> result r <> inr tt).
Proof.
  split; [vm_compute; reflexivity|].
  apply (collaborators_called_in_order Sample.undecided "/tmp/a.wav" 7 "t" Sample.registered).
  exists (mkTask 0 pending None). reflexivity.
Defined.

(** ** Admission, further *)

(** X5.  When [process_audio_file] raises in a single upload, the caller is
    answered a 500 that carries the message and no task id, although an id
    was drawn and its task registered: the task is left at stage 0 with
    status [error] and the message; nothing is queued and no row is
    written. *)
Theorem single_upload_processing_failure X (file : UploadFile) (current_user : User)
  (w : world) (msg : string) :
  supported file = true ->
  progress_tracker w !! coming_id X w 0 = None ->
  process_audio_file X file = inl msg ->
  let r := upload_single_audio X file current_user w in
  result r = inl (HTTPException 500 msg) /\
  progress_tracker (final r) !! coming_id X w 0 = Some (mkTask 0 error (Some msg)) /\
  background_tasks (final r) = background_tasks w /\
  conversations (final r) = conversations w /\
  uuid_calls (final r) = S (uuid_calls w) /\
  ~ In (Dispatched (coming_id X w 0)) (trace r).
Proof.
  intros Hs Hf Hp r. subst r.
  rewrite (upload_single_audio_run X file current_user w Hs Hf). cbv zeta. rewrite Hp.
  cbn [result final trace fst snd progress_tracker background_tasks conversations
       uuid_calls].
  rewrite lookup_insert_eq. repeat split.
  unfold admission_trace. cbn [app In]. intros H.
  repeat (destruct H as [H|H]; [discriminate H|]). exact H.
Qed.

Lemma single_upload_processing_failure_witness :
  let r := upload_single_audio Sample.happy (Sample.upload "broken.wav" "audio/wav")
             Sample.alice empty_world in
  result r = inl (HTTPException 500 "cannot decode broken.wav") /\
  progress_tracker (final r) !! coming_id Sample.happy empty_world 0
  = Some (mkTask 0 error (Some "cannot decode broken.wav")) /\
  background_tasks (final r) = [] /\
  conversations (final r) = [] /\
  uuid_calls (final r) = 1%nat /\
  ~ In (Dispatched (coming_id Sample.happy empty_world 0)) (trace r).
Proof.
  apply (single_upload_processing_failure Sample.happy
           (Sample.upload "broken.wav" "audio/wav") Sample.alice empty_world
           "cannot decode broken.wav"); reflexivity.
Defined.

Lemma validate_files_first_invalid pre f post w :
  forallb supported pre = true -> supported f = false ->
  validate_files (pre ++ f :: post) w
  = (inl (HTTPException 400 ("Invalid file format for " ++ filename f)), w, []).
Proof.
  intros Hpre Hf. induction pre as [|g pre IH]; cbn.
  - rewrite Hf. reflexivity.
  - cbn in Hpre. apply andb_true_iff in Hpre as [Hg Hpre]. rewrite Hg. cbn. exact (IH Hpre).
Qed.

(** X6.  A batch of at most 10 files with an unsupported member is refused
    with the name of the first such file, in the order of the batch; the
    files before it are not processed either. *)
Theorem batch_reports_first_invalid X (pre post : list UploadFile) (f : UploadFile)
  (current_user : User) (w : world) :
  (length (pre ++ f :: post) <= 10)%nat ->
  forallb supported pre = true ->
  supported f = false ->
  upload_batch_audio X (pre ++ f :: post) current_user w
  = (inl (HTTPException 400 ("Invalid file format for " ++ filename f)), w, []).
Proof.
  intros Hlen Hpre Hf. unfold upload_batch_audio.
  destruct (Nat.ltb_spec 10 (length (pre ++ f :: post))) as [Hgt|_]; [lia|].
  unfold bind at 1. rewrite (validate_files_first_invalid pre f post w Hpre Hf).
  reflexivity.
Qed.

Lemma batch_reports_first_invalid_witness :
  upload_batch_audio Sample.happy Sample.mixed Sample.alice empty_world
  = (inl (HTTPException 400 "Invalid file format for notes.txt"), empty_world, []).
Proof.
  apply (batch_reports_first_invalid Sample.happy
           [Sample.upload "a.wav" "audio/wav"] [Sample.upload "c.m4a" "audio/m4a"]
           (Sample.upload "notes.txt" "text/plain") Sample.alice empty_world).
  - cbn. lia.
  - reflexivity.
  - reflexivity.
Defined.

(** X7.  An admission without admission error, with new ids, is never
    answered a 400: a single upload is accepted or, when the processing
    raises, answered a 500; a batch is always accepted with a 202, even when
    the processing of every file raises. *)
Theorem valid_admission_outcomes X (a : admission) (current_user : User) (w : world) :
  admission_error a = false ->
  fresh_ids X w (admission_size a) ->
  match a with
  | Single file =>
      result (submit X a current_user w) = inr (accepted (coming_id X w 0)) \/
      exists msg, process_audio_file X file = inl msg /\
                  result (submit X a current_user w) = inl (HTTPException 500 msg)
  | Batch files =>
      exists responses,
        result (submit X a current_user w) = inr (JSONResponse 202 (JArr responses)) /\
        length responses = length files
  end.
Proof.
  destruct a as [file|files]; cbn [admission_error admission_size submit]; intros He Hfresh.
  - apply negb_false_iff in He.
    destruct (Hfresh 0%nat) as [Hf _]; [lia|].
    rewrite (upload_single_audio_run X file current_user w He Hf). cbv zeta.
    destruct (process_audio_file X file) as [msg|path]; cbn [result fst]; eauto.
  - apply orb_false_iff in He as [Hlen Hall].
    assert (Hvalid : forallb supported files = true).
    { clear -Hall. induction files as [|f files IH]; [reflexivity|].
      cbn in *. apply orb_false_iff in Hall as [Hf Hall].
      apply negb_false_iff in Hf. rewrite Hf. cbn. exact (IH Hall). }
    exists (batch_entries X (uuid_calls w) files). split; [|apply batch_entries_length].
    unfold upload_batch_audio. rewrite Hlen.
    unfold bind at 1. rewrite (validate_files_valid files w Hvalid).
    unfold bind at 1. rewrite (enqueue_files_run X current_user files w [] Hfresh).
    reflexivity.
Qed.

Lemma valid_admission_outcomes_witness :
  exists responses,
    result (submit Sample.happy (Batch Sample.three) Sample.alice empty_world)
    = inr (JSONResponse 202 (JArr responses)) /\
    length responses = 3%nat.
Proof.
  apply (valid_admission_outcomes Sample.happy (Batch Sample.three) Sample.alice
           empty_world).
  - reflexivity.
  - exact three_fresh.
Defined.

Lemma upload_batch_audio_run X files current_user w :
  (length files <= 10)%nat ->
  forallb supported files = true ->
  fresh_ids X w (length files) ->
  upload_batch_audio X files current_user w
  = (inr (JSONResponse 202 (JArr (batch_entries X (uuid_calls w) files))),
     mkWorld (batch_tracker X (uuid_calls w) files (progress_tracker w))
             (conversations w) (session w)
             (background_tasks w
                ++ batch_calls X (user_ident current_user) (uuid_calls w) files)
             (length files + uuid_calls w),
     batch_trace X (uuid_calls w) files).
Proof.
  intros Hlen Hvalid Hfresh. unfold upload_batch_audio.
  destruct (Nat.ltb_spec 10 (length files)) as [Hgt|_]; [lia|].
  unfold bind at 1. rewrite (validate_files_valid files w Hvalid).
  unfold bind at 1. rewrite (enqueue_files_run X current_user files w [] Hfresh).
  cbn [app]. unfold ret. rewrite app_nil_r. reflexivity.
Qed.

Lemma batch_calls_zip X uid files : forall n m,
  batch_calls X uid (n + m) files
  = omap (processed_call X uid)
      (zip files (map (fun i => uuid_stream X (i + m)) (seq n (length files)))).
Proof.
  induction files as [|f files IH]; intros n m; [reflexivity|].
  cbn [batch_calls]. change (S (n + m)) with (S n + m)%nat. rewrite (IH (S n) m).
  match goal with
  | |- _ ++ ?rest = _ =>
      transitivity (match processed_call X uid (f, uuid_stream X (n + m)) with
                    | Some c => c :: rest
                    | None => rest
                    end); [|reflexivity]
  end.
  assert (Hc : processed_call X uid (f, uuid_stream X (n + m))
               = match process_audio_file X f with
                 | inr path => Some (mkBackgroundCall path uid (uuid_stream X (n + m)))
                 | inl _ => None
                 end) by reflexivity.
  rewrite Hc. destruct (process_audio_file X f); reflexivity.
Qed.

(** X8.  A batch of at most 10 supported files with new ids draws one id per
    file, in order, and appends to the queue of background calls one call for
    each file whose processing succeeds, in the order of the files, with the
    path the processing returned, the caller's user id and the file's task
    id; it writes no row. *)
Theorem batch_dispatch_order X (files : list UploadFile) (current_user : User)
  (w : world) :
  (length files <= 10)%nat ->
  forallb supported files = true ->
  fresh_ids X w (length files) ->
  let r := upload_batch_audio X files current_user w in
  background_tasks (final r)
  = background_tasks w
      ++ omap (processed_call X (user_ident current_user))
           (zip files (map (coming_id X w) (seq 0 (length files)))) /\
  uuid_calls (final r) = (length files + uuid_calls w)%nat /\
  conversations (final r) = conversations w.
Proof.
  intros Hlen Hvalid Hfresh r. subst r.
  rewrite (upload_batch_audio_run X files current_user w Hlen Hvalid Hfresh).
  cbn [final fst snd background_tasks uuid_calls conversations].
  split; [|split; reflexivity].
  pose proof (batch_calls_zip X (user_ident current_user) files 0 (uuid_calls w)) as Hz.
  cbn [Nat.add] in Hz. rewrite Hz. reflexivity.
Qed.

Lemma batch_dispatch_order_witness :
  let r := upload_batch_audio Sample.happy Sample.three Sample.alice empty_world in
  background_tasks (final r)
  = [] ++ omap (processed_call Sample.happy 7)
            (zip Sample.three (map (coming_id Sample.happy empty_world) (seq 0 3))) /\
  uuid_calls (final r) = (3 + 0)%nat /\
  conversations (final r) = [].
Proof.
  apply (batch_dispatch_order Sample.happy Sample.three Sample.alice empty_world).
  - cbn. lia.
  - reflexivity.
  - exact three_fresh.
Defined.

(** ** Export, further *)

(** X9.  An export reads only: whatever the record id, the format and the
    caller, and whether it answers or raises, the state of the process after
    it is the state before, and it calls no collaborator. *)
Theorem export_is_read_only X (conversation_id : Z) (format : string)
  (current_user : User) (w : world) :
  final (export_conversation X conversation_id format current_user w) = w /\
  trace (export_conversation X conversation_id format current_user w) = [].
Proof.
  destruct (query_first (conversations w) conversation_id (user_ident current_user))
    as [c|] eqn:Hq.
  - rewrite (export_found _ _ _ _ _ _ Hq).
    destruct (negb (in_list format export_formats)); [split; reflexivity|].
    destruct (String.eqb format "json"); [split; reflexivity|].
    destruct (String.eqb format "csv"); unfold bind, lift.
    + destruct (export_csv X c); split; reflexivity.
    + destruct (export_txt X conversation_id c); split; reflexivity.
  - destruct (storable (conversations w) conversation_id) eqn:Hs.
    + rewrite (export_not_found _ _ _ _ _ Hs Hq). split; reflexivity.
    + rewrite (export_unstorable _ _ _ _ _ Hs). split; reflexivity.
Qed.

(** X10.  The csv export of a stored record whose transcript has no segment
    is the header line alone; the analysis is not read, so it may be
    anything, [null] included. *)
Theorem csv_export_of_empty_transcript X (conversation_id : Z) (current_user : User)
  (w : world) (c : Conversation) :
  query_first (conversations w) conversation_id (user_ident current_user) = Some c ->
  transcript_segments c = inr [] ->
  export_conversation X conversation_id "csv" current_user w
  = (inr (Response csv_header "text/csv" (attachment conversation_id "csv")), w, []).
Proof.
  intros Hq Hsegs. rewrite (export_found _ _ _ _ _ _ Hq).
  cbn [in_list export_formats existsb negb].
  change (String.eqb "csv" "json") with false.
  change (String.eqb "csv" "csv") with true. cbn [orb negb].
  unfold bind, lift, export_csv.
  unfold transcript_segments in Hsegs. unfold ebind in *.
  destruct (getitem (transcript c) "segments") as [|t]; [discriminate|].
  rewrite Hsegs. reflexivity.
Qed.

Lemma csv_export_of_empty_transcript_witness :
  export_conversation Sample.happy 2 "csv" Sample.alice (Sample.stored Sample.silent)
  = (inr (Response csv_header "text/csv" (attachment 2 "csv")),
     Sample.stored Sample.silent, []).
Proof.
  apply (csv_export_of_empty_transcript Sample.happy 2 Sample.alice
           (Sample.stored Sample.silent) Sample.silent); reflexivity.
Defined.

Lemma next_classification_app segments extra segment cl :
  next_classification segments segment = inr cl ->
  next_classification (segments ++ extra) segment = inr cl.
Proof.
  induction segments as [|a segments IH]; cbn; [discriminate|].
  unfold ebind.
  destruct (getitem a "start") as [|v]; [discriminate|].
  destruct (getitem segment "start") as [|v']; [discriminate|].
  destruct (py_eq v v'); [auto | exact IH].
Qed.

Lemma csv_row_more_analysis X c c' segments extra segment csv_content csv_content' :
  analysis_segments c = inr segments ->
  analysis_segments c' = inr (segments ++ extra) ->
  csv_row X c segment csv_content = inr csv_content' ->
  csv_row X c' segment csv_content = inr csv_content'.
Proof.
  unfold analysis_segments, csv_row, ebind. intros Hc Hc'.
  destruct (getitem segment "start") as [|j]; [discriminate|].
  destruct (format_2f X j) as [|start]; [discriminate|].
  destruct (getitem segment "speaker") as [|speaker]; [discriminate|].
  destruct (getitem segment "text") as [|text]; [discriminate|].
  destruct (getitem (analysis c) "segments") as [|a]; [discriminate|]. rewrite Hc.
  destruct (getitem (analysis c') "segments") as [|a']; [discriminate|]. rewrite Hc'.
  destruct (next_classification segments segment) as [|cl] eqn:Hn; [discriminate|].
  rewrite (next_classification_app _ extra _ _ Hn). auto.
Qed.

(** X11.  The csv export looks analysis segments up for transcript
    segments, never the other way round: when the csv export of a record
    succeeds, the export of a record with the same transcript and further
    analysis segments after the same ones -- whatever their starts -- is the
    same text.  An analysis segment that matches no transcript segment is
    passed over in silence. *)
Theorem csv_export_ignores_further_analysis X (c c' : Conversation)
  (segments extra : list json) (csv_content : string) :
  transcript c' = transcript c ->
  analysis_segments c = inr segments ->
  analysis_segments c' = inr (segments ++ extra) ->
  export_csv X c = inr csv_content ->
  export_csv X c' = inr csv_content.
Proof.
  intros Ht Hc Hc'. unfold export_csv, ebind. rewrite Ht.
  destruct (getitem (transcript c) "segments") as [|t]; [discriminate|].
  destruct (iter t) as [|rows]; [discriminate|].
  generalize ("timestamp,speaker,text,phase,sentiment" +:+ nl).
  induction rows as [|row rows IH]; intros acc; cbn; [auto|].
  unfold ebind.
  destruct (csv_row X c row acc) as [|acc'] eqn:Hrow; [discriminate|].
  rewrite (csv_row_more_analysis X c c' segments extra row acc acc' Hc Hc' Hrow).
  apply IH.
Qed.

Lemma csv_export_ignores_further_analysis_witness :
  exists csv_content,
    export_csv Sample.happy Sample.complete = inr csv_content /\
    export_csv Sample.happy Sample.overanalysed = inr csv_content.
Proof.
  eexists. split; [vm_compute; reflexivity|].
  apply (csv_export_ignores_further_analysis Sample.happy Sample.complete
           Sample.overanalysed
           [Sample.aseg 0 "opening" "neutral"; Sample.aseg (5 # 2) "opening" "positive"]
           [Sample.aseg 9 "closing" "negative"]); reflexivity.
Defined.

(** X12.  The txt export of a record succeeds only if the analysis has a
    summary with a duration, a dict of phases and a dict of sentiments, and a
    turn-taking analysis with its total and with the totals of
    ["salesperson_stats"] and of ["customer_stats"]: a record whose turn
    analysis lacks one of them has no txt export. *)
Theorem txt_export_needs_turn_statistics X (conversation_id : Z) (c : Conversation)
  (txt_content : string) :
  export_txt X conversation_id c = inr txt_content ->
  exists summary duration phases sentiments turn_analysis total salesperson customer
         salesperson_turns customer_turns,
    getitem (analysis c) "summary" = inr summary /\
    getitem summary "duration" = inr duration /\
    getitem summary "phase_distribution" = inr (JObj phases) /\
    getitem summary "sentiment_summary" = inr (JObj sentiments) /\
    getitem (analysis c) "turn_taking" = inr turn_analysis /\
    getitem turn_analysis "total_turns" = inr total /\
    getitem turn_analysis "salesperson_stats" = inr salesperson /\
    getitem salesperson "total_turns" = inr salesperson_turns /\
    getitem turn_analysis "customer_stats" = inr customer /\
    getitem customer "total_turns" = inr customer_turns.
Proof.
  unfold export_txt, ebind.
  destruct (getitem (transcript c) "segments") as [|t]; [discriminate|].
  destruct (iter t) as [|rows]; [discriminate|].
  destruct (txt_transcript X rows _) as [|txt1]; [discriminate|].
  destruct (getitem (analysis c) "summary") as [|summary]; [discriminate|].
  destruct (getitem summary "duration") as [|duration] eqn:Hd; [discriminate|].
  destruct (format_2f X duration) as [|d]; [discriminate|].
  destruct (getitem summary "phase_distribution") as [|phases] eqn:Hph; [discriminate|].
  destruct (items phases) as [|pl] eqn:Hpi; [discriminate|].
  destruct (txt_phases X pl _) as [|txt2]; [discriminate|].
  destruct (getitem summary "sentiment_summary") as [|sentiments] eqn:Hse; [discriminate|].
  destruct (items sentiments) as [|sl] eqn:Hsi; [discriminate|].
  destruct (getitem (analysis c) "turn_taking") as [|ta]; [discriminate|].
  destruct (getitem ta "total_turns") as [|total] eqn:Htt; [discriminate|].
  destruct (getitem ta "salesperson_stats") as [|sp] eqn:Hsp; [discriminate|].
  destruct (getitem sp "total_turns") as [|spt] eqn:Hspt; [discriminate|].
  destruct (getitem ta "customer_stats") as [|cu] eqn:Hcu; [discriminate|].
  destruct (getitem cu "total_turns") as [|cut] eqn:Hcut; [discriminate|].
  intros _.
  destruct phases; try discriminate Hpi. destruct sentiments; try discriminate Hsi.
  eexists summary, duration, _, _, ta, total, sp, cu, spt, cut.
  repeat split; eauto.
Qed.

Lemma txt_export_needs_turn_statistics_witness :
  exists summary duration phases sentiments turn_analysis total salesperson customer
         salesperson_turns customer_turns,
    getitem (analysis Sample.complete) "summary" = inr summary /\
    getitem summary "duration" = inr duration /\
    getitem summary "phase_distribution" = inr (JObj phases) /\
    getitem summary "sentiment_summary" = inr (JObj sentiments) /\
    getitem (analysis Sample.complete) "turn_taking" = inr turn_analysis /\
    getitem turn_analysis "total_turns" = inr total /\
    getitem turn_analysis "salesperson_stats" = inr salesperson /\
    getitem salesperson "total_turns" = inr salesperson_turns /\
    getitem turn_analysis "customer_stats" = inr customer /\
    getitem customer "total_turns" = inr customer_turns.
Proof.
  eapply (txt_export_needs_turn_statistics Sample.happy 1 Sample.complete).
  vm_compute. reflexivity.
Defined.

(** ** From the upload to the export *)

Lemma next_ident_above rows r : In r rows -> conversation_ident r < next_ident rows.
Proof.
  unfold next_ident. induction rows as [|a rows IH]; [intros []|].
  cbn [map fold_right]. intros [<-|Hin]; [lia|]. specialize (IH Hin). lia.
Qed.

Lemma find_app_none {A} (f : A -> bool) l l' :
  List.find f l = None -> List.find f (l ++ l') = List.find f l'.
Proof.
  induction l as [|a l IH]; cbn; [reflexivity|].
  destruct (f a); [discriminate | exact IH].
Qed.

Lemma query_first_last rows c :
  query_first (rows ++ [c]) (next_ident rows) (user_id c)
  = if Z.eqb (conversation_ident c) (next_ident rows) then Some c else None.
Proof.
  unfold query_first. rewrite find_app_none.
  - cbn. rewrite Z.eqb_refl, andb_true_r. reflexivity.
  - destruct (List.find _ rows) as [r|] eqn:E; [|reflexivity].
    destruct (find_some _ _ E) as [Hin Hr]. apply andb_true_iff in Hr as [Hr _].
    apply Z.eqb_eq in Hr. pose proof (next_ident_above rows r Hin). lia.
Qed.

Lemma query_first_foreign rows c uid :
  uid <> user_id c -> query_first (rows ++ [c]) (next_ident rows) uid = None.
Proof.
  intros Hne. apply query_first_none. intros r (Hin & Hid & Hu).
  apply in_app_or in Hin as [Hin|[<-|[]]].
  - pose proof (next_ident_above rows r Hin). lia.
  - congruence.
Qed.

(** X13.  A task of a single upload that reads stage 4, [completed], has its
    record: served from a request whose session holds no pending row, the
    run has appended one row to the table, under a new id, owned by the
    uploader and with the path the processing returned; the uploader's json
    export of that id answers 200 with the stored transcript and analysis,
    and the export of that id by any other user answers 404. *)
Theorem completed_task_is_exportable X (file : UploadFile) (current_user : User)
  (w : world) :
  supported file = true ->
  progress_tracker w !! coming_id X w 0 = None ->
  session w = [] ->
  let r := serve X (upload_single_audio X file current_user) w in
  progress_tracker (final r) !! coming_id X w 0 = Some (mkTask 4 completed None) ->
  exists path c,
    process_audio_file X file = inr path /\
    conversations (final r) = conversations w ++ [c] /\
    conversation_ident c = next_ident (conversations w) /\
    user_id c = user_ident current_user /\
    file_path c = path /\
    export_conversation X (next_ident (conversations w)) "json" current_user (final r)
    = (inr (JSONResponse 200
              (JObj [("transcript", transcript c);
                     ("analysis", analysis c);
                     ("metadata",
                      JObj [("created_at", JStr (isoformat X (created_at c)));
                            ("file_path", JStr path)])])),
       final r, []) /\
    forall other format,
      user_ident other <> user_ident current_user ->
      export_conversation X (next_ident (conversations w)) format other (final r)
      = (inl (HTTPException 404 "Conversation not found"), final r, []).
Proof.
  intros Hs Hf Hsess r Hdone. subst r.
  pose proof (serve_upload_single_run X file current_user w Hs Hf) as H.
  cbv zeta in H.
  destruct H as [(msg & _ & _ & _ & Hpt & _)
                |[(path & k & s & e & _ & _ & _ & _ & Hpt & _)
                 |(path & c0 & Hp & _ & _ & _ & Hrows & Hu & Hfp)]].
  - rewrite Hpt, lookup_insert_eq in Hdone. discriminate Hdone.
  - rewrite Hpt, lookup_insert_eq in Hdone. discriminate Hdone.
  - clear Hsess. cbn [app insert_rows] in Hrows.
    set (c := mkConversation (next_ident (conversations w)) (new_user_id c0)
                (new_file_path c0) (new_transcript c0) (new_analysis c0)
                (utcnow X (next_ident (conversations w)))) in Hrows.
    exists path, c. split; [exact Hp|]. split; [exact Hrows|].
    split; [reflexivity|]. split; [exact Hu|]. split; [exact Hfp|]. split.
    + assert (Hq : query_first
                     (conversations (final (serve X (upload_single_audio X file current_user) w)))
                     (next_ident (conversations w)) (user_ident current_user) = Some c).
      { rewrite Hrows, <- Hu. change (new_user_id c0) with (user_id c).
        rewrite query_first_last. cbn [conversation_ident c]. now rewrite Z.eqb_refl. }
      rewrite (export_found _ _ _ _ _ _ Hq).
      cbn [in_list export_formats existsb].
      change (String.eqb "json" "json") with true. cbn [orb negb].
      unfold ret. cbn [file_path c]. rewrite Hfp. reflexivity.
    + intros other format Hne. apply export_not_found; rewrite Hrows.
      * unfold storable. rewrite existsb_app. cbn [existsb conversation_ident c].
        rewrite Z.eqb_refl. now rewrite !orb_true_r.
      * apply query_first_foreign. cbn [user_id c]. congruence.
Qed.

Lemma completed_task_is_exportable_witness :
  let r := serve Sample.happy
             (upload_single_audio Sample.happy (Sample.upload "a.wav" "audio/wav")
                Sample.alice)
             empty_world in
  exists path c,
    process_audio_file Sample.happy (Sample.upload "a.wav" "audio/wav") = inr path /\
    conversations (final r) = [] ++ [c] /\
    conversation_ident c = next_ident [] /\
    user_id c = 7 /\
    file_path c = path /\
    export_conversation Sample.happy (next_ident []) "json" Sample.alice (final r)
    = (inr (JSONResponse 200
              (JObj [("transcript", transcript c);
                     ("analysis", analysis c);
                     ("metadata",
                      JObj [("created_at", JStr (isoformat Sample.happy (created_at c)));
                            ("file_path", JStr path)])])),
       final r, []) /\
    forall other format,
      user_ident other <> 7 ->
      export_conversation Sample.happy (next_ident []) format other (final r)
      = (inl (HTTPException 404 "Conversation not found"), final r, []).
Proof.
  apply (completed_task_is_exportable Sample.happy (Sample.upload "a.wav" "audio/wav")
           Sample.alice empty_world); reflexivity.
Defined.

(** ** What the batch handler and the csv export leave out *)

Lemma batch_trace_marks X files : forall n ev,
  In ev (batch_trace X n files) -> is_mark ev ->
  exists t f msg, ev = Marked t 0 error (Some msg) /\ In f files /\
                  process_audio_file X f = inl msg.
Proof.
  induction files as [|f0 rest IH]; intros n ev Hin Hm; [destruct Hin|].
  cbn [batch_trace] in Hin.
  destruct Hin as [<-|[<-|Hin]]; [destruct Hm | destruct Hm |].
  apply in_app_or in Hin as [Hin|Hin].
  - destruct (process_audio_file X f0) as [msg|path] eqn:Hp; cbn in Hin.
    + destruct Hin as [<-|[<-|[]]]; [destruct Hm|].
      exists (uuid_stream X n), f0, msg. cbn. auto.
    + destruct Hin as [<-|[<-|[]]]; destruct Hm.
  - destruct (IH (S n) ev Hin Hm) as (t & f & msg & -> & Hf & Hp).
    exists t, f, msg. cbn. auto.
Qed.

(** ** The stages written, task by task *)

Lemma batch_trace_foreign X files tid : forall n,
  (forall i, (i < length files)%nat -> uuid_stream X (n + i) <> tid) ->
  updates tid (batch_trace X n files) = [] /\
  ~ In (Dispatched tid) (batch_trace X n files).
Proof.
  induction files as [|f rest IH]; intros n Hne; [split; [reflexivity | intros []]|].
  assert (Hn : uuid_stream X n <> tid).
  { rewrite <- (Nat.add_0_r n). apply Hne. cbn. lia. }
  destruct (IH (S n)) as [IHu IHd].
  { intros i Hi. rewrite Nat.add_succ_comm. apply Hne. cbn. lia. }
  apply String.eqb_neq in Hn as Hb.
  cbn [batch_trace]. destruct (process_audio_file X f) as [msg|path];
    cbn [app updates In]; rewrite ?Hb; (split; [exact IHu|]);
    intros H; repeat (destruct H as [H|H]; [congruence|]); exact (IHd H).
Qed.

Lemma batch_trace_updates X files tid : forall n,
  (forall i j, (i < length files)%nat -> (j < length files)%nat ->
               uuid_stream X (n + i) = uuid_stream X (n + j) -> i = j) ->
  updates tid (batch_trace X n files) = [] \/
  exists msg, updates tid (batch_trace X n files) = [Marked tid 0 error (Some msg)] /\
              ~ In (Dispatched tid) (batch_trace X n files).
Proof.
  induction files as [|f rest IH]; intros n Hinj; [left; reflexivity|].
  destruct (String.eqb_spec (uuid_stream X n) tid) as [Heq|Hne].
  - destruct (batch_trace_foreign X rest tid (S n)) as [Hu Hd].
    { intros i Hi Hc.
      assert (S i = 0)%nat as [=].
      apply Hinj; cbn [length]; try lia.
      rewrite Nat.add_0_r, Heq, <- Hc. f_equal. lia. }
    cbn [batch_trace]. destruct (process_audio_file X f) as [msg|path];
      cbn [app updates In].
    + right. exists msg. apply String.eqb_eq in Heq as Hb. rewrite Hb, Hu, Heq.
      split; [reflexivity|].
      intros H; repeat (destruct H as [H|H]; [discriminate H|]); exact (Hd H).
    + left. exact Hu.
  - apply String.eqb_neq in Hne as Hb.
    destruct (IH (S n)) as [Hu|(msg & Hu & Hd)].
    { intros i j Hi Hj Hc.
      assert (S i = S j)%nat as [=]; [|assumption].
      apply Hinj; cbn [length]; try lia.
      rewrite <- !Nat.add_succ_comm. exact Hc. }
    + left. cbn [batch_trace]. destruct (process_audio_file X f);
        cbn [app updates]; rewrite ?Hb; exact Hu.
    + right. exists msg. cbn [batch_trace]. destruct (process_audio_file X f);
        cbn [app updates In]; rewrite ?Hb; (split; [exact Hu|]);
        intros H; repeat (destruct H as [H|H]; [congruence|]); exact (Hd H).
Qed.

Lemma updates_app tid tr tr' : updates tid (tr ++ tr') = updates tid tr ++ updates tid tr'.
Proof.
  induction tr as [|ev tr IH]; [reflexivity|].
  destruct ev; cbn [app updates]; rewrite ?IH; try reflexivity.
  destruct (String.eqb _ tid); [now rewrite <- app_comm_cons | reflexivity].
Qed.

(** The queue of a request runs the orchestrator on each task in turn, as
    long as none fails. *)
Lemma run_background_tasks_log X calls : forall w,
  Forall (fun c => is_Some (progress_tracker w !! bg_task_id c)) calls ->
  queue_log (map bg_task_id calls) (trace (run_background_tasks X calls w)).
Proof.
  induction calls as [|c calls IH]; intros w Hreg; [reflexivity|].
  apply List.Forall_cons_iff in Hreg as [Hc Hrest].
  cbn [run_background_tasks map queue_log]. unfold bind.
  pose proof (transcribe_and_analyze_run X (bg_file_path c) (bg_user_id c) (bg_task_id c)
                w Hc) as H.
  cbv zeta in H.
  destruct (transcribe_and_analyze X (bg_file_path c) (bg_user_id c) (bg_task_id c) w)
    as [[res w1] t1].
  cbn [result final trace fst snd] in H.
  destruct H as [(-> & -> & Hpt & _)|(k & s & e & Hk & -> & -> & _)].
  - left. specialize (IH w1).
    destruct (run_background_tasks X calls w1) as [[res2 w2] t2].
    cbn [trace snd] in *. exists t2. split; [reflexivity|]. apply IH.
    rewrite Hpt. eapply Forall_impl; [exact Hrest|].
    intros c' Hc'. cbn beta in *. apply lookup_insert_is_Some'. now right.
  - right. exists k, s, (str e). auto.
Qed.

Ltac solve_task_updates :=
  split;
  [ cbn [forward_stages];
    first [ exists 0%nat; reflexivity | exists 1%nat; reflexivity
          | exists 2%nat; reflexivity | exists 3%nat; reflexivity
          | exists 4%nat; reflexivity ]
  | cbn [error_stage_written];
    repeat split; try discriminate;
    try solve [ left; split; reflexivity
              | right; eexists; repeat split; first [reflexivity | lia]
              | solve_forall ] ].

(** What a queue writes about one task, when no task is queued twice. *)
Lemma queue_log_updates ids : NoDup ids -> forall tr tid,
  queue_log ids tr ->
  (~ In tid ids -> updates tid tr = []) /\
  (exists n, forward_stages (updates tid tr) = firstn n [1; 2; 3; 4]) /\
  error_stage_written (Some 0) (updates tid tr).
Proof.
  induction 1 as [|t0 rest Hnew _ IH]; intros tr tid Hlog.
  - cbn in Hlog. subst tr. split; [reflexivity|]. solve_task_updates.
  - rewrite list_elem_of_In in Hnew. cbn [queue_log] in Hlog.
    destruct Hlog as [(tr' & -> & Hrest)|(k & s & msg & Hk & ->)]; rewrite updates_app.
    + specialize (IH tr' tid Hrest). destruct IH as (Hout & Hstages & Herr).
      destruct (String.eqb_spec t0 tid) as [<-|Hne].
      * rewrite (Hout Hnew), app_nil_r.
        unfold pipeline_trace. cbn [updates]. rewrite !String.eqb_refl.
        split; [intros Hno; exfalso; apply Hno; left; reflexivity|].
        solve_task_updates.
      * apply String.eqb_neq in Hne as Hb.
        unfold pipeline_trace. cbn [updates]. rewrite !Hb. cbn [app].
        split; [|split; assumption].
        intros Hno. apply Hout. intros Hin. apply Hno. right. exact Hin.
    + destruct (String.eqb_spec t0 tid) as [<-|Hne].
      * split; [intros Hno; exfalso; apply Hno; left; reflexivity|].
        cbn [failure_points In] in Hk.
        repeat (destruct Hk as [<-|Hk];
                [unfold pipeline_trace; cbn [firstn updates app];
                 rewrite ?String.eqb_refl; cbn [app]; solve_task_updates|]).
        destruct Hk.
      * apply String.eqb_neq in Hne as Hb.
        assert (Hnone : updates tid (firstn k (pipeline_trace t0)) ++
                        updates tid [Raised s msg; Marked t0 (-1) error (Some msg)] = []).
        { cbn [failure_points In] in Hk.
          repeat (destruct Hk as [<-|Hk];
                  [unfold pipeline_trace; cbn [firstn updates app];
                   rewrite ?Hb; reflexivity|]).
          destruct Hk. }
        rewrite Hnone. split; [reflexivity|]. solve_task_updates.
Qed.

Lemma batch_calls_ids X uid files : forall n c,
  In c (batch_calls X uid n files) ->
  (exists j, (j < length files)%nat /\ bg_task_id c = uuid_stream X (n + j)) /\
  In (Dispatched (bg_task_id c)) (batch_trace X n files).
Proof.
  induction files as [|f rest IH]; intros n c Hin; [destruct Hin|].
  cbn [batch_calls batch_trace] in *. apply in_app_or in Hin as [Hin|Hin].
  - destruct (process_audio_file X f) as [msg|path]; [destruct Hin|].
    destruct Hin as [<-|[]]. cbn [bg_task_id]. split.
    + exists 0%nat. rewrite Nat.add_0_r. split; [cbn; lia | reflexivity].
    + cbn. auto.
  - destruct (IH (S n) c Hin) as [(j & Hj & Hid) Hd]. split.
    + exists (S j). rewrite <- Nat.add_succ_comm. split; [cbn; lia | exact Hid].
    + right. right. apply in_or_app. right. exact Hd.
Qed.

Lemma batch_calls_nodup X uid files : forall n,
  (forall i j, (i < length files)%nat -> (j < length files)%nat ->
               uuid_stream X (n + i) = uuid_stream X (n + j) -> i = j) ->
  NoDup (map bg_task_id (batch_calls X uid n files)).
Proof.
  induction files as [|f rest IH]; intros n Hinj; [constructor|].
  assert (Hrest : NoDup (map bg_task_id (batch_calls X uid (S n) rest))).
  { apply IH. intros i j Hi Hj Hc.
    assert (S i = S j)%nat as [=]; [|assumption].
    apply Hinj; cbn [length]; try lia. rewrite <- !Nat.add_succ_comm. exact Hc. }
  cbn [batch_calls]. destruct (process_audio_file X f) as [msg|path]; [exact Hrest|].
  cbn [app map bg_task_id]. constructor; [|exact Hrest].
  intros Hin. apply list_elem_of_In, in_map_iff in Hin as (c & Hid & Hin).
  destruct (batch_calls_ids X uid rest (S n) c Hin) as [(j & Hj & Hc) _].
  assert (S j = 0)%nat as [=].
  apply Hinj; cbn [length]; try lia.
  rewrite Nat.add_0_r, <- Hid, Hc. f_equal. lia.
Qed.

Lemma batch_tracker_keeps X files : forall n (tasks : gmap string ProcessingTask) t,
  is_Some (tasks !! t) -> is_Some (batch_tracker X n files tasks !! t).
Proof.
  induction files as [|f rest IH]; intros n tasks t Ht; [exact Ht|].
  cbn [batch_tracker]. apply IH. apply lookup_insert_is_Some'. now right.
Qed.

Lemma batch_tracker_registered X files : forall n (tasks : gmap string ProcessingTask) j,
  (j < length files)%nat ->
  is_Some (batch_tracker X n files tasks !! uuid_stream X (n + j)).
Proof.
  induction files as [|f rest IH]; intros n tasks j Hj; [cbn in Hj; lia|].
  cbn [batch_tracker]. destruct j as [|j].
  - rewrite Nat.add_0_r. apply batch_tracker_keeps. rewrite lookup_insert_eq. eauto.
  - rewrite <- Nat.add_succ_comm. apply IH. cbn in Hj. lia.
Qed.

(** A batch, served from admission to the end of its queue. *)
Lemma serve_upload_batch_trace X files current_user w :
  (length files <= 10)%nat ->
  forallb supported files = true ->
  fresh_ids X w (length files) ->
  exists resp queue,
    trace (serve X (upload_batch_audio X files current_user) w)
    = batch_trace X (uuid_calls w) files ++ Responded (inr resp) :: queue /\
    queue_log (map bg_task_id (batch_calls X (user_ident current_user) (uuid_calls w) files))
              queue.
Proof.
  intros Hlen Hvalid Hfresh.
  pose (w0 := mkWorld (progress_tracker w) (conversations w) [] [] (uuid_calls w)).
  pose proof (upload_batch_audio_run X files current_user w0 Hlen Hvalid Hfresh) as Hup.
  destruct (serve X (upload_batch_audio X files current_user) w) as [[res w'] tr] eqn:E.
  cbn [trace snd].
  unfold serve in E. unfold bind at 1, modify in E. cbv beta iota in E. fold w0 in E.
  unfold bind at 1, attempt in E. rewrite Hup in E. clear Hup.
  subst w0.
  cbn [progress_tracker conversations session background_tasks uuid_calls app] in E.
  cbv [bind log get ret attempt background_tasks] in E.
  match type of E with
  | context [run_background_tasks X ?calls ?w1] =>
      pose proof (run_background_tasks_log X calls w1) as Hq;
      destruct (run_background_tasks X calls w1) as [[res1 w1'] tr1]
  end.
  cbn [trace snd progress_tracker] in Hq.
  injection E as <- <- <-.
  eexists _, tr1. split.
  - cbn [app]. rewrite app_nil_r. reflexivity.
  - apply Hq. apply List.Forall_forall. intros c Hin.
    destruct (batch_calls_ids _ _ _ _ _ Hin) as [(j & Hj & ->) _].
    now apply batch_tracker_registered.
Qed.

(** C3, amended.  For every task, the stages written by the updates other
    than the transition to [error] are strictly increasing: the orchestrator
    writes a beginning of 1, 2, 3, 4 -- for a task admitted by a single
    upload after the 0 its admission wrote, so that the whole life of such a
    task writes a beginning of 0, 1, 2, 3, 4; the batch admission writes no
    stage for a file it accepts, so that the whole life of a task of a
    batch writes a beginning of 1, 2, 3, 4.  The transition to [error]
    writes a stage too: the orchestrator overwrites the stage with -1, the
    admission handlers, single and batch, write 0; and no update of the task
    follows it (a file whose admission failed is not handed to the
    orchestrator). *)
Theorem stages_written X :
  (forall file_path user_id task_id w,
     is_Some (progress_tracker w !! task_id) ->
     let tr := trace (transcribe_and_analyze X file_path user_id task_id w) in
     (exists n, forward_stages tr = firstn n [1; 2; 3; 4]) /\
     strictly_increasing (0 :: forward_stages tr) /\
     error_stage_written None tr /\
     updates task_id tr = all_updates tr) /\
  (forall file current_user w,
     supported file = true ->
     progress_tracker w !! coming_id X w 0 = None ->
     let tr := trace (serve X (upload_single_audio X file current_user) w) in
     (exists n, forward_stages tr = firstn n [0; 1; 2; 3; 4]) /\
     strictly_increasing (forward_stages tr) /\
     error_stage_written None tr /\
     updates (coming_id X w 0) tr = all_updates tr) /\
  (forall files current_user w,
     (length files <= 10)%nat ->
     forallb supported files = true ->
     fresh_ids X w (length files) ->
     (let tr := trace (upload_batch_audio X files current_user w) in
      forall task_id,
        updates task_id tr = [] \/
        exists msg, updates task_id tr = [Marked task_id 0 error (Some msg)] /\
                    ~ In (Dispatched task_id) tr) /\
     (let tr := trace (serve X (upload_batch_audio X files current_user) w) in
      forall task_id,
        (exists n, forward_stages (updates task_id tr) = firstn n [1; 2; 3; 4]) /\
        strictly_increasing (forward_stages (updates task_id tr)) /\
        error_stage_written (Some 0) (updates task_id tr))).
Proof.
  split; [|split].
  - intros file_path user_id task_id w Hreg tr. subst tr.
    pose proof (transcribe_and_analyze_run X file_path user_id task_id w Hreg) as H.
    cbv zeta in H.
    pipeline_cases H solve_stages.
  - intros file current_user w Hs Hf tr. subst tr.
    pose proof (serve_upload_single_run X file current_user w Hs Hf) as H.
    cbv zeta in H.
    serve_cases H solve_stages.
  - intros files current_user w Hlen Hvalid Hfresh.
    assert (Hinj : forall i j, (i < length files)%nat -> (j < length files)%nat ->
                     uuid_stream X (uuid_calls w + i) = uuid_stream X (uuid_calls w + j) ->
                     i = j).
    { intros i j Hi Hj Hc. destruct (Hfresh i Hi) as [_ Hd].
      apply (Hd j Hj). unfold coming_id. now rewrite !(Nat.add_comm _ (uuid_calls w)). }
    assert (Hadm : forall task_id,
               updates task_id (batch_trace X (uuid_calls w) files) = [] \/
               exists msg,
                 updates task_id (batch_trace X (uuid_calls w) files)
                 = [Marked task_id 0 error (Some msg)] /\
                 ~ In (Dispatched task_id) (batch_trace X (uuid_calls w) files)).
    { intros task_id. now apply batch_trace_updates. }
    split.
    + intros tr task_id. subst tr.
      rewrite (upload_batch_audio_run X files current_user w Hlen Hvalid Hfresh).
      apply Hadm.
    + intros tr task_id. subst tr.
      destruct (serve_upload_batch_trace X files current_user w Hlen Hvalid Hfresh)
        as (resp & queue & -> & Hlog).
      pose proof (queue_log_updates _ (batch_calls_nodup X _ files _ Hinj) queue task_id Hlog)
        as (Hout & Hstages & Herr).
      rewrite updates_app. cbn [updates].
      assert (Hgoal : forall us,
                 (exists n, forward_stages us = firstn n [1; 2; 3; 4]) ->
                 error_stage_written (Some 0) us ->
                 (exists n, forward_stages us = firstn n [1; 2; 3; 4]) /\
                 strictly_increasing (forward_stages us) /\
                 error_stage_written (Some 0) us).
      { intros us [n Hn] He. split; [eauto|]. split; [|exact He].
        rewrite Hn. destruct n as [|[|[|[|[|n]]]]]; cbn; lia. }
      destruct (Hadm task_id) as [->|(msg & -> & Hnot)].
      * cbn [app]. now apply Hgoal.
      * rewrite Hout.
        -- cbn [app]. apply Hgoal; [exists 0%nat; reflexivity|].
           cbn. repeat split; auto.
        -- intros Hin. apply Hnot. apply in_map_iff in Hin as (c & <- & Hin).
           now destruct (batch_calls_ids _ _ _ _ _ Hin).
Qed.

(** The transcription fails in the run of a registered task and in a served
    single upload; the second file of a batch of three cannot be decoded. *)
Lemma stages_written_witness :
  (let tr := trace (transcribe_and_analyze Sample.deaf "/tmp/a.wav" 7 "t" Sample.registered) in
   (exists n, forward_stages tr = firstn n [1; 2; 3; 4]) /\
   strictly_increasing (0 :: forward_stages tr) /\
   error_stage_written None tr /\
   updates "t" tr = all_updates tr) /\
  (let tr := trace (serve Sample.deaf
                      (upload_single_audio Sample.deaf (Sample.upload "a.wav" "audio/wav")
                         Sample.alice)
                      empty_world) in
   (exists n, forward_stages tr = firstn n [0; 1; 2; 3; 4]) /\
   strictly_increasing (forward_stages tr) /\
   error_stage_written None tr /\
   updates (coming_id Sample.deaf empty_world 0) tr = all_updates tr) /\
  (let tr := trace (upload_batch_audio Sample.happy Sample.three Sample.alice empty_world) in
   updates "task-1" tr = [] \/
   exists msg, updates "task-1" tr = [Marked "task-1" 0 error (Some msg)] /\
               ~ In (Dispatched "task-1") tr) /\
  (let tr := trace (serve Sample.deaf (upload_batch_audio Sample.deaf Sample.three Sample.alice)
                      empty_world) in
   (exists n, forward_stages (updates "task-0" tr) = firstn n [1; 2; 3; 4]) /\
   strictly_increasing (forward_stages (updates "task-0" tr)) /\
   error_stage_written (Some 0) (updates "task-0" tr)).
Proof.
  destruct (stages_written Sample.deaf) as (Hrun & Hsingle & Hserved).
  destruct (stages_written Sample.happy) as (_ & _ & Hbatch).
  split; [|split; [|split]].
  - apply (Hrun "/tmp/a.wav" 7 "t" Sample.registered).
    exists (mkTask 0 pending None). reflexivity.
  - apply (Hsingle (Sample.upload "a.wav" "audio/wav") Sample.alice empty_world);
      reflexivity.
  - apply (Hbatch Sample.three Sample.alice empty_world).
    + cbn. lia.
    + reflexivity.
    + exact three_fresh.
  - apply (Hserved Sample.three Sample.alice empty_world).
    + cbn. lia.
    + reflexivity.
    + exact three_fresh.
Defined.

(** X14.  The batch handler updates the progress of a task only to mark a
    failed processing: every update it makes is the transition to [error] at
    stage 0 with the message of a file whose processing raised.  Unlike the
    single upload it never marks stage 0 for a file it accepts, whose task
    stays as [create_task] registered it. *)
Theorem batch_marks_only_failures X (files : list UploadFile) (current_user : User)
  (w : world) :
  (length files <= 10)%nat ->
  forallb supported files = true ->
  fresh_ids X w (length files) ->
  forall ev,
    In ev (trace (upload_batch_audio X files current_user w)) -> is_mark ev ->
    exists t f msg, ev = Marked t 0 error (Some msg) /\ In f files /\
                    process_audio_file X f = inl msg.
Proof.
  intros Hlen Hvalid Hfresh ev.
  rewrite (upload_batch_audio_run X files current_user w Hlen Hvalid Hfresh).
  cbn [trace snd]. apply batch_trace_marks.
Qed.

Lemma batch_marks_only_failures_witness :
  exists t f msg,
    Marked "task-1" 0 error (Some "cannot decode broken.wav")
    = Marked t 0 error (Some msg) /\
    In f Sample.three /\ process_audio_file Sample.happy f = inl msg.
Proof.
  apply (batch_marks_only_failures Sample.happy Sample.three Sample.alice empty_world).
  - cbn. lia.
  - reflexivity.
  - exact three_fresh.
  - rewrite three_trace. cbn. tauto.
  - exact I.
Defined.

Lemma csv_rows_correlated X c rows : forall acc csv_content segment,
  csv_rows X c rows acc = inr csv_content -> In segment rows ->
  exists segments s, analysis_segments c = inr segments /\ In s segments /\
                     matches segment s.
Proof.
  induction rows as [|row rows IH]; intros acc csv_content segment Hrows Hin;
    [destruct Hin|].
  cbn in Hrows. unfold ebind in Hrows.
  destruct (csv_row X c row acc) as [|acc'] eqn:Hrow; [discriminate|].
  destruct Hin as [<-|Hin]; [|exact (IH _ _ _ Hrows Hin)].
  destruct (csv_row_correlated _ _ _ _ _ Hrow)
    as (segments & pre & s & post & _ & _ & _ & _ & Hseg & -> & Hm & _).
  exists (pre ++ s :: post), s. split; [exact Hseg|]. split; [|exact Hm].
  apply in_or_app. right. left. reflexivity.
Qed.

(** X15.  A csv export that succeeds has correlated every row: each segment
    of the stored transcript has an analysis segment with an equal start. *)
Theorem csv_export_success_means_correlated X (c : Conversation) (csv_content : string)
  (rows : list json) :
  export_csv X c = inr csv_content ->
  transcript_segments c = inr rows ->
  forall segment, In segment rows ->
    exists segments s, analysis_segments c = inr segments /\ In s segments /\
                       matches segment s.
Proof.
  unfold export_csv, transcript_segments, ebind. intros Hcsv Hrows.
  destruct (getitem (transcript c) "segments") as [|t]; [discriminate|].
  rewrite Hrows in Hcsv. intros segment Hin.
  exact (csv_rows_correlated X c rows _ _ segment Hcsv Hin).
Qed.

Lemma csv_export_success_means_correlated_witness :
  exists segments s, analysis_segments Sample.complete = inr segments /\
                     In s segments /\ matches (Sample.seg (5 # 2) "B" "hello") s.
Proof.
  eapply (csv_export_success_means_correlated Sample.happy Sample.complete).
  - vm_compute. reflexivity.
  - reflexivity.
  - cbn. auto.
Defined.
